(** * Soft Actor-Critic training core (stable_baselines3/sac/sac.py)

    A shallow embedding of the update rules of [SAC.train], [SAC.pretrain],
    [SAC.update_alpha] and [SAC._compute_conservative_loss], of
    [SAC._setup_model] and of the names [SAC.get_torch_variables] and
    [SAC.excluded_save_params] return.

    Conventions of the embedding.
    - Tensor entries are idealised as real numbers ([R]); a tensor of shape
      (B, 1) or (B,) is a [list R] of length B, a tensor of shape (B, n) is a
      list of B rows.
    - Python exceptions are the constructors of [exn]; a computation that can
      raise returns a [result].
    - The networks, their optimizers, the replay buffer and the random number
      generator are collaborators that live outside sac.py: they are the
      fields of the class [Collaborators], and every stochastic call reads
      the next position of a random stream kept in the trainer state.
    - A scalar loss on which [backward()] is called is kept as a function of
      the parameter its optimizer owns, every other quantity (in particular
      every detached one) being held at its current value. *)

From Stdlib Require Import String Ascii.
From Stdlib Require Import Reals Lra Lia ZArith Bool List.
Import ListNotations.
Local Open Scope R_scope.

(** ** Exceptions *)

Inductive exn : Type :=
| AssertionError
| RuntimeError
| TypeError
| AttributeError
| ZeroDivisionError.

Definition result (A : Type) : Type := (exn + A)%type.

Definition Ok {A : Type} (a : A) : result A := inr a.
Definition Raise {A : Type} (e : exn) : result A := inl e.

Definition rbind {A B : Type} (r : result A) (k : A -> result B) : result B :=
  match r with
  | inl e => inl e
  | inr a => k a
  end.

Notation "x <~ c ;; k" := (rbind c (fun x => k))
  (at level 61, c at next level, right associativity).

(** ** Tensor helpers *)

(** [t.sum()] *)
Definition tsum (t : list R) : R := fold_right Rplus 0 t.

(** [t.mean()] *)
Definition tmean (t : list R) : R := tsum t / INR (length t).

(** [t.max()] on all the entries of a tensor; torch raises on an empty one. *)
Definition tmax (t : list R) : result R :=
  match t with
  | [] => Raise RuntimeError
  | x :: xs => Ok (fold_left Rmax xs x)
  end.

(** [t.min()] on all the entries of a tensor; torch raises on an empty one. *)
Definition tmin (t : list R) : result R :=
  match t with
  | [] => Raise RuntimeError
  | x :: xs => Ok (fold_left Rmin xs x)
  end.

(** Element-wise binary operation on two tensors of the same shape. *)
Definition zip_with {A B C : Type} (f : A -> B -> C) (l1 : list A) (l2 : list B) : list C :=
  map (fun p => f (fst p) (snd p)) (combine l1 l2).

(** [t.clamp(lo, hi)], entry-wise [min(max(x, lo), hi)]. *)
Definition clamp (lo hi x : R) : R := Rmin (Rmax x lo) hi.

(** The rows of a tuple of columns of length [B]: row [b] holds entry [b] of
    each column, in the order of the tuple. *)
Fixpoint transpose {A : Type} (B : nat) (cols : list (list A)) : list (list A) :=
  match B with
  | O => []
  | S B' => flat_map (firstn 1) cols :: transpose B' (map (skipn 1) cols)
  end.

(** [th.cat(ts, dim=1)] of a tuple of (B, 1) columns: a (B, N) tensor, given
    as B rows.  torch refuses an empty tuple and columns of unequal length. *)
Definition cat_dim1 (ts : list (list R)) : result (list (list R)) :=
  match ts with
  | [] => Raise RuntimeError
  | t :: _ =>
      if forallb (fun c => Nat.eqb (length c) (length t)) ts
      then Ok (transpose (length t) ts)
      else Raise RuntimeError
  end.

(** [th.min(t, dim=1, keepdim=True)] on the rows of a (B, N) tensor, N >= 1. *)
Definition row_min (row : list R) : R :=
  match row with
  | [] => 0
  | x :: xs => fold_left Rmin xs x
  end.

Definition min_dim1 (rows : list (list R)) : list R := map row_min rows.

(** [F.mse_loss(input, target)] with the default mean reduction. *)
Definition mse_loss (input target : list R) : R :=
  tmean (zip_with (fun x y => (x - y) * (x - y)) input target).

(** [t.view(B, n)] of a flat tensor of B * n entries, row-major. *)
Fixpoint view_rows {A : Type} (B n : nat) (flat : list A) : list (list A) :=
  match B with
  | O => []
  | S B' => firstn n flat :: view_rows B' n (skipn n flat)
  end.

(** [th.cat(ts)] along the first dimension; torch refuses an empty list. *)
Definition cat_dim0 {A : Type} (ts : list (list A)) : result (list A) :=
  match ts with
  | [] => Raise RuntimeError
  | _ => Ok (concat ts)
  end.

(** [t.view(B, n, 1)], which torch refuses unless the sizes agree. *)
Definition view {A : Type} (B n : nat) (flat : list A) : result (list (list A)) :=
  if Nat.eqb (length flat) (B * n) then Ok (view_rows B n flat) else Raise RuntimeError.

(** Python's [range(n)] for an integer [n]. *)
Definition range (n : Z) : list Z := map Z.of_nat (seq 0 (Z.to_nat n)).

(** Python's [a % b == 0]; [Z.modulo] has the sign of the divisor, as
    Python's [%] has, and Python raises on a zero divisor. *)
Definition mod_is_zero (a b : Z) : result bool :=
  if Z.eqb b 0 then Raise ZeroDivisionError else Ok (Z.eqb (Z.modulo a b) 0).

(** ** The conservative coefficient *)

(** [self.log_alpha.clamp(-10.0, 2.0).exp()] *)
Definition clipped_alpha (log_alpha : R) : R := exp (clamp (-10) 2 log_alpha).

(** Python's built-in [sum] of a list of numbers, which starts from 0. *)
Definition py_sum (l : list R) : R := fold_left Rplus l 0.

(** [t.sum(dim=0)] of a (N, B, 1) tensor given as its N slices. *)
Definition sum_dim0 (slices : list (list R)) : list R :=
  match slices with
  | [] => []
  | t :: rest => fold_left (zip_with Rplus) rest t
  end.

(** A 0-dim tensor or a (B, 1) column, with torch's broadcasting between
    the two. *)
Inductive tensor : Type :=
| Scalar (x : R)
| Column (xs : list R).

Definition tensor_map (f : R -> R) (t : tensor) : tensor :=
  match t with
  | Scalar x => Scalar (f x)
  | Column xs => Column (map f xs)
  end.

Definition tensor_map2 (f : R -> R -> R) (a b : tensor) : tensor :=
  match a, b with
  | Scalar x, Scalar y => Scalar (f x y)
  | Scalar x, Column ys => Column (map (f x) ys)
  | Column xs, Scalar y => Column (map (fun x => f x y) xs)
  | Column xs, Column ys => Column (zip_with f xs ys)
  end.

Definition tensor_mean (t : tensor) : R :=
  match t with
  | Scalar x => x
  | Column xs => tmean xs
  end.

(** [th.min] applied to an unpacked tuple of (B, 1) columns, as in
    [th.min( *self.critic(obs, actions))]: with one argument torch
    reduces over every entry and returns a 0-dim tensor, with two tensors it
    is the entry-wise minimum, and no other arity has a matching overload. *)
Definition th_min_star (ts : list (list R)) : result tensor :=
  match ts with
  | [t] => x <~ tmin t ;; Ok (Scalar x)
  | [t1; t2] => Ok (Column (zip_with Rmin t1 t2))
  | _ => Raise TypeError
  end.

(** [advantage > 0] as it enters a product with a float tensor. *)
Definition positive_indicator (a : R) : R := if Rlt_dec 0 a then 1 else 0.

(** The computation recorded by a forward pass, as a function of the leaf
    the optimizer owns. *)
Definition graph_of {P : Type} (forward : P -> result R) : P -> R :=
  fun p => match forward p with inr v => v | inl _ => 0 end.

(** ** Replay data *)

(** One row of a [ReplayBufferSamples]: the fields of a batch share their
    first dimension, so a batch is a list of rows. *)
Record Transition (O A : Type) : Type := {
  observation : O;
  action : A;
  next_observation : O;
  done : R;
  reward : R
}.

Arguments observation {O A} _.
Arguments action {O A} _.
Arguments next_observation {O A} _.
Arguments done {O A} _.
Arguments reward {O A} _.

(** ** Collaborators of the training core *)

(** The policy networks, the optimizers, the replay buffer and the random
    streams, none of which is defined in sac.py. *)
Class Collaborators : Type := {
  Obs : Type;
  Act : Type;
  Noise : Type;
  ActorParams : Type;
  CriticParams : Type;
  ActorOpt : Type;
  CriticOpt : Type;
  ScalarOpt : Type;
  (** one row of [actor.action_log_prob(obs)]: the reparameterised action
      and its log-probability, for the noise of the call and the row index *)
  actor_sample : ActorParams -> Noise -> nat -> Obs -> Act * R;
  (** one row of [actor.evaluate_actions(obs, actions)] *)
  actor_log_prob : ActorParams -> Obs -> Act -> R;
  (** [critic.n_critics] and the value of critic [j] on one row *)
  n_critics : nat;
  q_network : CriticParams -> nat -> Obs -> Act -> R;
  (** [optimizer.zero_grad(); loss.backward(); optimizer.step()] *)
  actor_optimizer_step : ActorOpt -> (ActorParams -> R) -> ActorParams -> ActorOpt * ActorParams;
  critic_optimizer_step : CriticOpt -> (CriticParams -> R) -> CriticParams -> CriticOpt * CriticParams;
  scalar_optimizer_step : ScalarOpt -> (R -> R) -> R -> ScalarOpt * R;
  (** [update_learning_rate(optimizer, lr)] *)
  actor_set_lr : R -> ActorOpt -> ActorOpt;
  critic_set_lr : R -> CriticOpt -> CriticOpt;
  scalar_set_lr : R -> ScalarOpt -> ScalarOpt;
  lr_schedule : R -> R;
  (** [polyak_update(params, target_params, tau)], the new target *)
  polyak_update : CriticParams -> CriticParams -> R -> CriticParams;
  (** the random streams: Gaussian noise of the actor, uniform actions in
      [-1, 1] by row, and the draws of the replay buffer, which holds a
      reference to the actor and the entropy coefficient written to it *)
  noise_stream : nat -> Noise;
  uniform_stream : nat -> nat -> Act;
  replay_buffer_draw : ActorParams -> R -> nat -> nat -> list (Transition Obs Act)
}.

(** The attributes of [SAC] fixed at construction. *)
Record Hyperparameters : Type := {
  gamma : R;
  tau : R;
  target_update_interval : Z;
  target_entropy : R;
  alpha_threshold : R;
  n_action_samples : nat;
  use_sde : bool
}.

(** ** The trainer *)

Section SAC.

Context {C : Collaborators}.
Variable hp : Hyperparameters.

Definition ReplayBufferSamples : Type := list (Transition Obs Act).

Definition observations (d : ReplayBufferSamples) : list Obs := map observation d.
Definition actions (d : ReplayBufferSamples) : list Act := map action d.
Definition next_observations (d : ReplayBufferSamples) : list Obs := map next_observation d.
Definition dones (d : ReplayBufferSamples) : list R := map done d.
Definition rewards (d : ReplayBufferSamples) : list R := map reward d.

(** [actor.action_log_prob(obs)] on a batch. *)
Definition action_log_prob (theta : ActorParams) (xi : Noise) (obs : list Obs)
  : list Act * list R :=
  let rows := map (fun p => actor_sample theta xi (fst p) (snd p))
                  (combine (seq 0 (length obs)) obs) in
  (map fst rows, map snd rows).

(** [actor.evaluate_actions(obs, actions)] on a batch. *)
Definition evaluate_actions (theta : ActorParams) (obs : list Obs) (acts : list Act) : list R :=
  zip_with (actor_log_prob theta) obs acts.

(** [critic(obs, actions)]: a tuple of [n_critics] columns. *)
Definition critic_forward (phi : CriticParams) (obs : list Obs) (acts : list Act)
  : list (list R) :=
  map (fun j => zip_with (q_network phi j) obs acts) (seq 0 n_critics).

(** [th.cat(critic(obs, actions), dim=1)] followed by
    [th.min(_, dim=1, keepdim=True)]. *)
Definition min_over_critics (phi : CriticParams) (obs : list Obs) (acts : list Act)
  : result (list R) :=
  rows <~ cat_dim1 (critic_forward phi obs acts) ;;
  Ok (min_dim1 rows).

(** The entropy coefficient: learned in log space with its own optimizer
    ([ent_coef_optimizer is not None]) or a fixed tensor. *)
Inductive EntCoef : Type :=
| AutoEntCoef (log_ent_coef : R) (ent_coef_optimizer : ScalarOpt)
| FixedEntCoef (ent_coef_tensor : R).

(** The calls to collaborators that the trainer records. *)
Inductive Event : Type :=
| EntCoefOptimizerStep
| CriticOptimizerStep
| ActorOptimizerStep
| AlphaOptimizerStep
| PolyakUpdate (gradient_step : Z)
| HardCopy (gradient_step : Z).

(** The mutable attributes of [SAC].  [cql] holds [log_alpha] and
    [alpha_optimizer], which [_setup_model] creates exactly when [use_cql]
    is set.  [rng] is the position in the random streams and [events] the
    calls made so far, latest first. *)
Record Trainer : Type := {
  actor_params : ActorParams;
  actor_optimizer : ActorOpt;
  critic_params : CriticParams;
  critic_optimizer : CriticOpt;
  critic_target_params : CriticParams;
  ent_coef_state : EntCoef;
  cql : option (R * ScalarOpt);
  replay_buffer_ent_coef : R;
  current_progress_remaining : R;
  n_updates : Z;
  rng : nat;
  events : list Event
}.

Definition use_cql (s : Trainer) : bool :=
  match cql s with Some _ => true | None => false end.

Definition set_actor (p : ActorOpt * ActorParams) (s : Trainer) : Trainer :=
  {| actor_params := snd p; actor_optimizer := fst p;
     critic_params := critic_params s; critic_optimizer := critic_optimizer s;
     critic_target_params := critic_target_params s;
     ent_coef_state := ent_coef_state s; cql := cql s;
     replay_buffer_ent_coef := replay_buffer_ent_coef s;
     current_progress_remaining := current_progress_remaining s;
     n_updates := n_updates s; rng := rng s; events := events s |}.

Definition set_critic (p : CriticOpt * CriticParams) (s : Trainer) : Trainer :=
  {| actor_params := actor_params s; actor_optimizer := actor_optimizer s;
     critic_params := snd p; critic_optimizer := fst p;
     critic_target_params := critic_target_params s;
     ent_coef_state := ent_coef_state s; cql := cql s;
     replay_buffer_ent_coef := replay_buffer_ent_coef s;
     current_progress_remaining := current_progress_remaining s;
     n_updates := n_updates s; rng := rng s; events := events s |}.

Definition set_critic_target (psi : CriticParams) (s : Trainer) : Trainer :=
  {| actor_params := actor_params s; actor_optimizer := actor_optimizer s;
     critic_params := critic_params s; critic_optimizer := critic_optimizer s;
     critic_target_params := psi;
     ent_coef_state := ent_coef_state s; cql := cql s;
     replay_buffer_ent_coef := replay_buffer_ent_coef s;
     current_progress_remaining := current_progress_remaining s;
     n_updates := n_updates s; rng := rng s; events := events s |}.

Definition set_ent_coef_state (e : EntCoef) (s : Trainer) : Trainer :=
  {| actor_params := actor_params s; actor_optimizer := actor_optimizer s;
     critic_params := critic_params s; critic_optimizer := critic_optimizer s;
     critic_target_params := critic_target_params s;
     ent_coef_state := e; cql := cql s;
     replay_buffer_ent_coef := replay_buffer_ent_coef s;
     current_progress_remaining := current_progress_remaining s;
     n_updates := n_updates s; rng := rng s; events := events s |}.

Definition set_cql (a : option (R * ScalarOpt)) (s : Trainer) : Trainer :=
  {| actor_params := actor_params s; actor_optimizer := actor_optimizer s;
     critic_params := critic_params s; critic_optimizer := critic_optimizer s;
     critic_target_params := critic_target_params s;
     ent_coef_state := ent_coef_state s; cql := a;
     replay_buffer_ent_coef := replay_buffer_ent_coef s;
     current_progress_remaining := current_progress_remaining s;
     n_updates := n_updates s; rng := rng s; events := events s |}.

Definition set_replay_buffer_ent_coef (x : R) (s : Trainer) : Trainer :=
  {| actor_params := actor_params s; actor_optimizer := actor_optimizer s;
     critic_params := critic_params s; critic_optimizer := critic_optimizer s;
     critic_target_params := critic_target_params s;
     ent_coef_state := ent_coef_state s; cql := cql s;
     replay_buffer_ent_coef := x;
     current_progress_remaining := current_progress_remaining s;
     n_updates := n_updates s; rng := rng s; events := events s |}.

Definition set_n_updates (n : Z) (s : Trainer) : Trainer :=
  {| actor_params := actor_params s; actor_optimizer := actor_optimizer s;
     critic_params := critic_params s; critic_optimizer := critic_optimizer s;
     critic_target_params := critic_target_params s;
     ent_coef_state := ent_coef_state s; cql := cql s;
     replay_buffer_ent_coef := replay_buffer_ent_coef s;
     current_progress_remaining := current_progress_remaining s;
     n_updates := n; rng := rng s; events := events s |}.

Definition set_rng (k : nat) (s : Trainer) : Trainer :=
  {| actor_params := actor_params s; actor_optimizer := actor_optimizer s;
     critic_params := critic_params s; critic_optimizer := critic_optimizer s;
     critic_target_params := critic_target_params s;
     ent_coef_state := ent_coef_state s; cql := cql s;
     replay_buffer_ent_coef := replay_buffer_ent_coef s;
     current_progress_remaining := current_progress_remaining s;
     n_updates := n_updates s; rng := k; events := events s |}.

Definition set_events (l : list Event) (s : Trainer) : Trainer :=
  {| actor_params := actor_params s; actor_optimizer := actor_optimizer s;
     critic_params := critic_params s; critic_optimizer := critic_optimizer s;
     critic_target_params := critic_target_params s;
     ent_coef_state := ent_coef_state s; cql := cql s;
     replay_buffer_ent_coef := replay_buffer_ent_coef s;
     current_progress_remaining := current_progress_remaining s;
     n_updates := n_updates s; rng := rng s; events := l |}.

(** *** The state-and-exception monad of the trainer *)

Definition M (A : Type) : Type := Trainer -> result (A * Trainer).

Definition ret {A : Type} (a : A) : M A := fun s => Ok (a, s).

Definition bind {A B : Type} (m : M A) (k : A -> M B) : M B :=
  fun s => match m s with
           | inl e => inl e
           | inr (a, s') => k a s'
           end.

Definition lift {A : Type} (r : result A) : M A :=
  fun s => match r with inl e => inl e | inr a => Ok (a, s) end.

Definition gets {A : Type} (f : Trainer -> A) : M A := fun s => Ok (f s, s).

Definition modify (f : Trainer -> Trainer) : M unit := fun s => Ok (tt, f s).

Definition emit (e : Event) : M unit := modify (fun s => set_events (e :: events s) s).

Notation "x <- c ;; k" := (bind c (fun x => k))
  (at level 61, c at next level, right associativity).

(** [actor.reset_noise()], called under gSDE only: a new exploration
    matrix, that is the next position of the noise stream. *)
Definition reset_noise : M unit :=
  if use_sde hp then modify (fun s => set_rng (S (rng s)) s) else ret tt.

(** The noise of one [action_log_prob] call: fresh Gaussian noise, or under
    gSDE the exploration matrix of the latest [reset_noise]. *)
Definition call_noise : M Noise :=
  fun s => Ok (noise_stream (rng s),
               if use_sde hp then s else set_rng (S (rng s)) s).

(** [self.replay_buffer.sample(batch_size, env=...)] *)
Definition replay_buffer_sample (batch_size : nat) : M ReplayBufferSamples :=
  fun s => Ok (replay_buffer_draw (actor_params s) (replay_buffer_ent_coef s) (rng s) batch_size,
               set_rng (S (rng s)) s).

(** *** Bootstrap target *)

(** Lines 319-328 of [train], under [th.no_grad()]. *)
Definition train_q_backup (theta : ActorParams) (xi : Noise) (psi : CriticParams)
  (ent_coef : R) (replay_data : ReplayBufferSamples) : result (list R) :=
  let next := action_log_prob theta xi (next_observations replay_data) in
  let next_actions := fst next in
  let next_log_prob := snd next in
  target_q <~ min_over_critics psi (next_observations replay_data) next_actions ;;
  let target_q := zip_with Rminus target_q (map (Rmult ent_coef) next_log_prob) in
  Ok (zip_with Rplus (rewards replay_data)
        (zip_with Rmult
           (map (fun x => x * gamma hp) (map (fun d => 1 - d) (dones replay_data)))
           target_q)).

(** Lines 432-441 of [pretrain], under [th.no_grad()]. *)
Definition pretrain_q_backup (theta : ActorParams) (xi : Noise) (psi : CriticParams)
  (ent_coef : R) (replay_data : ReplayBufferSamples) : result (list R) :=
  let next := action_log_prob theta xi (next_observations replay_data) in
  let next_actions := fst next in
  let next_log_prob := snd next in
  target_q <~ min_over_critics psi (next_observations replay_data) next_actions ;;
  let target_q := zip_with Rminus target_q (map (Rmult ent_coef) next_log_prob) in
  Ok (zip_with Rplus (rewards replay_data)
        (zip_with Rmult
           (map (fun x => x * gamma hp) (map (fun d => 1 - d) (dones replay_data)))
           target_q)).

(** *** Losses, as functions of the leaf their optimizer owns *)

(** [-(self.log_ent_coef * (log_prob + self.target_entropy).detach()).mean()] *)
Definition ent_coef_loss_fwd (log_prob : list R) (log_ent_coef : R) : R :=
  - tmean (map (fun c => log_ent_coef * c)
               (map (fun lp => lp + target_entropy hp) log_prob)).

(** [0.5 * sum([F.mse_loss(current_q, q_backup) for current_q in current_q_estimates])] *)
Definition critic_loss_fwd (replay_data : ReplayBufferSamples) (q_backup : list R)
  (phi : CriticParams) : R :=
  0.5 * py_sum (map (fun current_q => mse_loss current_q q_backup)
                    (critic_forward phi (observations replay_data) (actions replay_data))).

(** [(ent_coef * log_prob - min_qf_pi).mean()] of [train], the action and
    its log-probability being reparameterised samples of the actor. *)
Definition actor_loss_fwd (xi : Noise) (phi : CriticParams) (ent_coef : R)
  (obs : list Obs) (theta : ActorParams) : result R :=
  let pi := action_log_prob theta xi obs in
  let actions_pi := fst pi in
  let log_prob := snd pi in
  min_qf_pi <~ min_over_critics phi obs actions_pi ;;
  Ok (tmean (zip_with Rminus (map (Rmult ent_coef) log_prob) min_qf_pi)).

(** *** Conservative loss (CQL) *)

(** The tensors [_compute_conservative_loss] samples before it evaluates
    the critic. *)
Record CqlSamples : Type := {
  flat_policy_acts : list Act;
  random_actions : list Act;
  log_probs : list (list R)
}.

(** [self.critic(obs, actions)[0]]; the assertion on [n_critics] has passed
    when this is reached. *)
Definition first_critic (phi : CriticParams) (obs : list Obs) (acts : list Act) : list R :=
  nth 0 (critic_forward phi obs acts) [].

(** [obs_t.expand(n, ...).transpose(0, 1).reshape(-1, ...)]: every
    observation repeated [n_action_samples] times. *)
Definition flat_obs_t (replay_data : ReplayBufferSamples) : list Obs :=
  flat_map (fun o => repeat o (n_action_samples hp)) (observations replay_data).

(** [policy_values], viewed as (n_critics, batch, n, 1) with one critic. *)
Definition cql_policy_values (replay_data : ReplayBufferSamples) (smp : CqlSamples)
  (phi : CriticParams) : list (list R) :=
  view_rows (length (observations replay_data)) (n_action_samples hp)
            (first_critic phi (flat_obs_t replay_data) (flat_policy_acts smp)).

(** [random_values], viewed alike. *)
Definition cql_random_values (replay_data : ReplayBufferSamples) (smp : CqlSamples)
  (phi : CriticParams) : list (list R) :=
  view_rows (length (observations replay_data)) (n_action_samples hp)
            (first_critic phi (flat_obs_t replay_data) (random_actions smp)).

(** [th.max(policy_values.max(), random_values.max()).detach()] *)
Definition cql_base (replay_data : ReplayBufferSamples) (smp : CqlSamples)
  (phi : CriticParams) : result R :=
  pmax <~ tmax (concat (cql_policy_values replay_data smp phi)) ;;
  rmax <~ tmax (concat (cql_random_values replay_data smp phi)) ;;
  Ok (Rmax pmax rmax).

(** Lines 253-268: the loss for a detached [base], as a function of the
    critic parameters and of [log_alpha]. *)
Definition conservative_loss_fwd (replay_data : ReplayBufferSamples) (smp : CqlSamples)
  (base : R) (phi : CriticParams) (log_alpha : R) : R :=
  let policy_values := cql_policy_values replay_data smp phi in
  let random_values := cql_random_values replay_data smp phi in
  let policy_meanexp :=
    zip_with (fun pv lp => tmean (zip_with (fun v l => exp (v - base - l)) pv lp))
             policy_values (log_probs smp) in
  let random_meanexp :=
    map (fun rv => tmean (map (fun v => exp (v - base)) rv) / 0.5) random_values in
  let logsumexp :=
    map (fun x => x + base)
        (zip_with (fun r p => ln (0.5 * r + 0.5 * p + 1e-10)) random_meanexp policy_meanexp) in
  let data_values :=
    first_critic phi (observations replay_data) (actions replay_data) in
  let element_wise_loss :=
    zip_with (fun l d => l - d - alpha_threshold hp) logsumexp data_values in
  tmean (sum_dim0 [map (Rmult (clipped_alpha log_alpha)) element_wise_loss]).

(** The [n_action_samples] calls of the actor, lines 217-223. *)
Fixpoint sample_policy_actions (n : nat) (obs : list Obs) : M (list (list Act * list R)) :=
  match n with
  | O => ret []
  | S n' =>
      _ <- reset_noise ;;
      theta <- gets actor_params ;;
      xi <- call_noise ;;
      rest <- sample_policy_actions n' obs ;;
      ret (action_log_prob theta xi obs :: rest)
  end.

(** [th.cat(policy_actions, dim=1).view(batch, n, action_dim)] *)
Definition cat_policy_actions (B : nat) (policy_actions : list (list Act))
  : result (list (list Act)) :=
  match policy_actions with
  | [] => Raise RuntimeError
  | _ => Ok (transpose B policy_actions)
  end.

(** Lines 211-248 without the critic evaluations: the assertion, the policy
    samples and their reshaping, the uniform actions.  The actions are
    concatenated along dim 1, the log-probabilities along dim 0, and both are
    then viewed with the batch first. *)
Definition conservative_samples (replay_data : ReplayBufferSamples) : M CqlSamples :=
  let obs_t := observations replay_data in
  _ <- lift (if Nat.eqb n_critics 1 then Ok tt else Raise AssertionError) ;;
  draws <- sample_policy_actions (n_action_samples hp) obs_t ;;
  policy_actions <- lift (cat_policy_actions (length obs_t) (map fst draws)) ;;
  flat_log_probs <- lift (cat_dim0 (map snd draws)) ;;
  n_log_probs <- lift (view (length obs_t) (n_action_samples hp) flat_log_probs) ;;
  let flat_policy_acts := concat policy_actions in
  k <- gets rng ;;
  _ <- modify (fun s => set_rng (S k) s) ;;
  ret {| flat_policy_acts := flat_policy_acts;
         random_actions := map (uniform_stream k) (seq 0 (length flat_policy_acts));
         log_probs := n_log_probs |}.

(** A scalar loss with its value and its dependence on the critic
    parameters and on [log_alpha]. *)
Record Tracked : Type := {
  item : R;
  graph : CriticParams -> R -> R
}.

(** [self.log_alpha], which exists only when [use_cql] is set. *)
Definition get_log_alpha : M R :=
  fun s => match cql s with
           | Some a => Ok (fst a, s)
           | None => Raise AttributeError
           end.

Definition _compute_conservative_loss (replay_data : ReplayBufferSamples) : M Tracked :=
  smp <- conservative_samples replay_data ;;
  phi <- gets critic_params ;;
  base <- lift (cql_base replay_data smp phi) ;;
  log_alpha <- get_log_alpha ;;
  ret {| item := conservative_loss_fwd replay_data smp base phi log_alpha;
         graph := conservative_loss_fwd replay_data smp base |}.

(** [update_alpha]: one optimizer step on [log_alpha] for the negated
    conservative loss, recomputed on fresh samples. *)
Definition update_alpha (replay_data : ReplayBufferSamples) : M unit :=
  loss <- _compute_conservative_loss replay_data ;;
  phi <- gets critic_params ;;
  a <- gets cql ;;
  match a with
  | Some (log_alpha, alpha_optimizer) =>
      let r := scalar_optimizer_step alpha_optimizer
                 (fun la => - graph loss phi la) log_alpha in
      _ <- modify (set_cql (Some (snd r, fst r))) ;;
      emit AlphaOptimizerStep
  | None => lift (Raise AttributeError)
  end.

(** *** [train] *)

(** The lists [train] appends to and reports at its end. *)
Record Logs : Type := {
  ent_coef_losses : list R;
  ent_coefs : list R;
  actor_losses : list R;
  critic_losses : list R
}.

Definition empty_logs : Logs :=
  {| ent_coef_losses := []; ent_coefs := []; actor_losses := []; critic_losses := [] |}.

(** The entropy coefficient of a step: [th.exp(self.log_ent_coef.detach())]
    or [self.ent_coef_tensor]. *)
Definition current_ent_coef (e : EntCoef) : R :=
  match e with
  | AutoEntCoef log_ent_coef _ => exp log_ent_coef
  | FixedEntCoef ent_coef_tensor => ent_coef_tensor
  end.

(** Lines 312-317: the optimizer step on [log_ent_coef], when the loss is
    not [None]. *)
Definition optimize_ent_coef (e : EntCoef) (log_prob : list R) : M unit :=
  match e with
  | AutoEntCoef log_ent_coef ent_coef_optimizer =>
      let r := scalar_optimizer_step ent_coef_optimizer
                 (ent_coef_loss_fwd log_prob) log_ent_coef in
      _ <- modify (set_ent_coef_state (AutoEntCoef (snd r) (fst r))) ;;
      emit EntCoefOptimizerStep
  | FixedEntCoef _ => ret tt
  end.

(** One iteration of the loop of [train], lines 286-366. *)
Definition train_step (batch_size : nat) (logs : Logs) (gradient_step : Z) : M Logs :=
  replay_data <- replay_buffer_sample batch_size ;;
  _ <- reset_noise ;;
  theta <- gets actor_params ;;
  xi <- call_noise ;;
  let log_prob := snd (action_log_prob theta xi (observations replay_data)) in
  e <- gets ent_coef_state ;;
  let ent_coef := current_ent_coef e in
  let ent_coef_losses' :=
    match e with
    | AutoEntCoef log_ent_coef _ =>
        ent_coef_losses logs ++ [ent_coef_loss_fwd log_prob log_ent_coef]
    | FixedEntCoef _ => ent_coef_losses logs
    end in
  _ <- modify (set_replay_buffer_ent_coef ent_coef) ;;
  _ <- optimize_ent_coef e log_prob ;;
  xi' <- call_noise ;;
  psi <- gets critic_target_params ;;
  q_backup <- lift (train_q_backup theta xi' psi ent_coef replay_data) ;;
  phi <- gets critic_params ;;
  let critic_loss := critic_loss_fwd replay_data q_backup phi in
  with_cql <- gets use_cql ;;
  critic_graph <-
    (if with_cql
     then conservative <- _compute_conservative_loss replay_data ;;
          log_alpha <- get_log_alpha ;;
          ret (fun phi' => critic_loss_fwd replay_data q_backup phi'
                           + graph conservative phi' log_alpha)
     else ret (critic_loss_fwd replay_data q_backup)) ;;
  critic_opt <- gets critic_optimizer ;;
  _ <- modify (set_critic (critic_optimizer_step critic_opt critic_graph phi)) ;;
  _ <- emit CriticOptimizerStep ;;
  phi' <- gets critic_params ;;
  actor_loss <- lift (actor_loss_fwd xi phi' ent_coef (observations replay_data) theta) ;;
  actor_opt <- gets actor_optimizer ;;
  _ <- modify (set_actor (actor_optimizer_step actor_opt
                 (graph_of (actor_loss_fwd xi phi' ent_coef (observations replay_data)))
                 theta)) ;;
  _ <- emit ActorOptimizerStep ;;
  _ <- (if with_cql then update_alpha replay_data else ret tt) ;;
  sync <- lift (mod_is_zero gradient_step (target_update_interval hp)) ;;
  _ <- (if sync
        then phi'' <- gets critic_params ;;
             psi' <- gets critic_target_params ;;
             _ <- modify (set_critic_target (polyak_update phi'' psi' (tau hp))) ;;
             emit (PolyakUpdate gradient_step)
        else ret tt) ;;
  ret {| ent_coef_losses := ent_coef_losses';
         ent_coefs := ent_coefs logs ++ [ent_coef];
         actor_losses := actor_losses logs ++ [actor_loss];
         critic_losses := critic_losses logs ++ [critic_loss] |}.

(** [for x in xs: acc = body(acc, x)] *)
Fixpoint for_each {A X : Type} (xs : list X) (body : A -> X -> M A) (acc : A) : M A :=
  match xs with
  | [] => ret acc
  | x :: xs' => acc' <- body acc x ;; for_each xs' body acc'
  end.

(** [self._update_learning_rate(optimizers)] *)
Definition update_learning_rate (with_alpha : bool) : M unit :=
  modify (fun s =>
    let lr := lr_schedule (current_progress_remaining s) in
    let s := set_actor (actor_set_lr lr (actor_optimizer s), actor_params s) s in
    let s := set_critic (critic_set_lr lr (critic_optimizer s), critic_params s) s in
    let s := match ent_coef_state s with
             | AutoEntCoef l o => set_ent_coef_state (AutoEntCoef l (scalar_set_lr lr o)) s
             | FixedEntCoef _ => s
             end in
    match cql s with
    | Some (la, o) => if with_alpha then set_cql (Some (la, scalar_set_lr lr o)) s else s
    | None => s
    end).

(** [train(gradient_steps, batch_size)]; the lists are what it hands to
    the logger. *)
Definition train (gradient_steps : Z) (batch_size : nat) : M Logs :=
  _ <- update_learning_rate true ;;
  logs <- for_each (range gradient_steps) (train_step batch_size) empty_logs ;;
  _ <- modify (fun s => set_n_updates (n_updates s + gradient_steps)%Z s) ;;
  ret logs.

(** *** [pretrain] (critic regularized regression) *)

(** [qf_agg] after one more sample, lines 470-479. *)
Definition crr_aggregate (reduce : string) (n_samples : nat) (qf_agg : option tensor)
  (qf_pi : tensor) : tensor :=
  match qf_agg with
  | None =>
      if String.eqb reduce "max" then qf_pi
      else tensor_map (fun x => x / INR n_samples) qf_pi
  | Some agg =>
      if String.eqb reduce "max" then tensor_map2 Rmax qf_pi agg
      else tensor_map2 Rplus agg (tensor_map (fun x => x / INR n_samples) qf_pi)
  end.

(** The loop of lines 464-479, [k] iterations left. *)
Fixpoint crr_sample_loop (k n_samples : nat) (reduce : string)
  (replay_data : ReplayBufferSamples) (qf_agg : option tensor) : M (option tensor) :=
  match k with
  | O => ret qf_agg
  | S k' =>
      _ <- reset_noise ;;
      theta <- gets actor_params ;;
      xi <- call_noise ;;
      let actions_pi := fst (action_log_prob theta xi (observations replay_data)) in
      phi <- gets critic_params ;;
      qf_pi <- lift (th_min_star (critic_forward phi (observations replay_data) actions_pi)) ;;
      crr_sample_loop k' n_samples reduce replay_data
        (Some (crr_aggregate reduce n_samples qf_agg qf_pi))
  end.

(** Lines 460-481; subtracting [None] from a tensor is a type error. *)
Definition crr_advantage (n_samples : nat) (reduce : string)
  (replay_data : ReplayBufferSamples) : M tensor :=
  phi <- gets critic_params ;;
  qf_buffer <- lift (th_min_star
                       (critic_forward phi (observations replay_data) (actions replay_data))) ;;
  qf_agg <- crr_sample_loop n_samples n_samples reduce replay_data None ;;
  match qf_agg with
  | None => lift (Raise TypeError)
  | Some agg => ret (tensor_map2 Rminus qf_buffer agg)
  end.

(** Lines 456-488: the regression weight.  The integer 1 of the "bc"
    strategy broadcasts as a 0-dim tensor does. *)
Definition crr_weight (n_samples : nat) (strategy reduce : string) (exp_temperature : R)
  (replay_data : ReplayBufferSamples) : M tensor :=
  if String.eqb strategy "bc" then ret (Scalar 1)
  else
    advantage <- crr_advantage n_samples reduce replay_data ;;
    if String.eqb strategy "binary" then ret (tensor_map positive_indicator advantage)
    else ret (tensor_map (fun a => clamp 0 20 (exp (a / exp_temperature))) advantage).

(** [(-log_prob * weight).mean()] with
    [log_prob = actor.evaluate_actions(observations, actions)]. *)
Definition pretrain_actor_loss_fwd (replay_data : ReplayBufferSamples) (weight : tensor)
  (theta : ActorParams) : R :=
  let log_prob :=
    evaluate_actions theta (observations replay_data) (actions replay_data) in
  tensor_mean (tensor_map2 Rmult (Column (map Ropp log_prob)) weight).

Record PretrainLogs : Type := {
  pretrain_actor_losses : list R;
  pretrain_critic_losses : list R
}.

(** Lines 410-506: an iteration of [pretrain] that does not delegate to
    [train]. *)
Definition pretrain_update (batch_size n_samples : nat) (target_update_interval' : Z)
  (strategy reduce : string) (exp_temperature : R) (logs : PretrainLogs)
  (gradient_step : Z) : M PretrainLogs :=
  replay_data <- replay_buffer_sample batch_size ;;
  _ <- reset_noise ;;
  theta <- gets actor_params ;;
  xi <- call_noise ;;
  let log_prob := snd (action_log_prob theta xi (observations replay_data)) in
  e <- gets ent_coef_state ;;
  let ent_coef := current_ent_coef e in
  let ent_coef_loss :=
    match e with
    | AutoEntCoef log_ent_coef _ => Some (ent_coef_loss_fwd log_prob log_ent_coef)
    | FixedEntCoef _ => None
    end in
  _ <- modify (set_replay_buffer_ent_coef ent_coef) ;;
  xi' <- call_noise ;;
  psi <- gets critic_target_params ;;
  q_backup <- lift (pretrain_q_backup theta xi' psi ent_coef replay_data) ;;
  phi <- gets critic_params ;;
  let critic_loss := critic_loss_fwd replay_data q_backup phi in
  critic_opt <- gets critic_optimizer ;;
  _ <- modify (set_critic (critic_optimizer_step critic_opt
                 (critic_loss_fwd replay_data q_backup) phi)) ;;
  _ <- emit CriticOptimizerStep ;;
  weight <- crr_weight n_samples strategy reduce exp_temperature replay_data ;;
  let actor_loss := pretrain_actor_loss_fwd replay_data weight theta in
  actor_opt <- gets actor_optimizer ;;
  _ <- modify (set_actor (actor_optimizer_step actor_opt
                 (pretrain_actor_loss_fwd replay_data weight) theta)) ;;
  _ <- emit ActorOptimizerStep ;;
  sync <- lift (mod_is_zero gradient_step target_update_interval') ;;
  _ <- (if sync
        then phi' <- gets critic_params ;;
             _ <- modify (set_critic_target phi') ;;
             emit (HardCopy gradient_step)
        else ret tt) ;;
  ret {| pretrain_actor_losses := pretrain_actor_losses logs ++ [actor_loss];
         pretrain_critic_losses := pretrain_critic_losses logs ++ [critic_loss] |}.

(** [off_policy_update_freq > 0 and gradient_step % off_policy_update_freq == 0] *)
Definition delegates_to_train (off_policy_update_freq gradient_step : Z) : bool :=
  Z.ltb 0 off_policy_update_freq
  && Z.eqb (Z.modulo gradient_step off_policy_update_freq) 0.

(** One iteration of the loop of [pretrain], lines 404-506. *)
Definition pretrain_step (batch_size n_samples : nat) (target_update_interval' : Z)
  (strategy reduce : string) (exp_temperature : R) (off_policy_update_freq : Z)
  (logs : PretrainLogs) (gradient_step : Z) : M PretrainLogs :=
  if delegates_to_train off_policy_update_freq gradient_step
  then _ <- train 1 batch_size ;; ret logs
  else pretrain_update batch_size n_samples target_update_interval' strategy reduce
         exp_temperature logs gradient_step.

Definition pretrain (gradient_steps : Z) (batch_size n_samples : nat)
  (target_update_interval' : Z) (strategy reduce : string) (exp_temperature : R)
  (off_policy_update_freq : Z) : M PretrainLogs :=
  _ <- update_learning_rate false ;;
  for_each (range gradient_steps)
    (pretrain_step batch_size n_samples target_update_interval' strategy reduce
       exp_temperature off_policy_update_freq)
    {| pretrain_actor_losses := []; pretrain_critic_losses := [] |}.

End SAC.

(** ** [_setup_model] and the saved variables *)

(** [Union[str, float]], the type of the arguments [ent_coef] and
    [target_entropy]. *)
Inductive str_or_float : Type :=
| PyStr (s : string)
| PyFloat (x : R).

(** What [_setup_model] can raise: the [ValueError] of [float(...)], the
    [IndexError] of a subscript, or an exception of [exn]. *)
Inductive setup_exn : Type :=
| ValueError
| IndexError
| Exn (e : exn).

(** [c in s] for a string [c] of one character. *)
Fixpoint contains (c : ascii) (s : string) : bool :=
  match s with
  | EmptyString => false
  | String c' s' => Ascii.eqb c' c || contains c s'
  end.

(** [s.split(sep)] for a separator of one character: the pieces between
    the occurrences of [sep], empty ones included. *)
Fixpoint py_split (sep : ascii) (s : string) : list string :=
  match s with
  | EmptyString => [EmptyString]
  | String c s' =>
      if Ascii.eqb c sep then EmptyString :: py_split sep s'
      else match py_split sep s' with
           | [] => [String c EmptyString]
           | piece :: pieces => String c piece :: pieces
           end
  end.

(** [l[n]] *)
Definition py_index {A : Type} (l : list A) (n : nat) : setup_exn + A :=
  match nth_error l n with
  | Some x => inr x
  | None => inl IndexError
  end.

(** What [_setup_model] assigns: [self.target_entropy], the entropy
    coefficient ([log_ent_coef] with [ent_coef_optimizer], or
    [ent_coef_tensor]), [log_alpha] with [alpha_optimizer] under CQL, and
    [self.replay_buffer.ent_coef]. *)
Record SetupAttributes {C : Collaborators} : Type := {
  init_target_entropy : R;
  init_ent_coef_state : EntCoef;
  init_cql : option (R * ScalarOpt);
  init_replay_buffer_ent_coef : R
}.

Section Setup.

Context {C : Collaborators}.

(** [float(s)] of a string: the number it denotes, [None] where Python
    raises [ValueError]. *)
Variable py_float : string -> option R.

(** [th.optim.Adam([parameter], lr=lr)] *)
Variable adam : R -> ScalarOpt.

(** [float(v)] *)
Definition float (v : str_or_float) : setup_exn + R :=
  match v with
  | PyFloat x => inr x
  | PyStr s =>
      match py_float s with
      | Some x => inr x
      | None => inl ValueError
      end
  end.

(** Lines 165-171: [-np.prod(self.env.action_space.shape)] for "auto",
    [float(self.target_entropy)] otherwise. *)
Definition setup_target_entropy (target_entropy' : str_or_float) (action_shape : list Z)
  : setup_exn + R :=
  let is_auto_string :=
    match target_entropy' with
    | PyStr s => String.eqb s "auto"
    | PyFloat _ => false
    end in
  if is_auto_string then inr (- IZR (fold_right Z.mul 1%Z action_shape))
  else float target_entropy'.

(** Lines 178-181: the initial value of a learned coefficient. *)
Definition auto_init_value (ent_coef : string) : setup_exn + R :=
  if contains "_" ent_coef
  then match py_index (py_split "_" ent_coef) 1 with
       | inl e => inl e
       | inr piece =>
           match float (PyStr piece) with
           | inl e => inl e
           | inr init_value =>
               if Rlt_dec 0 init_value then inr init_value
               else inl (Exn AssertionError)
           end
       end
  else inr 1.

(** [isinstance(self.ent_coef, str) and self.ent_coef.startswith("auto")]:
    the string when the test holds. *)
Definition learned_ent_coef (ent_coef : str_or_float) : option string :=
  match ent_coef with
  | PyStr s => if prefix "auto" s then Some s else None
  | PyFloat _ => None
  end.

(** Lines 176-191.  [th.log] of a positive number is its logarithm. *)
Definition setup_ent_coef (ent_coef : str_or_float) : setup_exn + EntCoef :=
  match learned_ent_coef ent_coef with
  | Some s =>
      match auto_init_value s with
      | inl e => inl e
      | inr init_value =>
          inr (AutoEntCoef (ln (1 * init_value)) (adam (lr_schedule 1)))
      end
  | None =>
      match float ent_coef with
      | inl e => inl e
      | inr x => inr (FixedEntCoef x)
      end
  end.

(** Lines 194-196.  [th.log] of a non-positive number is [-inf] or [nan],
    which the reals do not have: the value of [log_alpha] stands for the
    one of the code when [initial_alpha] is positive. *)
Definition setup_cql (with_cql : bool) (initial_alpha : R) : option (R * ScalarOpt) :=
  if with_cql then Some (ln (1 * initial_alpha), adam (lr_schedule 1)) else None.

Definition _setup_model (target_entropy' ent_coef : str_or_float) (action_shape : list Z)
  (with_cql : bool) (initial_alpha : R) : setup_exn + SetupAttributes :=
  match setup_target_entropy target_entropy' action_shape with
  | inl e => inl e
  | inr te =>
      match setup_ent_coef ent_coef with
      | inl e => inl e
      | inr ec =>
          inr {| init_target_entropy := te;
                 init_ent_coef_state := ec;
                 init_cql := setup_cql with_cql initial_alpha;
                 init_replay_buffer_ent_coef := 0.0 |}
      end
  end.

(** [get_torch_variables]: the names of the state dictionaries and of the
    tensors to save. *)
Definition get_torch_variables (s : Trainer) : list string * list string :=
  let state_dicts := ["policy"; "actor.optimizer"; "critic.optimizer"]%string in
  let saved_tensors := ["log_ent_coef"]%string in
  let '(state_dicts, saved_tensors) :=
    match ent_coef_state s with
    | AutoEntCoef _ _ => (state_dicts ++ ["ent_coef_optimizer"%string], saved_tensors)
    | FixedEntCoef _ => (state_dicts, saved_tensors ++ ["ent_coef_tensor"%string])
    end in
  if use_cql s
  then (state_dicts ++ ["alpha_optimizer"%string], saved_tensors ++ ["log_alpha"%string])
  else (state_dicts, saved_tensors).

(** [excluded_save_params], for the list of the base class. *)
Definition excluded_save_params (base : list string) : list string :=
  base ++ ["actor"; "critic"; "critic_target"]%string.

End Setup.

(** ** A concrete world *)

(** Observations and actions are numbers, the actor proposes its
    observation as action with log-probability 0, each of the [n] critics
    returns [q], and the optimizers step by 1. *)
Definition toy_world (n : nat) (q : R) : Collaborators := {|
  Obs := R;
  Act := R;
  Noise := nat;
  ActorParams := R;
  CriticParams := R;
  ActorOpt := nat;
  CriticOpt := nat;
  ScalarOpt := nat;
  actor_sample := fun _ _ _ o => (o, 0);
  actor_log_prob := fun _ _ _ => -1;
  n_critics := n;
  q_network := fun _ _ _ _ => q;
  actor_optimizer_step := fun o _ p => (S o, p + 1);
  critic_optimizer_step := fun o _ p => (S o, p + 1);
  scalar_optimizer_step := fun o _ p => (S o, p + 1);
  actor_set_lr := fun _ o => o;
  critic_set_lr := fun _ o => o;
  scalar_set_lr := fun _ o => o;
  lr_schedule := fun _ => 1;
  polyak_update := fun p t c => c * p + (1 - c) * t;
  noise_stream := fun k => k;
  uniform_stream := fun _ _ => 0;
  replay_buffer_draw := fun _ _ _ _ =>
    [ {| observation := 0; action := 0; next_observation := 0; done := 0; reward := 1 |};
      {| observation := 0; action := 0; next_observation := 0; done := 1; reward := 0 |} ]
|}.

(** The batch every draw of the toy replay buffer returns. *)
Definition toy_batch : list (Transition R R) :=
  [ {| observation := 0; action := 0; next_observation := 0; done := 0; reward := 1 |};
    {| observation := 0; action := 0; next_observation := 0; done := 1; reward := 0 |} ].

(** A trainer of the toy world in auto entropy-coefficient mode, with CQL. *)
Definition toy_trainer (n : nat) (q : R) : @Trainer (toy_world n q) :=
  @Build_Trainer (toy_world n q)
    0 0%nat                      (* actor_params, actor_optimizer *)
    0 0%nat                      (* critic_params, critic_optimizer *)
    0                            (* critic_target_params *)
    (@AutoEntCoef (toy_world n q) 0 0%nat)
    (Some (0, 0%nat))            (* log_alpha, alpha_optimizer *)
    0 1 0%Z 0%nat [].

Definition toy_pretrain_logs : PretrainLogs :=
  {| pretrain_actor_losses := []; pretrain_critic_losses := [] |}.

Definition toy_hp : Hyperparameters := {|
  gamma := 0.99;
  tau := 0.005;
  target_update_interval := 2;
  target_entropy := -1;
  alpha_threshold := 10;
  n_action_samples := 2;
  use_sde := false
|}.

(** A world whose actor labels its samples: under noise [xi], row [b] gets
    the action [(xi, b)] with log-probability [10 * xi + b]. *)
Definition labelled_world : Collaborators := {|
  Obs := unit;
  Act := nat * nat;
  Noise := nat;
  ActorParams := unit;
  CriticParams := unit;
  ActorOpt := unit;
  CriticOpt := unit;
  ScalarOpt := unit;
  actor_sample := fun _ xi b _ => ((xi, b), IZR (Z.of_nat (10 * xi + b)));
  actor_log_prob := fun _ _ _ => 0;
  n_critics := 1;
  q_network := fun _ _ _ _ => 0;
  actor_optimizer_step := fun o _ p => (o, p);
  critic_optimizer_step := fun o _ p => (o, p);
  scalar_optimizer_step := fun o _ p => (o, p);
  actor_set_lr := fun _ o => o;
  critic_set_lr := fun _ o => o;
  scalar_set_lr := fun _ o => o;
  lr_schedule := fun _ => 1;
  polyak_update := fun p _ _ => p;
  noise_stream := fun k => k;
  uniform_stream := fun _ _ => (0%nat, 0%nat);
  replay_buffer_draw := fun _ _ _ _ => []
|}.

Definition labelled_trainer : @Trainer labelled_world :=
  @Build_Trainer labelled_world tt tt tt tt tt (@FixedEntCoef labelled_world 0)
    (Some (0, tt)) 0 1 0%Z 1%nat [].

Definition labelled_batch : @ReplayBufferSamples labelled_world :=
  [ {| observation := tt; action := (0%nat, 0%nat); next_observation := tt; done := 0; reward := 0 |};
    {| observation := tt; action := (0%nat, 0%nat); next_observation := tt; done := 0; reward := 0 |};
    {| observation := tt; action := (0%nat, 0%nat); next_observation := tt; done := 0; reward := 0 |} ].

(** The hyperparameters of the toy world with a synchronisation interval
    of 0. *)
Definition zero_interval_hp : Hyperparameters := {|
  gamma := 0.99;
  tau := 0.005;
  target_update_interval := 0;
  target_entropy := -1;
  alpha_threshold := 10;
  n_action_samples := 2;
  use_sde := false
|}.

(** A [float] that reads the strings "0.5" and "-1" only. *)
Definition toy_float (s : string) : option R :=
  if String.eqb s "0.5" then Some (/ 2)
  else if String.eqb s "-1" then Some (-1)
  else None.

(** The Adam optimizer of the toy world, whose state counts the steps. *)
Definition toy_adam (lr : R) : @ScalarOpt (toy_world 1 5) := 0%nat.

(** A world for the layout of the log-probabilities: one critic that
    returns 0, and an actor whose samples all have the observation as
    log-probability, so that the rows of a batch can be told apart. *)
Definition row_world : Collaborators := {|
  Obs := R;
  Act := R;
  Noise := nat;
  ActorParams := R;
  CriticParams := R;
  ActorOpt := nat;
  CriticOpt := nat;
  ScalarOpt := nat;
  actor_sample := fun _ _ _ o => (0, o);
  actor_log_prob := fun _ _ _ => 0;
  n_critics := 1;
  q_network := fun _ _ _ _ => 0;
  actor_optimizer_step := fun o _ p => (S o, p);
  critic_optimizer_step := fun o _ p => (S o, p);
  scalar_optimizer_step := fun o _ p => (S o, p);
  actor_set_lr := fun _ o => o;
  critic_set_lr := fun _ o => o;
  scalar_set_lr := fun _ o => o;
  lr_schedule := fun _ => 1;
  polyak_update := fun p _ _ => p;
  noise_stream := fun k => k;
  uniform_stream := fun _ _ => 0;
  replay_buffer_draw := fun _ _ _ _ => []
|}.

(** A batch of two rows, with log-probability -1 on the first and -2 on
    the second. *)
Definition row_batch : @ReplayBufferSamples row_world :=
  [ {| observation := -1; action := 0; next_observation := 0; done := 0; reward := 0 |};
    {| observation := -2; action := 0; next_observation := 0; done := 0; reward := 0 |} ].

(** A trainer of that world with CQL and [log_alpha = 0]. *)
Definition row_trainer : @Trainer row_world :=
  @Build_Trainer row_world 0 0%nat 0 0%nat 0 (@FixedEntCoef row_world 0)
    (Some (0, 0%nat)) 0 1 0%Z 0%nat [].

(** The two samples the actor draws on [row_batch]: actions and
    log-probabilities of each. *)
Definition row_draws : list (list R * list R) :=
  [([0; 0], [-1; -2]); ([0; 0], [-1; -2])].

(** What [conservative_samples] makes of them. *)
Definition row_samples : @CqlSamples row_world :=
  @Build_CqlSamples row_world ([0; 0; 0; 0] : list R) ([0; 0; 0; 0] : list R)
    [[-1; -2]; [-1; -2]].

(** ** Properties *)

Section Properties.

Context {C : Collaborators}.
Variable hp : Hyperparameters.

(** *** Vocabulary of the statements *)

(** A batch with its row indices. *)
Definition indexed {X : Type} (l : list X) : list (nat * X) :=
  combine (seq 0 (length l)) l.

(** The minimum over the ensemble on one row. *)
Definition min_q (phi : CriticParams) (o : Obs) (a : Act) : R :=
  row_min (map (fun j => q_network phi j o a) (seq 0 n_critics)).

(** The target of one row in the words of the specification:
    reward + (1 - done) * gamma * (min over the target critics of
    Q(next_observation, next_action) - ent_coef * next_log_prob). *)
Definition bootstrap_target (psi : CriticParams) (ent_coef : R)
  (tr : Transition Obs Act) (next : Act * R) : R :=
  reward tr
  + (1 - done tr) * gamma hp
    * (min_q psi (next_observation tr) (fst next) - ent_coef * snd next).

(** The targets of a batch, the next action of row [b] being the actor's
    sample for that row. *)
Definition bootstrap_targets (theta : ActorParams) (xi : Noise) (psi : CriticParams)
  (ent_coef : R) (replay_data : ReplayBufferSamples) : list R :=
  map (fun p => bootstrap_target psi ent_coef (snd p)
                  (actor_sample theta xi (fst p) (next_observation (snd p))))
      (indexed replay_data).

(** The log-sum-exp estimate of one row in the words of the specification. *)
Definition cql_logsumexp (base : R) (random_row policy_row log_prob_row : list R) : R :=
  ln (0.5 * tmean (map (fun v => exp (v - base)) random_row) / 0.5
      + 0.5 * tmean (zip_with (fun v l => exp (v - base - l)) policy_row log_prob_row)
      + 1e-10)
  + base.

(** The conservative loss in the words of the specification: the clipped
    coefficient times the mean over the batch of
    logsumexp - data_values - alpha_threshold. *)
Definition conservative_loss_spec (replay_data : ReplayBufferSamples) (smp : CqlSamples)
  (base : R) (phi : CriticParams) (log_alpha : R) : R :=
  clipped_alpha log_alpha
  * tmean (zip_with (fun lse d => lse - d - alpha_threshold hp)
             (zip_with (fun rv p => cql_logsumexp base rv (fst p) (snd p))
                (cql_random_values hp replay_data smp phi)
                (combine (cql_policy_values hp replay_data smp phi) (log_probs smp)))
             (first_critic phi (observations replay_data) (actions replay_data))).

(** [s'] differs from [s] at most in the position of the random streams. *)
Definition rng_only (s s' : Trainer) : Prop := s' = set_rng (rng s') s.

(** The gradient steps at which [polyak_update] was called, latest first. *)
Definition polyak_steps (evs : list Event) : list Z :=
  flat_map (fun e => match e with PolyakUpdate i => [i] | _ => [] end) evs.

(** The number of optimizer steps taken on [log_ent_coef]. *)
Definition ent_coef_steps (evs : list Event) : nat :=
  length (filter (fun e => match e with EntCoefOptimizerStep => true | _ => false end) evs).

(** What [train] needs to complete a step: a non-empty ensemble, a non-zero
    synchronisation interval and, with CQL, a single critic, at least one
    action sample and non-empty batches. *)
Definition train_ready (batch_size : nat) (s : Trainer) : Prop :=
  (1 <= n_critics)%nat
  /\ target_update_interval hp <> 0%Z
  /\ (use_cql s = true ->
      n_critics = 1%nat /\ (1 <= n_action_samples hp)%nat
      /\ forall theta c k, replay_buffer_draw theta c k batch_size <> []).

(** What a completed step of [train] has logged and left in the trainer,
    for the noise [xi] of the actor's sample at the observations, the noise
    [xi'] of its sample at the next observations and the critic parameters
    [phi'] that the critic optimizer produced. *)
Definition train_step_post (batch_size : nat) (logs : Logs) (i : Z) (s : Trainer)
  (xi xi' : Noise) (phi' : CriticParams) (q_backup : list R) (actor_loss : R)
  (logs' : Logs) (s' : Trainer) : Prop :=
  let rd := replay_buffer_draw (actor_params s) (replay_buffer_ent_coef s) (rng s)
              batch_size in
  let log_prob := snd (action_log_prob (actor_params s) xi (observations rd)) in
  let ent_coef := current_ent_coef (ent_coef_state s) in
  logs' = {| ent_coef_losses :=
               match ent_coef_state s with
               | AutoEntCoef l _ => ent_coef_losses logs ++ [ent_coef_loss_fwd hp log_prob l]
               | FixedEntCoef _ => ent_coef_losses logs
               end;
             ent_coefs := ent_coefs logs ++ [ent_coef];
             actor_losses := actor_losses logs ++ [actor_loss];
             critic_losses :=
               critic_losses logs ++ [critic_loss_fwd rd q_backup (critic_params s)] |}
  /\ train_q_backup hp (actor_params s) xi' (critic_target_params s) ent_coef rd
     = Ok q_backup
  /\ actor_loss_fwd xi phi' ent_coef (observations rd) (actor_params s) = Ok actor_loss
  /\ ent_coef_state s'
     = match ent_coef_state s with
       | AutoEntCoef l o =>
           let r := scalar_optimizer_step o (ent_coef_loss_fwd hp log_prob) l in
           AutoEntCoef (snd r) (fst r)
       | FixedEntCoef c => FixedEntCoef c
       end
  /\ use_cql s' = use_cql s
  /\ polyak_steps (events s')
     = ((if Z.eqb (Z.modulo i (target_update_interval hp)) 0 then [i] else [])
        ++ polyak_steps (events s))%list.

(** [gradient_step % self.target_update_interval == 0] *)
Definition sync_due (gradient_step : Z) : bool :=
  Z.eqb (Z.modulo gradient_step (target_update_interval hp)) 0.

(** [log_ent_coef] and the state of its optimizer are those of [s], and no
    optimizer step on [log_ent_coef] was added to the events. *)
Definition ent_frozen (s s' : Trainer) : Prop :=
  ent_coef_state s' = ent_coef_state s
  /\ ent_coef_steps (events s') = ent_coef_steps (events s).

Definition keeps_ent_coef {A : Type} (m : M A) : Prop :=
  forall s a s', m s = Ok (a, s') -> ent_frozen s s'.

(** Every entry of a tensor satisfies [P]. *)
Definition tensor_all (P : R -> Prop) (t : tensor) : Prop :=
  match t with
  | Scalar x => P x
  | Column xs => Forall P xs
  end.

(** The argument of the logarithm of line 257 on one row:
    [0.5 * random_meanexp + 0.5 * policy_meanexp + 1e-10]. *)
Definition cql_log_argument (base : R) (random_row policy_row log_prob_row : list R) : R :=
  0.5 * (tmean (map (fun v => exp (v - base)) random_row) / 0.5)
  + 0.5 * tmean (zip_with (fun v l => exp (v - base - l)) policy_row log_prob_row)
  + 1e-10.

(** [ent_coef_optimizer is not None] *)
Definition is_auto (e : EntCoef) : bool :=
  match e with
  | AutoEntCoef _ _ => true
  | FixedEntCoef _ => false
  end.

(** The calls one gradient step of [train] records, latest first, in auto
    mode or not and with CQL or not. *)
Definition step_events (auto with_cql : bool) (i : Z) : list Event :=
  ((if sync_due i then [PolyakUpdate i] else [])
   ++ (if with_cql then [AlphaOptimizerStep] else [])
   ++ [ActorOptimizerStep; CriticOptimizerStep]
   ++ (if auto then [EntCoefOptimizerStep] else []))%list.

(** What a completed step of [train] has done to the trainer besides what
    [train_step_post] tells. *)
Definition train_step_effects (i : Z) (s s' : Trainer) : Prop :=
  events s' = (step_events (is_auto (ent_coef_state s)) (use_cql s) i ++ events s)%list
  /\ critic_target_params s'
     = (if sync_due i
        then polyak_update (critic_params s') (critic_target_params s) (tau hp)
        else critic_target_params s)
  /\ n_updates s' = n_updates s
  /\ current_progress_remaining s' = current_progress_remaining s
  /\ replay_buffer_ent_coef s' = current_ent_coef (ent_coef_state s)
  /\ is_auto (ent_coef_state s') = is_auto (ent_coef_state s).

(** The number of recorded calls that satisfy [f]. *)
Definition count_events (f : Event -> bool) (evs : list Event) : nat :=
  length (filter f evs).

Definition is_critic_step (e : Event) : bool :=
  match e with CriticOptimizerStep => true | _ => false end.

Definition is_actor_step (e : Event) : bool :=
  match e with ActorOptimizerStep => true | _ => false end.

Definition is_alpha_step (e : Event) : bool :=
  match e with AlphaOptimizerStep => true | _ => false end.

Definition is_ent_coef_step (e : Event) : bool :=
  match e with EntCoefOptimizerStep => true | _ => false end.

(** The gradient steps at which [pretrain] copied the critic into the
    target, latest first. *)
Definition hard_copy_steps (evs : list Event) : list Z :=
  flat_map (fun e => match e with HardCopy i => [i] | _ => [] end) evs.

(** A computation that, when it completes, has moved at most the random
    streams. *)
Definition only_rng {A : Type} (m : M A) : Prop :=
  forall s a s', m s = Ok (a, s') -> rng_only s s'.

(** [gradient_step % target_update_interval == 0] for the interval passed
    to [pretrain]. *)
Definition copy_due (target_update_interval' gradient_step : Z) : bool :=
  Z.eqb (Z.modulo gradient_step target_update_interval') 0.

(** What a completed regression iteration of [pretrain] has done. *)
Definition pretrain_update_post (target_update_interval' : Z) (logs : PretrainLogs)
  (i : Z) (s : Trainer) (logs' : PretrainLogs) (s' : Trainer) : Prop :=
  target_update_interval' <> 0%Z
  /\ events s'
     = ((if copy_due target_update_interval' i then [HardCopy i] else [])
        ++ [ActorOptimizerStep; CriticOptimizerStep] ++ events s)%list
  /\ critic_target_params s'
     = (if copy_due target_update_interval' i then critic_params s'
        else critic_target_params s)
  /\ cql s' = cql s
  /\ n_updates s' = n_updates s
  /\ ent_coef_state s' = ent_coef_state s
  /\ replay_buffer_ent_coef s' = current_ent_coef (ent_coef_state s)
  /\ length (pretrain_actor_losses logs') = S (length (pretrain_actor_losses logs))
  /\ length (pretrain_critic_losses logs') = S (length (pretrain_critic_losses logs)).

(** The attribute that holds the optimizer a recorded call steps. *)
Definition optimizer_name (e : Event) : option string :=
  match e with
  | EntCoefOptimizerStep => Some "ent_coef_optimizer"%string
  | CriticOptimizerStep => Some "critic.optimizer"%string
  | ActorOptimizerStep => Some "actor.optimizer"%string
  | AlphaOptimizerStep => Some "alpha_optimizer"%string
  | PolyakUpdate _ => None
  | HardCopy _ => None
  end.

(** The smaller of the values of two critics on one row. *)
Definition min_q_pair (phi : CriticParams) (o : Obs) (a : Act) : R :=
  Rmin (q_network phi 0 o a) (q_network phi 1 o a).

(** [qf_pi] with two critics on row [p] of the batch, for the sample the
    actor draws under the noise [xi]. *)
Definition crr_policy_q (theta : ActorParams) (phi : CriticParams) (xi : Noise)
  (p : nat * Transition Obs Act) : R :=
  min_q_pair phi (observation (snd p))
    (fst (actor_sample theta xi (fst p) (observation (snd p)))).

(** Lines 475-479 on one row: [qf_agg] after one more sample. *)
Definition crr_aggregate_step (reduce : string) (n_samples : nat) (agg q : R) : R :=
  if String.eqb reduce "max" then Rmax q agg else agg + q / INR n_samples.

(** Lines 470-479 on one row: [qf_agg] after the samples [qs], the first
    one first. *)
Definition crr_aggregate_row (reduce : string) (n_samples : nat) (qs : list R) : R :=
  match qs with
  | [] => 0
  | q :: qs' =>
      fold_left (crr_aggregate_step reduce n_samples) qs'
        (if String.eqb reduce "max" then q else q / INR n_samples)
  end.

(** What a completed step of [train] has done with the critic: the loss it
    logged, and the function [graph] of the critic parameters on which the
    critic optimizer stepped. *)
Definition train_step_critic_post (batch_size : nat) (logs : Logs) (s : Trainer)
  (q_backup : list R) (graph : CriticParams -> R) (logs' : Logs) (s' : Trainer) : Prop :=
  let rd := replay_buffer_draw (actor_params s) (replay_buffer_ent_coef s) (rng s)
              batch_size in
  (exists xi', train_q_backup hp (actor_params s) xi' (critic_target_params s)
                 (current_ent_coef (ent_coef_state s)) rd = Ok q_backup)
  /\ critic_losses logs'
     = (critic_losses logs ++ [critic_loss_fwd rd q_backup (critic_params s)])%list
  /\ critic_params s'
     = snd (critic_optimizer_step (critic_optimizer s) graph (critic_params s))
  /\ match cql s with
     | None => graph = critic_loss_fwd rd q_backup
     | Some (log_alpha, _) =>
         exists smp base,
           cql_base hp rd smp (critic_params s) = Ok base
           /\ graph = (fun phi => critic_loss_fwd rd q_backup phi
                                  + conservative_loss_fwd hp rd smp base phi log_alpha)
     end.

(** The smallest entry of a column, the value of [th.min] of one tensor. *)
Definition column_min (t : list R) : R :=
  match t with
  | [] => 0
  | x :: xs => fold_left Rmin xs x
  end.

(** [qf_buffer] with one critic: the smallest value of the critic over the
    whole batch, at the actions of the batch. *)
Definition batch_min_q (phi : CriticParams) (replay_data : ReplayBufferSamples) : R :=
  column_min (zip_with (q_network phi 0) (observations replay_data) (actions replay_data)).

(** [qf_pi] with one critic: the smallest value of the critic over the
    whole batch, at the actions the actor draws under the noise [xi]. *)
Definition batch_min_policy_q (theta : ActorParams) (phi : CriticParams) (xi : Noise)
  (replay_data : ReplayBufferSamples) : R :=
  column_min (zip_with (q_network phi 0) (observations replay_data)
                (fst (action_log_prob theta xi (observations replay_data)))).

(** The noises of [n] successive
    [reset_noise(); action_log_prob(...)] from the trainer [s]. *)
Definition sample_noises (s : Trainer) (n : nat) : list Noise :=
  map noise_stream (seq (if use_sde hp then S (rng s) else rng s) n).

(** The log-probabilities of the samples laid out as the policy actions
    are: entry [b, j] is the log-probability of sample [j] at row [b], the
    action whose value is at [b, j] of [policy_values]. *)
Definition aligned_log_probs (B : nat) (n_log_probs : list (list R)) : list (list R) :=
  transpose B n_log_probs.

(** The samples [smp] with other log-probabilities. *)
Definition with_log_probs (lps : list (list R)) (smp : CqlSamples) : CqlSamples :=
  {| flat_policy_acts := flat_policy_acts smp;
     random_actions := random_actions smp;
     log_probs := lps |}.

(** *** Lists *)

Lemma combine_map_same {X Y Z : Type} (f : X -> Y) (g : X -> Z) (l : list X) :
  combine (map f l) (map g l) = map (fun x => (f x, g x)) l.
Proof.
  induction l as [|x l IH]; simpl; [reflexivity | now rewrite IH].
Qed.

Lemma zip_with_map_same {X Y Z W : Type} (f : Y -> Z -> W) (g : X -> Y) (h : X -> Z)
  (l : list X) :
  zip_with f (map g l) (map h l) = map (fun x => f (g x) (h x)) l.
Proof.
  unfold zip_with. rewrite combine_map_same, map_map. reflexivity.
Qed.

Lemma map_snd_combine_seq {X : Type} (l : list X) (k : nat) :
  map snd (combine (seq k (length l)) l) = l.
Proof.
  revert k; induction l as [|x l IH]; intros k; simpl; [reflexivity | now rewrite IH].
Qed.

Lemma map_via_indexed {X Y : Type} (f : X -> Y) (l : list X) :
  map f l = map (fun p => f (snd p)) (indexed l).
Proof.
  unfold indexed. rewrite <- (map_map snd f), map_snd_combine_seq. reflexivity.
Qed.

Lemma combine_seq_map {X Y : Type} (f : X -> Y) (l : list X) (k : nat) :
  combine (seq k (length (map f l))) (map f l)
  = map (fun p => (fst p, f (snd p))) (combine (seq k (length l)) l).
Proof.
  revert k; induction l as [|x l IH]; intros k; simpl; [reflexivity | now rewrite IH].
Qed.

Lemma indexed_map {X Y : Type} (f : X -> Y) (l : list X) :
  indexed (map f l) = map (fun p => (fst p, f (snd p))) (indexed l).
Proof. apply combine_seq_map. Qed.

Lemma indexed_length {X : Type} (l : list X) : length (indexed l) = length l.
Proof. unfold indexed. rewrite length_combine, length_seq. apply Nat.min_id. Qed.

Lemma transpose_columns {X Y J : Type} (f : J -> X -> Y) (js : list J) (l : list X) :
  transpose (length l) (map (fun j => map (f j) l) js)
  = map (fun x => map (fun j => f j x) js) l.
Proof.
  induction l as [|x l IH]; simpl; [reflexivity|].
  f_equal.
  - clear IH. induction js as [|j js IHj]; [reflexivity|].
    cbn [map flat_map firstn app]. f_equal. exact IHj.
  - rewrite map_map. cbn [skipn]. exact IH.
Qed.

Lemma cat_dim1_columns {X : Type} (f : nat -> X -> R) (js : list nat) (l : list X) :
  js <> [] ->
  cat_dim1 (map (fun j => map (f j) l) js) = Ok (map (fun x => map (fun j => f j x) js) l).
Proof.
  intros Hjs. destruct js as [|j js]; [congruence|].
  unfold cat_dim1. cbn [map].
  replace (forallb _ _) with true.
  - rewrite length_map.
    change (map (f j) l :: map (fun j0 => map (f j0) l) js)
      with (map (fun j0 => map (f j0) l) (j :: js)).
    rewrite transpose_columns. reflexivity.
  - symmetry. apply forallb_forall. intros c Hc.
    change (map (f j) l :: map (fun j0 => map (f j0) l) js)
      with (map (fun j0 => map (f j0) l) (j :: js)) in Hc.
    apply in_map_iff in Hc. destruct Hc as [j' [<- _]].
    rewrite !length_map. apply Nat.eqb_refl.
Qed.

Lemma min_over_critics_rows {X : Type} (phi : CriticParams) (fo : X -> Obs) (fa : X -> Act)
  (l : list X) :
  (1 <= n_critics)%nat ->
  min_over_critics phi (map fo l) (map fa l)
  = Ok (map (fun x => min_q phi (fo x) (fa x)) l).
Proof.
  intros Hn. unfold min_over_critics, critic_forward.
  assert (Heq : map (fun j => zip_with (q_network phi j) (map fo l) (map fa l)) (seq 0 n_critics)
                = map (fun j => map (fun x => q_network phi j (fo x) (fa x)) l) (seq 0 n_critics)).
  { apply map_ext. intros j. apply zip_with_map_same. }
  rewrite Heq, cat_dim1_columns.
  - simpl. unfold min_dim1. rewrite map_map. reflexivity.
  - destruct n_critics; [lia | discriminate].
Qed.

Lemma nth_error_combine_seq {X : Type} (l : list X) (b k : nat) (x : X) :
  nth_error l b = Some x ->
  nth_error (combine (seq k (length l)) l) b = Some ((k + b)%nat, x).
Proof.
  revert b k. induction l as [|y l IH]; intros [|b] k Hb; simpl in *; try discriminate.
  - injection Hb as ->. now rewrite Nat.add_0_r.
  - rewrite (IH b (S k) Hb). do 2 f_equal. lia.
Qed.

Lemma nth_error_indexed {X : Type} (l : list X) (b : nat) (x : X) :
  nth_error l b = Some x -> nth_error (indexed l) b = Some (b, x).
Proof. intros Hb. unfold indexed. now rewrite (nth_error_combine_seq l b 0 x Hb). Qed.

Lemma action_log_prob_rows {X : Type} (theta : ActorParams) (xi : Noise) (fo : X -> Obs)
  (l : list X) :
  action_log_prob theta xi (map fo l)
  = (map (fun p => fst (actor_sample theta xi (fst p) (fo (snd p)))) (indexed l),
     map (fun p => snd (actor_sample theta xi (fst p) (fo (snd p)))) (indexed l)).
Proof.
  unfold action_log_prob. fold (indexed (map fo l)).
  rewrite indexed_map, !map_map. reflexivity.
Qed.

(** *** The conservative coefficient *)

Lemma exp_le_mono (x y : R) : x <= y -> exp x <= exp y.
Proof.
  intros [Hlt | ->]; [left; now apply exp_increasing | right; reflexivity].
Qed.

Lemma exp_Rmax (a b : R) : exp (Rmax a b) = Rmax (exp a) (exp b).
Proof.
  destruct (Rle_dec a b) as [Hab | Hab].
  - rewrite (Rmax_right a b Hab), Rmax_right; auto using exp_le_mono.
  - assert (Hba : b <= a) by lra.
    rewrite (Rmax_left a b Hba), Rmax_left; auto using exp_le_mono.
Qed.

Lemma exp_Rmin (a b : R) : exp (Rmin a b) = Rmin (exp a) (exp b).
Proof.
  destruct (Rle_dec a b) as [Hab | Hab].
  - rewrite (Rmin_left a b Hab), Rmin_left; auto using exp_le_mono.
  - assert (Hba : b <= a) by lra.
    rewrite (Rmin_right a b Hba), Rmin_right; auto using exp_le_mono.
Qed.

Lemma clamp_range (lo hi x : R) : lo <= hi -> lo <= clamp lo hi x <= hi.
Proof.
  intros Hlh. unfold clamp, Rmin, Rmax.
  destruct (Rle_dec x lo); destruct (Rle_dec _ hi); lra.
Qed.

(** C4: whatever [log_alpha] is (for instance -1000 or 1000), the
    coefficient [log_alpha.clamp(-10, 2).exp()] that multiplies the
    conservative loss lies in [exp(-10), exp(2)], so it is strictly positive,
    and it is the same number as [exp(log_alpha)] clamped to
    [exp(-10), exp(2)]. *)
Theorem clipped_alpha_range (log_alpha : R) :
  (exp (-10) <= clipped_alpha log_alpha <= exp 2)
  /\ 0 < clipped_alpha log_alpha
  /\ clipped_alpha log_alpha = clamp (exp (-10)) (exp 2) (exp log_alpha)
  /\ clipped_alpha (-1000) = exp (-10)
  /\ clipped_alpha 1000 = exp 2.
Proof.
  unfold clipped_alpha. repeat split.
  - apply exp_le_mono. apply clamp_range. lra.
  - apply exp_le_mono. apply clamp_range. lra.
  - apply exp_pos.
  - unfold clamp. now rewrite exp_Rmin, exp_Rmax.
  - f_equal. unfold clamp. rewrite Rmax_right by lra. rewrite Rmin_left by lra. reflexivity.
  - f_equal. unfold clamp. rewrite Rmax_left by lra. rewrite Rmin_right by lra. reflexivity.
Qed.

(** *** The bootstrap target *)

Lemma train_q_backup_rows (theta : ActorParams) (xi : Noise) (psi : CriticParams)
  (ent_coef : R) (replay_data : ReplayBufferSamples) :
  (1 <= n_critics)%nat ->
  train_q_backup hp theta xi psi ent_coef replay_data
  = Ok (bootstrap_targets theta xi psi ent_coef replay_data).
Proof.
  intros Hn. unfold train_q_backup, next_observations, rewards, dones.
  rewrite action_log_prob_rows. cbn [fst snd].
  rewrite (map_via_indexed next_observation replay_data).
  rewrite (min_over_critics_rows psi (fun p => next_observation (snd p))
             (fun p => fst (actor_sample theta xi (fst p) (next_observation (snd p))))
             (indexed replay_data) Hn).
  cbn [rbind Ok].
  rewrite (map_via_indexed reward replay_data), (map_via_indexed done replay_data).
  rewrite !map_map. rewrite !zip_with_map_same.
  reflexivity.
Qed.

(** C2: with a non-empty target ensemble, the target that [train] computes,
    and the one [pretrain] computes, is on every row
    reward + (1 - done) * gamma * (min over the target critics of
    Q(next_observation, next_action) - ent_coef * next_log_prob); a row with
    done = 1 gets its reward, whatever gamma and the target critics are. *)
Theorem q_backup_is_bootstrap_target (theta : ActorParams) (xi : Noise)
  (psi : CriticParams) (ent_coef : R) (replay_data : ReplayBufferSamples) :
  (1 <= n_critics)%nat ->
  train_q_backup hp theta xi psi ent_coef replay_data
  = Ok (bootstrap_targets theta xi psi ent_coef replay_data)
  /\ pretrain_q_backup hp theta xi psi ent_coef replay_data
     = Ok (bootstrap_targets theta xi psi ent_coef replay_data)
  /\ length (bootstrap_targets theta xi psi ent_coef replay_data) = length replay_data
  /\ forall (b : nat) (tr : Transition Obs Act),
       nth_error replay_data b = Some tr ->
       done tr = 1 ->
       nth_error (bootstrap_targets theta xi psi ent_coef replay_data) b
       = Some (reward tr).
Proof.
  intros Hn. split; [| split; [| split]].
  - now apply train_q_backup_rows.
  - change (pretrain_q_backup hp theta xi psi ent_coef replay_data)
      with (train_q_backup hp theta xi psi ent_coef replay_data).
    now apply train_q_backup_rows.
  - unfold bootstrap_targets. now rewrite length_map, indexed_length.
  - intros b tr Hb Hdone. unfold bootstrap_targets.
    rewrite nth_error_map, (nth_error_indexed _ _ _ Hb). cbn [option_map fst snd].
    f_equal. unfold bootstrap_target. rewrite Hdone. ring.
Qed.

(** *** The critic loss *)

Lemma fold_left_Rplus_const {X : Type} (c : R) (l : list X) (a : R) :
  fold_left Rplus (map (fun _ => c) l) a = a + INR (length l) * c.
Proof.
  revert a. induction l as [|x l IH]; intros a.
  - simpl. lra.
  - cbn [map fold_left]. rewrite IH.
    change (length (x :: l)) with (S (length l)). rewrite S_INR. lra.
Qed.

Lemma row_min_const {X : Type} (c : R) (l : list X) :
  l <> [] -> row_min (map (fun _ => c) l) = c.
Proof.
  destruct l as [|x l]; [congruence|]. intros _. cbn [map row_min].
  induction l as [|y l IH]; [reflexivity|].
  cbn [map fold_left]. rewrite Rmin_left by lra. exact IH.
Qed.

(** The critic loss of a batch on which every critic outputs [current_q]. *)
Lemma critic_loss_same_outputs (replay_data : ReplayBufferSamples) (q_backup current_q : list R)
  (phi : CriticParams) :
  (forall j, zip_with (q_network phi j) (observations replay_data) (actions replay_data)
             = current_q) ->
  critic_loss_fwd replay_data q_backup phi
  = 0.5 * (INR n_critics * mse_loss current_q q_backup).
Proof.
  intros Hq. unfold critic_loss_fwd, critic_forward, py_sum.
  rewrite map_map.
  rewrite (map_ext _ (fun _ => mse_loss current_q q_backup)) by (intros j; now rewrite Hq).
  rewrite fold_left_Rplus_const, length_seq. lra.
Qed.

(** C6, as the code has it: on a batch of two transitions with rewards
    [1, 0] and dones [0, 1], gamma = 0.99, every critic and target critic
    constantly 5 and entropy coefficient 0, the targets are [5.95, 0] and
    the critic loss is 0.5 * n_critics * mse([5, 5], [5.95, 0]) with
    mse([5, 5], [5.95, 0]) = 12.95125; it is that mean squared error itself
    when the ensemble has two critics. *)
Theorem constant_critic_scenario (theta : ActorParams) (xi : Noise)
  (psi phi : CriticParams) (replay_data : ReplayBufferSamples) :
  (forall p j o a, q_network p j o a = 5) ->
  (1 <= n_critics)%nat ->
  gamma hp = 0.99 ->
  rewards replay_data = [1; 0] ->
  dones replay_data = [0; 1] ->
  train_q_backup hp theta xi psi 0 replay_data = Ok [5.95; 0]
  /\ critic_loss_fwd replay_data [5.95; 0] phi
     = 0.5 * (INR n_critics * mse_loss [5; 5] [5.95; 0])
  /\ mse_loss [5; 5] [5.95; 0] = 12.95125
  /\ (n_critics = 2%nat <->
      critic_loss_fwd replay_data [5.95; 0] phi = mse_loss [5; 5] [5.95; 0]).
Proof.
  intros Hq Hn Hgamma Hr Hd.
  destruct replay_data as [|t1 [|t2 [|t3 rest]]]; try discriminate.
  unfold rewards in Hr. unfold dones in Hd. cbn [map] in Hr, Hd.
  injection Hr as Hr1 Hr2. injection Hd as Hd1 Hd2.
  assert (Hmin : forall o a, min_q psi o a = 5).
  { intros o a. unfold min_q.
    rewrite (map_ext _ (fun _ => 5)) by (intros j; apply Hq).
    apply row_min_const. destruct n_critics; [lia | discriminate]. }
  assert (Hloss : critic_loss_fwd [t1; t2] [5.95; 0] phi
                  = 0.5 * (INR n_critics * mse_loss [5; 5] [5.95; 0])).
  { apply critic_loss_same_outputs. intros j.
    unfold zip_with, observations, actions. cbn [map combine fst snd].
    now rewrite !Hq. }
  assert (Hmse : mse_loss [5; 5] [5.95; 0] = 12.95125).
  { unfold mse_loss, tmean, tsum, zip_with. cbn [combine map fold_right length fst snd INR].
    lra. }
  split; [| split; [exact Hloss | split; [exact Hmse | split]]].
  - rewrite train_q_backup_rows by exact Hn.
    unfold bootstrap_targets, indexed, bootstrap_target. cbn [length seq combine map fst snd].
    rewrite !Hmin, Hgamma, Hr1, Hr2, Hd1, Hd2.
    unfold Ok. do 2 f_equal; [lra | f_equal; lra].
  - intros H2. rewrite Hloss, H2. cbn [INR]. lra.
  - intros Heq. rewrite Hloss, Hmse in Heq.
    apply INR_eq. cbn [INR]. lra.
Qed.

(** *** The conservative loss *)

Lemma tsum_scale (a : R) (l : list R) : tsum (map (Rmult a) l) = a * tsum l.
Proof.
  unfold tsum. induction l as [|x l IH]; simpl; [lra | rewrite IH; lra].
Qed.

Lemma tmean_scale (a : R) (l : list R) : tmean (map (Rmult a) l) = a * tmean l.
Proof.
  unfold tmean. rewrite tsum_scale, length_map. unfold Rdiv. ring.
Qed.

Lemma zip_with_map_both {X X' Y Y' Z : Type} (f : X' -> Y' -> Z) (g : X -> X') (h : Y -> Y')
  (l1 : list X) (l2 : list Y) :
  zip_with f (map g l1) (map h l2) = zip_with (fun a b => f (g a) (h b)) l1 l2.
Proof.
  unfold zip_with. revert l2.
  induction l1 as [|x l1 IH]; intros [|y l2]; simpl; try reflexivity.
  now rewrite IH.
Qed.

Lemma map_zip_with {X Y Z W : Type} (k : Z -> W) (f : X -> Y -> Z)
  (l1 : list X) (l2 : list Y) :
  map k (zip_with f l1 l2) = zip_with (fun a b => k (f a b)) l1 l2.
Proof. unfold zip_with. now rewrite map_map. Qed.

Lemma zip_with_as_map {X Y Z : Type} (f : X -> Y -> Z) (l1 : list X) (l2 : list Y) :
  zip_with f l1 l2 = map (fun p => f (fst p) (snd p)) (combine l1 l2).
Proof. reflexivity. Qed.

Lemma zip_with_ext {X Y Z : Type} (f g : X -> Y -> Z) (l1 : list X) (l2 : list Y) :
  (forall a b, f a b = g a b) -> zip_with f l1 l2 = zip_with g l1 l2.
Proof. intros H. unfold zip_with. apply map_ext. intros [a b]. apply H. Qed.

Lemma cql_logsumexp_coefficients (base : R) (random_row policy_row log_prob_row : list R) :
  cql_logsumexp base random_row policy_row log_prob_row
  = ln (1 * tmean (map (fun v => exp (v - base)) random_row)
        + 0.5 * tmean (zip_with (fun v l => exp (v - base - l)) policy_row log_prob_row)
        + 1e-10)
    + base.
Proof. unfold cql_logsumexp. do 2 f_equal. lra. Qed.

Lemma conservative_loss_fwd_spec (replay_data : ReplayBufferSamples) (smp : CqlSamples)
  (base : R) (phi : CriticParams) (log_alpha : R) :
  conservative_loss_fwd hp replay_data smp base phi log_alpha
  = conservative_loss_spec replay_data smp base phi log_alpha.
Proof.
  unfold conservative_loss_fwd, conservative_loss_spec. cbn [sum_dim0 fold_left].
  rewrite tmean_scale. do 3 f_equal.
  rewrite (zip_with_as_map _ (cql_policy_values hp replay_data smp phi) (log_probs smp)).
  rewrite zip_with_map_both, map_zip_with.
  apply zip_with_ext. intros rv [pv lp]. unfold cql_logsumexp. cbn [fst snd].
  do 2 f_equal. unfold zip_with. lra.
Qed.

(** *** Running the trainer monad *)

Lemma rng_only_refl (s : Trainer) : rng_only s s.
Proof. unfold rng_only. destruct s; reflexivity. Qed.

Lemma rng_only_set (k : nat) (s : Trainer) : rng_only s (set_rng k s).
Proof. reflexivity. Qed.

Lemma rng_only_trans (s1 s2 s3 : Trainer) :
  rng_only s1 s2 -> rng_only s2 s3 -> rng_only s1 s3.
Proof. unfold rng_only. intros H12 H23. rewrite H23 at 1. rewrite H12. reflexivity. Qed.

Lemma bind_ok {A B : Type} (m : M A) (k : A -> M B) (s s' : Trainer) (a : A) :
  m s = Ok (a, s') -> bind m k s = k a s'.
Proof. intros H. unfold bind. now rewrite H. Qed.

Lemma bind_inv {A B : Type} (m : M A) (k : A -> M B) (s s'' : Trainer) (b : B) :
  bind m k s = Ok (b, s'') ->
  exists a s', m s = Ok (a, s') /\ k a s' = Ok (b, s'').
Proof.
  unfold bind. destruct (m s) as [e | [a s']]; [discriminate|].
  intros H. now exists a, s'.
Qed.

Lemma bind_gets {A B : Type} (f : Trainer -> A) (k : A -> M B) (s : Trainer) :
  bind (gets f) k s = k (f s) s.
Proof. reflexivity. Qed.

Lemma bind_modify {B : Type} (f : Trainer -> Trainer) (k : unit -> M B) (s : Trainer) :
  bind (modify f) k s = k tt (f s).
Proof. reflexivity. Qed.

Lemma bind_emit {B : Type} (e : Event) (k : unit -> M B) (s : Trainer) :
  bind (emit e) k s = k tt (set_events (e :: events s) s).
Proof. reflexivity. Qed.

Lemma bind_ret {A B : Type} (a : A) (k : A -> M B) (s : Trainer) :
  bind (ret a) k s = k a s.
Proof. reflexivity. Qed.

Lemma bind_lift_ok {A B : Type} (r : result A) (a : A) (k : A -> M B) (s : Trainer) :
  r = Ok a -> bind (lift r) k s = k a s.
Proof. intros ->. reflexivity. Qed.

Lemma bind_assoc {A B D : Type} (m : M A) (f : A -> M B) (g : B -> M D) (s : Trainer) :
  bind (bind m f) g s = bind m (fun a => bind (f a) g) s.
Proof. unfold bind. destruct (m s) as [e | [a s']]; reflexivity. Qed.

Ltac run_with H := rewrite (bind_ok _ _ _ _ _ H); cbv beta.

(** Projections of updated trainer states. *)
Ltac fields :=
  unfold use_cql;
  cbn [actor_params actor_optimizer critic_params critic_optimizer critic_target_params
       ent_coef_state cql replay_buffer_ent_coef current_progress_remaining n_updates
       rng events
       set_actor set_critic set_critic_target set_ent_coef_state set_cql
       set_replay_buffer_ent_coef set_n_updates set_rng set_events fst snd].

Ltac run_simple :=
  repeat (first [ rewrite bind_gets | rewrite bind_modify | rewrite bind_emit
                | rewrite bind_ret | rewrite bind_assoc ]; cbv beta; fields).

Ltac frame_subst F s' :=
  unfold rng_only in F;
  let k := fresh "k" in
  set (k := rng s') in F; clearbody k; subst s'.

Lemma reset_noise_run (s : Trainer) :
  exists s', reset_noise hp s = Ok (tt, s') /\ rng_only s s'.
Proof.
  unfold reset_noise. destruct (use_sde hp).
  - eexists. split; [reflexivity | apply rng_only_set].
  - eexists. split; [reflexivity | apply rng_only_refl].
Qed.

Lemma call_noise_run (s : Trainer) :
  exists xi s', call_noise hp s = Ok (xi, s') /\ rng_only s s'.
Proof.
  unfold call_noise. destruct (use_sde hp).
  - do 2 eexists. split; [reflexivity | apply rng_only_refl].
  - do 2 eexists. split; [reflexivity | apply rng_only_set].
Qed.

Lemma action_log_prob_length (theta : ActorParams) (xi : Noise) (obs : list Obs) :
  length (fst (action_log_prob theta xi obs)) = length obs
  /\ length (snd (action_log_prob theta xi obs)) = length obs.
Proof.
  unfold action_log_prob. cbn [fst snd].
  rewrite !length_map, length_combine, length_seq, Nat.min_id. auto.
Qed.

Lemma sample_policy_actions_run (n : nat) (obs : list Obs) (s : Trainer) :
  exists draws s',
    sample_policy_actions hp n obs s = Ok (draws, s')
    /\ rng_only s s'
    /\ length draws = n
    /\ Forall (fun d => length (fst d) = length obs /\ length (snd d) = length obs) draws.
Proof.
  revert s. induction n as [|n IH]; intros s.
  - exists [], s. repeat split; auto using rng_only_refl.
  - cbn [sample_policy_actions].
    destruct (reset_noise_run s) as (s1 & H1 & F1).
    run_with H1. rewrite bind_gets.
    destruct (call_noise_run s1) as (xi & s2 & H2 & F2).
    run_with H2.
    destruct (IH s2) as (draws & s3 & H3 & F3 & Hlen & Hall).
    run_with H3.
    eexists _, s3. split; [reflexivity|]. repeat split.
    + eauto using rng_only_trans.
    + simpl. now rewrite Hlen.
    + constructor; [apply action_log_prob_length | exact Hall].
Qed.

Lemma fold_left_Rmax_spec (xs : list R) (x : R) :
  In (fold_left Rmax xs x) (x :: xs)
  /\ forall y, In y (x :: xs) -> y <= fold_left Rmax xs x.
Proof.
  revert x. induction xs as [|z xs IH]; intros x.
  - simpl. split; [auto | intros y [<- | []]; lra].
  - cbn [fold_left]. destruct (IH (Rmax x z)) as [Hin Hub]. split.
    + destruct Hin as [Heq | Hin]; [| right; right; exact Hin].
      rewrite <- Heq. unfold Rmax. destruct (Rle_dec x z); simpl; auto.
    + intros y [<- | [<- | Hy]].
      * eapply Rle_trans; [apply Rmax_l | apply Hub; left; reflexivity].
      * eapply Rle_trans; [apply Rmax_r | apply Hub; left; reflexivity].
      * apply Hub. right. exact Hy.
Qed.

Lemma tmax_spec (l : list R) :
  l <> [] ->
  exists m, tmax l = Ok m /\ In m l /\ forall y, In y l -> y <= m.
Proof.
  destruct l as [|x xs]; [congruence|]. intros _.
  exists (fold_left Rmax xs x). split; [reflexivity | apply fold_left_Rmax_spec].
Qed.

Lemma length_concat_transpose {X : Type} (B : nat) (cols : list (list X)) :
  Forall (fun c => length c = B) cols ->
  length (concat (transpose B cols)) = (B * length cols)%nat.
Proof.
  revert cols. induction B as [|B IH]; intros cols Hall; [reflexivity|].
  cbn [transpose concat]. rewrite length_app, IH.
  - assert (Hh : length (flat_map (firstn 1) cols) = length cols).
    { induction Hall as [|c cols Hc _ IHc]; [reflexivity|].
      cbn [flat_map]. rewrite length_app, IHc.
      destruct c; [discriminate | reflexivity]. }
    rewrite Hh, length_map. lia.
  - apply Forall_map. eapply Forall_impl; [| exact Hall].
    intros c Hc. cbn beta. rewrite length_skipn, Hc. lia.
Qed.

Lemma concat_view_rows {X : Type} (B n : nat) (flat : list X) :
  length flat = (B * n)%nat -> concat (view_rows B n flat) = flat.
Proof.
  revert flat. induction B as [|B IH]; intros flat Hlen.
  - destruct flat; [reflexivity | discriminate].
  - cbn [view_rows concat]. rewrite IH.
    + apply firstn_skipn.
    + rewrite length_skipn, Hlen. lia.
Qed.

Lemma length_view_rows {X : Type} (B n : nat) (flat : list X) :
  length (view_rows B n flat) = B.
Proof.
  revert flat. induction B as [|B IH]; intros flat; [reflexivity|].
  cbn [view_rows length]. now rewrite IH.
Qed.

Lemma length_flat_obs_t (replay_data : ReplayBufferSamples) :
  length (flat_obs_t hp replay_data)
  = (length (observations replay_data) * n_action_samples hp)%nat.
Proof.
  unfold flat_obs_t. induction (observations replay_data) as [|o l IH]; [reflexivity|].
  cbn [flat_map]. rewrite length_app, repeat_length, IH. reflexivity.
Qed.

Lemma length_concat_same {X : Type} (B : nat) (ls : list (list X)) :
  Forall (fun c => length c = B) ls ->
  length (concat ls) = (length ls * B)%nat.
Proof.
  induction 1 as [|c ls Hc _ IH]; [reflexivity|].
  cbn [concat length]. rewrite length_app, IH, Hc. lia.
Qed.

Lemma first_critic_single (phi : CriticParams) (obs : list Obs) (acts : list Act) :
  n_critics = 1%nat ->
  first_critic phi obs acts = zip_with (q_network phi 0) obs acts.
Proof. intros Hn. unfold first_critic, critic_forward. rewrite Hn. reflexivity. Qed.

Lemma length_zip_with {X Y Z : Type} (f : X -> Y -> Z) (l1 : list X) (l2 : list Y) :
  length (zip_with f l1 l2) = Nat.min (length l1) (length l2).
Proof. unfold zip_with. now rewrite length_map, length_combine. Qed.

Lemma conservative_samples_run (replay_data : ReplayBufferSamples) (s : Trainer) :
  n_critics = 1%nat ->
  (1 <= n_action_samples hp)%nat ->
  exists smp s',
    conservative_samples hp replay_data s = Ok (smp, s')
    /\ rng_only s s'
    /\ length (flat_policy_acts smp) = (length replay_data * n_action_samples hp)%nat
    /\ length (random_actions smp) = (length replay_data * n_action_samples hp)%nat
    /\ length (log_probs smp) = length replay_data.
Proof.
  intros Hn Hsamples. unfold conservative_samples.
  rewrite Hn. cbn [Nat.eqb]. rewrite (bind_lift_ok _ tt) by reflexivity.
  destruct (sample_policy_actions_run (n_action_samples hp) (observations replay_data) s)
    as (draws & s1 & Hrun & Hframe & Hlen & Hall).
  run_with Hrun.
  assert (HB : length (observations replay_data) = length replay_data)
    by (unfold observations; apply length_map).
  assert (Hfst : Forall (fun c => length c = length replay_data) (map fst draws)).
  { apply Forall_map. eapply Forall_impl; [| exact Hall]. cbn beta. intros d [H _]. lia. }
  assert (Hsnd : Forall (fun c => length c = length replay_data) (map snd draws)).
  { apply Forall_map. eapply Forall_impl; [| exact Hall]. cbn beta. intros d [_ H]. lia. }
  assert (Hcat : cat_policy_actions (length (observations replay_data)) (map fst draws)
                 = Ok (transpose (length replay_data) (map fst draws))).
  { rewrite HB. destruct draws; [simpl in Hlen; lia | reflexivity]. }
  rewrite (bind_lift_ok _ _ _ _ Hcat).
  assert (Hcat0 : cat_dim0 (map snd draws) = Ok (concat (map snd draws))).
  { destruct draws; [simpl in Hlen; lia | reflexivity]. }
  rewrite (bind_lift_ok _ _ _ _ Hcat0).
  assert (Hview : view (length (observations replay_data)) (n_action_samples hp)
                    (concat (map snd draws))
                  = Ok (view_rows (length replay_data) (n_action_samples hp)
                          (concat (map snd draws)))).
  { unfold view. rewrite HB, (length_concat_same _ _ Hsnd), length_map, Hlen.
    rewrite (Nat.mul_comm (n_action_samples hp)), Nat.eqb_refl. reflexivity. }
  rewrite (bind_lift_ok _ _ _ _ Hview).
  run_simple.
  eexists _, _. split; [reflexivity|]. cbn [flat_policy_acts random_actions log_probs].
  repeat split.
  - eapply rng_only_trans; [exact Hframe | apply rng_only_set].
  - rewrite (length_concat_transpose _ _ Hfst), length_map, Hlen. reflexivity.
  - rewrite length_map, length_seq.
    rewrite (length_concat_transpose _ _ Hfst), length_map, Hlen. reflexivity.
  - apply length_view_rows.
Qed.

Lemma cql_values_flat (replay_data : ReplayBufferSamples) (acts : list Act)
  (phi : CriticParams) :
  n_critics = 1%nat ->
  length acts = (length replay_data * n_action_samples hp)%nat ->
  concat (view_rows (length (observations replay_data)) (n_action_samples hp)
            (first_critic phi (flat_obs_t hp replay_data) acts))
  = zip_with (q_network phi 0) (flat_obs_t hp replay_data) acts
  /\ length (zip_with (q_network phi 0) (flat_obs_t hp replay_data) acts)
     = (length replay_data * n_action_samples hp)%nat.
Proof.
  intros Hn Hlen.
  assert (HB : length (observations replay_data) = length replay_data)
    by (unfold observations; apply length_map).
  assert (Hz : length (zip_with (q_network phi 0) (flat_obs_t hp replay_data) acts)
               = (length replay_data * n_action_samples hp)%nat).
  { rewrite length_zip_with, length_flat_obs_t, HB, Hlen. apply Nat.min_id. }
  split; [| exact Hz].
  rewrite first_critic_single by exact Hn.
  apply concat_view_rows. now rewrite HB.
Qed.

Lemma compute_conservative_loss_run (replay_data : ReplayBufferSamples) (s : Trainer)
  (log_alpha : R) (alpha_optimizer : ScalarOpt) :
  n_critics = 1%nat ->
  (1 <= n_action_samples hp)%nat ->
  replay_data <> [] ->
  cql s = Some (log_alpha, alpha_optimizer) ->
  exists smp base s',
    conservative_samples hp replay_data s = Ok (smp, s')
    /\ rng_only s s'
    /\ cql_base hp replay_data smp (critic_params s) = Ok base
    /\ (let values := (concat (cql_policy_values hp replay_data smp (critic_params s))
                       ++ concat (cql_random_values hp replay_data smp (critic_params s)))%list in
        In base values /\ forall v, In v values -> v <= base)
    /\ _compute_conservative_loss hp replay_data s
       = Ok ({| item := conservative_loss_fwd hp replay_data smp base (critic_params s) log_alpha;
                graph := conservative_loss_fwd hp replay_data smp base |}, s').
Proof.
  intros Hn Hsamples Hbatch Hcql.
  destruct (conservative_samples_run replay_data s Hn Hsamples)
    as (smp & s1 & Hrun & Hframe & Hpol & Hrand & _).
  assert (Hpos : (0 < length replay_data * n_action_samples hp)%nat).
  { destruct replay_data; [congruence | simpl; lia]. }
  destruct (cql_values_flat replay_data (flat_policy_acts smp) (critic_params s) Hn Hpol)
    as [Hpv Hpvlen].
  destruct (cql_values_flat replay_data (random_actions smp) (critic_params s) Hn Hrand)
    as [Hrv Hrvlen].
  destruct (tmax_spec (concat (cql_policy_values hp replay_data smp (critic_params s))))
    as (pm & Hpm & Hpin & Hpub).
  { unfold cql_policy_values. rewrite Hpv. intros Hnil. rewrite Hnil in Hpvlen.
    simpl in Hpvlen. lia. }
  destruct (tmax_spec (concat (cql_random_values hp replay_data smp (critic_params s))))
    as (rm & Hrm & Hrin & Hrub).
  { unfold cql_random_values. rewrite Hrv. intros Hnil. rewrite Hnil in Hrvlen.
    simpl in Hrvlen. lia. }
  assert (Hbase : cql_base hp replay_data smp (critic_params s) = Ok (Rmax pm rm)).
  { unfold cql_base. rewrite Hpm, Hrm. reflexivity. }
  assert (Hparams : critic_params s1 = critic_params s) by (rewrite Hframe; reflexivity).
  assert (Hcql1 : cql s1 = cql s) by (rewrite Hframe; reflexivity).
  exists smp, (Rmax pm rm), s1.
  split; [exact Hrun | split; [exact Hframe | split; [exact Hbase | split]]].
  - cbv zeta. split.
    + apply in_or_app. unfold Rmax. destruct (Rle_dec pm rm); auto.
    + intros v Hv. apply in_app_or in Hv. destruct Hv as [Hv | Hv].
      * eapply Rle_trans; [apply Hpub, Hv | apply Rmax_l].
      * eapply Rle_trans; [apply Hrub, Hv | apply Rmax_r].
  - unfold _compute_conservative_loss. run_with Hrun. rewrite bind_gets, Hparams.
    rewrite (bind_lift_ok _ _ _ _ Hbase).
    unfold bind, get_log_alpha. rewrite Hcql1, Hcql. reflexivity.
Qed.

(** With one critic, a non-empty batch and at least one action sample,
    the conservative-loss estimator returns
    clipped_alpha * mean over the batch of
    (logsumexp - data_values - alpha_threshold), where
    logsumexp = log(0.5 * mean(exp(random_values - base)) / 0.5
                    + 0.5 * mean(exp(policy_values - base - log_prob)) + 1e-10) + base,
    [log_prob] is the tensor [conservative_samples] builds, whatever its
    layout is, and [base] is the largest of all policy and random values; in
    that mixture the random mean enters with coefficient 1 and the policy
    mean with coefficient 0.5. *)
Theorem conservative_loss_formula (replay_data : ReplayBufferSamples) (s : Trainer)
  (log_alpha : R) (alpha_optimizer : ScalarOpt) :
  n_critics = 1%nat ->
  (1 <= n_action_samples hp)%nat ->
  replay_data <> [] ->
  cql s = Some (log_alpha, alpha_optimizer) ->
  exists smp base loss s',
    conservative_samples hp replay_data s = Ok (smp, s')
    /\ cql_base hp replay_data smp (critic_params s) = Ok base
    /\ (let values := (concat (cql_policy_values hp replay_data smp (critic_params s))
                       ++ concat (cql_random_values hp replay_data smp (critic_params s)))%list in
        In base values /\ forall v, In v values -> v <= base)
    /\ _compute_conservative_loss hp replay_data s = Ok (loss, s')
    /\ item loss = conservative_loss_spec replay_data smp base (critic_params s) log_alpha
    /\ forall random_row policy_row log_prob_row,
         cql_logsumexp base random_row policy_row log_prob_row
         = ln (1 * tmean (map (fun v => exp (v - base)) random_row)
               + 0.5 * tmean (zip_with (fun v l => exp (v - base - l)) policy_row log_prob_row)
               + 1e-10)
           + base.
Proof.
  intros Hn Hsamples Hbatch Hcql.
  destruct (compute_conservative_loss_run replay_data s log_alpha alpha_optimizer
              Hn Hsamples Hbatch Hcql)
    as (smp & base & s' & Hrun & _ & Hbase & Hmax & Hloss).
  eexists smp, base, _, s'.
  split; [exact Hrun | split; [exact Hbase | split; [exact Hmax | split; [exact Hloss|]]]].
  split.
  - cbn [item]. apply conservative_loss_fwd_spec.
  - intros. apply cql_logsumexp_coefficients.
Qed.

Lemma conservative_samples_no_samples (replay_data : ReplayBufferSamples) (s : Trainer) :
  n_critics = 1%nat ->
  n_action_samples hp = 0%nat ->
  conservative_samples hp replay_data s = Raise RuntimeError.
Proof.
  intros Hn Hzero. unfold conservative_samples. rewrite Hn, Hzero. reflexivity.
Qed.

(** C3: with an ensemble of any size other than one (two, say) the
    conservative-loss computation raises the assertion error, from every
    trainer state and on every batch, so no loss value is produced; with
    exactly one critic it never raises that error. *)
Theorem conservative_loss_single_critic_assertion (replay_data : ReplayBufferSamples)
  (s : Trainer) :
  (n_critics <> 1%nat ->
   _compute_conservative_loss hp replay_data s = Raise AssertionError)
  /\ (n_critics = 2%nat ->
      _compute_conservative_loss hp replay_data s = Raise AssertionError)
  /\ (n_critics = 1%nat ->
      _compute_conservative_loss hp replay_data s <> Raise AssertionError).
Proof.
  assert (Hfail : n_critics <> 1%nat ->
                  _compute_conservative_loss hp replay_data s = Raise AssertionError).
  { intros Hn. unfold _compute_conservative_loss, conservative_samples.
    apply Nat.eqb_neq in Hn. rewrite Hn. reflexivity. }
  split; [exact Hfail | split].
  - intros H2. apply Hfail. lia.
  - intros Hn. unfold _compute_conservative_loss.
    destruct (n_action_samples hp) as [|k] eqn:Hk.
    + unfold bind at 1.
      rewrite (conservative_samples_no_samples replay_data s Hn Hk). discriminate.
    + destruct (conservative_samples_run replay_data s Hn) as (smp & s1 & Hrun & _).
      { rewrite Hk. lia. }
      run_with Hrun. rewrite bind_gets.
      unfold bind, lift, cql_base, tmax, get_log_alpha, rbind.
      destruct (concat (cql_policy_values hp replay_data smp (critic_params s1)));
        [discriminate|].
      destruct (concat (cql_random_values hp replay_data smp (critic_params s1)));
        [discriminate|].
      cbn. destruct (cql s1); discriminate.
Qed.

(** *** One gradient step of [train] *)

Ltac run_reset :=
  match goal with
  | |- context [bind (reset_noise ?h) ?k ?s] =>
      let s' := fresh "s" in let H := fresh "H" in let F := fresh "F" in
      destruct (reset_noise_run s) as (s' & H & F);
      rewrite (bind_ok _ _ _ _ _ H); cbv beta; clear H; frame_subst F s'; fields
  end.

Ltac run_noise xi :=
  match goal with
  | |- context [bind (call_noise ?h) ?k ?s] =>
      let s' := fresh "s" in let H := fresh "H" in let F := fresh "F" in
      destruct (call_noise_run s) as (xi & s' & H & F);
      rewrite (bind_ok _ _ _ _ _ H); cbv beta; clear H; frame_subst F s'; fields
  end.

Lemma optimize_ent_coef_run (e : EntCoef) (log_prob : list R) (s : Trainer) :
  optimize_ent_coef hp e log_prob s
  = Ok (tt, match e with
            | AutoEntCoef l o =>
                let r := scalar_optimizer_step o (ent_coef_loss_fwd hp log_prob) l in
                set_events (EntCoefOptimizerStep :: events s)
                  (set_ent_coef_state (AutoEntCoef (snd r) (fst r)) s)
            | FixedEntCoef _ => s
            end).
Proof. destruct e; reflexivity. Qed.

Lemma bind_get_log_alpha {B : Type} (k : R -> M B) (s : Trainer) (la : R) (o : ScalarOpt) :
  cql s = Some (la, o) -> bind get_log_alpha k s = k la s.
Proof. intros H. unfold bind, get_log_alpha. now rewrite H. Qed.

Lemma update_alpha_run (replay_data : ReplayBufferSamples) (s : Trainer)
  (log_alpha : R) (alpha_optimizer : ScalarOpt) :
  n_critics = 1%nat ->
  (1 <= n_action_samples hp)%nat ->
  replay_data <> [] ->
  cql s = Some (log_alpha, alpha_optimizer) ->
  exists k a,
    update_alpha hp replay_data s
    = Ok (tt, set_events (AlphaOptimizerStep :: events s) (set_cql (Some a) (set_rng k s))).
Proof.
  intros Hn Hs Hb Hc.
  destruct (compute_conservative_loss_run replay_data s log_alpha alpha_optimizer
              Hn Hs Hb Hc) as (smp & base & s' & _ & F & _ & _ & Hrun).
  unfold update_alpha. run_with Hrun. frame_subst F s'. run_simple.
  rewrite Hc. run_simple. eexists _, _. reflexivity.
Qed.

Lemma actor_loss_fwd_ok (xi : Noise) (phi : CriticParams) (ent_coef : R) (obs : list Obs)
  (theta : ActorParams) :
  (1 <= n_critics)%nat ->
  exists a, actor_loss_fwd xi phi ent_coef obs theta = Ok a.
Proof.
  intros Hn.
  assert (H : forall (X : Type) (fo : X -> Obs) (l : list X),
             exists a, actor_loss_fwd xi phi ent_coef (map fo l) theta = Ok a).
  { intros X fo l. unfold actor_loss_fwd.
    rewrite action_log_prob_rows. cbn [fst snd].
    rewrite (map_via_indexed fo l).
    rewrite (min_over_critics_rows _ _ _ _ Hn). eexists. reflexivity. }
  destruct (H Obs (fun x => x) obs) as [a Ha]. rewrite map_id in Ha. eauto.
Qed.

Lemma mod_is_zero_ok (a b : Z) :
  b <> 0%Z -> mod_is_zero a b = Ok (Z.eqb (Z.modulo a b) 0).
Proof. intros Hb. unfold mod_is_zero. apply Z.eqb_neq in Hb. now rewrite Hb. Qed.

Ltac run_conservative la aopt H1 Hns Hdraw Hc :=
  match goal with
  | |- context [bind (_compute_conservative_loss ?h ?rd) _ ?S] =>
      let smp := fresh "smp" in let base := fresh "base" in
      let s' := fresh "s" in let F := fresh "F" in let Hrun := fresh "Hrun" in
      destruct (compute_conservative_loss_run rd S la aopt H1 Hns (Hdraw _ _ _) Hc)
        as (smp & base & s' & _ & F & _ & _ & Hrun);
      rewrite (bind_ok _ _ _ _ _ Hrun); cbv beta; clear Hrun; frame_subst F s'; fields
  end.

Ltac run_update_alpha la aopt H1 Hns Hdraw Hc :=
  match goal with
  | |- context [bind (update_alpha ?h ?rd) _ ?S] =>
      let k := fresh "k" in let a := fresh "a" in let Hrun := fresh "Hrun" in
      destruct (update_alpha_run rd S la aopt H1 Hns (Hdraw _ _ _) Hc) as (k & a & Hrun);
      rewrite (bind_ok _ _ _ _ _ Hrun); cbv beta; clear Hrun; fields
  end.

Ltac run_actor_loss Hn :=
  match goal with
  | |- context [bind (lift (actor_loss_fwd ?xi ?phi ?ec ?obs ?theta)) _ _] =>
      let al := fresh "actor_loss" in let Hal := fresh "Hal" in
      destruct (actor_loss_fwd_ok xi phi ec obs theta Hn) as [al Hal];
      rewrite (bind_lift_ok _ _ _ _ Hal); cbv beta
  end.

(** A step of [train] from a ready trainer completes, and every property of
    results that satisfy [train_step_post] holds of what it returns. *)
Lemma train_step_wp (batch_size : nat) (logs : Logs) (i : Z) (s : Trainer)
  (P : result (Logs * Trainer) -> Prop) :
  train_ready batch_size s ->
  (forall xi xi' phi' q_backup actor_loss logs' s',
      train_step_post batch_size logs i s xi xi' phi' q_backup actor_loss logs' s' ->
      P (Ok (logs', s'))) ->
  P (train_step hp batch_size logs i s).
Proof.
  intros (Hn & Htui & Hcql) HP. unfold train_step.
  rewrite bind_ok
    with (a := replay_buffer_draw (actor_params s) (replay_buffer_ent_coef s) (rng s)
                 batch_size)
         (s' := set_rng (S (rng s)) s) by reflexivity.
  cbv beta.
  run_reset. run_simple. run_noise xi. run_simple.
  rewrite (bind_ok _ _ _ _ _ (optimize_ent_coef_run _ _ _)). cbv beta.
  run_noise xi'.
  unfold use_cql in Hcql.
  destruct (ent_coef_state s) as [l o | c] eqn:He;
    destruct (cql s) as [[la aopt]|] eqn:Hc;
    run_simple;
    rewrite (bind_lift_ok _ _ _ _ (train_q_backup_rows _ _ _ _ _ Hn));
    run_simple; rewrite Hc; cbv iota; run_simple.
  1, 3:
    destruct Hcql as (H1 & Hns & Hdraw); [reflexivity|];
    run_conservative la aopt H1 Hns Hdraw Hc; run_simple;
    match goal with
    | |- context [bind get_log_alpha _ ?S] => rewrite (bind_get_log_alpha _ S la aopt Hc)
    end;
    run_simple; run_actor_loss Hn; run_simple;
    run_update_alpha la aopt H1 Hns Hdraw Hc.
  all:
    try (run_actor_loss Hn; run_simple);
    rewrite (bind_lift_ok _ _ _ _ (mod_is_zero_ok _ _ Htui));
    destruct (Z.eqb (i mod target_update_interval hp) 0) eqn:Hsync; run_simple;
    (eapply HP; unfold train_step_post; cbv zeta; fields; rewrite ?He, ?Hc, ?Hsync;
     repeat split; try reflexivity;
     [apply (train_q_backup_rows _ _ _ _ _ Hn) | eassumption]).
Qed.

(** *** The entropy coefficient in [train] *)

Lemma ent_coef_loss_fwd_linear (log_prob : list R) (x : R) :
  ent_coef_loss_fwd hp log_prob x
  = x * - tmean (map (fun lp => lp + target_entropy hp) log_prob).
Proof. unfold ent_coef_loss_fwd. rewrite tmean_scale. ring. Qed.

Lemma ent_coef_loss_fwd_derivative (log_prob : list R) (x : R) :
  derivable_pt_lim (ent_coef_loss_fwd hp log_prob) x
    (- tmean (map (fun lp => lp + target_entropy hp) log_prob)).
Proof.
  intros eps Heps. exists (mkposreal 1 Rlt_0_1). intros h Hh _.
  rewrite !ent_coef_loss_fwd_linear.
  replace ((_ - _) / h - _) with 0 by (field; exact Hh).
  rewrite Rabs_R0. exact Heps.
Qed.

(** C5: in auto mode a gradient step of [train] from a ready trainer
    completes; the coefficient it logs and uses in the bootstrap target,
    hence in the critic loss, and in the actor loss is exp(log_ent_coef) for
    the value of [log_ent_coef] before the step, while the trainer holds
    afterwards the value the coefficient optimizer produced from it; the
    coefficient loss is -mean(log_ent_coef * (log_prob + target_entropy)), a
    function of [log_ent_coef] whose derivative is
    -mean(log_prob + target_entropy), the second factor being a constant. *)
Theorem train_step_ent_coef_lag (batch_size : nat) (logs : Logs) (i : Z) (s : Trainer)
  (log_ent_coef : R) (ent_coef_optimizer : ScalarOpt) :
  train_ready batch_size s ->
  ent_coef_state s = AutoEntCoef log_ent_coef ent_coef_optimizer ->
  exists xi xi' phi' q_backup actor_loss logs' s',
    let rd := replay_buffer_draw (actor_params s) (replay_buffer_ent_coef s) (rng s)
                batch_size in
    let log_prob := snd (action_log_prob (actor_params s) xi (observations rd)) in
    let updated := scalar_optimizer_step ent_coef_optimizer
                     (ent_coef_loss_fwd hp log_prob) log_ent_coef in
    train_step hp batch_size logs i s = Ok (logs', s')
    /\ ent_coefs logs' = ent_coefs logs ++ [exp log_ent_coef]
    /\ ent_coef_losses logs'
       = ent_coef_losses logs
         ++ [- tmean (map (fun lp => log_ent_coef * (lp + target_entropy hp)) log_prob)]
    /\ train_q_backup hp (actor_params s) xi' (critic_target_params s)
         (exp log_ent_coef) rd = Ok q_backup
    /\ critic_losses logs'
       = critic_losses logs ++ [critic_loss_fwd rd q_backup (critic_params s)]
    /\ actor_loss_fwd xi phi' (exp log_ent_coef) (observations rd) (actor_params s)
       = Ok actor_loss
    /\ actor_losses logs' = actor_losses logs ++ [actor_loss]
    /\ ent_coef_state s' = AutoEntCoef (snd updated) (fst updated)
    /\ (forall x, ent_coef_loss_fwd hp log_prob x
                  = - tmean (map (fun lp => x * (lp + target_entropy hp)) log_prob))
    /\ (forall x, derivable_pt_lim (ent_coef_loss_fwd hp log_prob) x
                    (- tmean (map (fun lp => lp + target_entropy hp) log_prob))).
Proof.
  intros Hready He. apply train_step_wp; [exact Hready|].
  intros xi xi' phi' q_backup actor_loss logs' s' Hpost.
  unfold train_step_post in Hpost. cbv zeta in Hpost. rewrite He in Hpost.
  cbn [current_ent_coef] in Hpost.
  destruct Hpost as (-> & Hq & Ha & Hs & _ & _).
  exists xi, xi', phi', q_backup, actor_loss. eexists _, s'. cbv zeta.
  cbn [ent_coefs ent_coef_losses critic_losses actor_losses].
  assert (Hloss : forall x,
            ent_coef_loss_fwd hp
              (snd (action_log_prob (actor_params s) xi
                      (observations
                         (replay_buffer_draw (actor_params s) (replay_buffer_ent_coef s)
                            (rng s) batch_size)))) x
            = - tmean (map (fun lp => x * (lp + target_entropy hp))
                         (snd (action_log_prob (actor_params s) xi
                                 (observations
                                    (replay_buffer_draw (actor_params s)
                                       (replay_buffer_ent_coef s) (rng s) batch_size)))))).
  { intros x. unfold ent_coef_loss_fwd. now rewrite map_map. }
  repeat split; try reflexivity; try assumption.
  - now rewrite Hloss.
  - intros x. apply ent_coef_loss_fwd_derivative.
Qed.

(** *** Target synchronisation in [train] *)

Lemma train_ready_same_cql (batch_size : nat) (s s' : Trainer) :
  use_cql s' = use_cql s -> train_ready batch_size s -> train_ready batch_size s'.
Proof. unfold train_ready. intros ->. auto. Qed.

Lemma for_each_train_step_run (batch_size : nat) (steps : list Z) (logs : Logs)
  (s : Trainer) :
  train_ready batch_size s ->
  exists logs' s',
    for_each steps (train_step hp batch_size) logs s = Ok (logs', s')
    /\ use_cql s' = use_cql s
    /\ polyak_steps (events s') = (rev (filter sync_due steps) ++ polyak_steps (events s))%list.
Proof.
  revert logs s. induction steps as [|i steps IH]; intros logs s Hready.
  - exists logs, s. repeat split.
  - cbn [for_each]. unfold bind at 1.
    apply (train_step_wp batch_size logs i s); [exact Hready|].
    intros xi xi' phi' q_backup actor_loss logs1 s1 Hpost.
    destruct Hpost as (_ & _ & _ & _ & Hcql & Hpolyak). cbv iota beta.
    destruct (IH logs1 s1) as (logs' & s' & Hrun & Hcql' & Hpolyak').
    { eapply train_ready_same_cql; eauto. }
    exists logs', s'. split; [exact Hrun | split; [congruence|]].
    rewrite Hpolyak', Hpolyak. cbn [filter]. fold (sync_due i).
    destruct (sync_due i); cbn [rev]; now rewrite <- ?app_assoc.
Qed.

Lemma update_learning_rate_run (with_alpha : bool) (s : Trainer) :
  exists s',
    update_learning_rate with_alpha s = Ok (tt, s')
    /\ use_cql s' = use_cql s
    /\ events s' = events s.
Proof.
  eexists. split; [reflexivity|].
  destruct s as [th ao ph co ps e [[la o]|] rb pr nu rg ev];
    destruct e; destruct with_alpha; split; reflexivity.
Qed.

Lemma in_range (i n : Z) : In i (range n) <-> (0 <= i < n)%Z.
Proof.
  unfold range. rewrite in_map_iff. split.
  - intros (k & <- & Hk). apply in_seq in Hk. lia.
  - intros Hi. exists (Z.to_nat i). rewrite in_seq. split; lia.
Qed.

(** C7: a call to [train] with [G] gradient steps from a ready trainer
    completes, and the steps at which it calls [polyak_update] are, in order,
    those of 0, ..., G - 1 whose index modulo [target_update_interval] is 0,
    that is the indices the interval divides; with an interval of 2 and 5
    steps these are 0, 2 and 4, three calls. *)
Theorem train_polyak_schedule (gradient_steps : Z) (batch_size : nat) (s : Trainer) :
  train_ready batch_size s ->
  exists logs s' synced,
    train hp gradient_steps batch_size s = Ok (logs, s')
    /\ polyak_steps (events s') = (rev synced ++ polyak_steps (events s))%list
    /\ synced = filter sync_due (range gradient_steps)
    /\ (forall i, In i synced
                  <-> (0 <= i < gradient_steps)%Z /\ (target_update_interval hp | i)%Z)
    /\ (target_update_interval hp = 2%Z -> gradient_steps = 5%Z ->
        synced = [0; 2; 4]%Z /\ length synced = 3%nat).
Proof.
  intros Hready. unfold train.
  destruct (update_learning_rate_run true s) as (s1 & Hlr & Hcql1 & Hev1).
  destruct (for_each_train_step_run batch_size (range gradient_steps) empty_logs s1)
    as (logs & s2 & Hrun & Hcql2 & Hpolyak).
  { eapply train_ready_same_cql; eauto. }
  run_with Hlr. run_with Hrun. run_simple.
  eexists logs, _, (filter sync_due (range gradient_steps)).
  split; [reflexivity|]. fields. rewrite Hpolyak, Hev1.
  split; [reflexivity | split; [reflexivity | split]].
  - intros i. rewrite filter_In, in_range. unfold sync_due.
    rewrite Z.eqb_eq, Z.mod_divide by apply Hready. reflexivity.
  - intros Htui ->. unfold sync_due. rewrite Htui. split; reflexivity.
Qed.

(** *** [pretrain]: the regression weight *)

Lemma pretrain_q_backup_rows (theta : ActorParams) (xi : Noise) (psi : CriticParams)
  (ent_coef : R) (replay_data : ReplayBufferSamples) :
  (1 <= n_critics)%nat ->
  pretrain_q_backup hp theta xi psi ent_coef replay_data
  = Ok (bootstrap_targets theta xi psi ent_coef replay_data).
Proof. apply train_q_backup_rows. Qed.

Lemma crr_weight_bc (n_samples : nat) (reduce : string) (exp_temperature : R)
  (replay_data : ReplayBufferSamples) (s : Trainer) :
  crr_weight hp n_samples "bc" reduce exp_temperature replay_data s = Ok (Scalar 1, s).
Proof. reflexivity. Qed.

Lemma pretrain_actor_loss_scalar (replay_data : ReplayBufferSamples) (w : R)
  (theta : ActorParams) :
  pretrain_actor_loss_fwd replay_data (Scalar w) theta
  = tmean (map (fun lp => - lp * w)
             (evaluate_actions theta (observations replay_data) (actions replay_data))).
Proof.
  unfold pretrain_actor_loss_fwd. cbn [tensor_map2 tensor_mean]. now rewrite map_map.
Qed.

Lemma pretrain_update_bc_run (batch_size n_samples : nat) (target_update_interval' : Z)
  (reduce : string) (exp_temperature : R) (logs : PretrainLogs) (i : Z) (s : Trainer) :
  (1 <= n_critics)%nat ->
  target_update_interval' <> 0%Z ->
  exists logs' s',
    pretrain_update hp batch_size n_samples target_update_interval' "bc" reduce
      exp_temperature logs i s = Ok (logs', s')
    /\ pretrain_actor_losses logs'
       = pretrain_actor_losses logs
         ++ [tmean (map (fun lp => - lp * 1)
                      (evaluate_actions (actor_params s)
                         (observations
                            (replay_buffer_draw (actor_params s) (replay_buffer_ent_coef s)
                               (rng s) batch_size))
                         (actions
                            (replay_buffer_draw (actor_params s) (replay_buffer_ent_coef s)
                               (rng s) batch_size))))].
Proof.
  intros Hn Htui.
  assert (Hwp : forall P : result (PretrainLogs * Trainer) -> Prop,
            (forall logs' s',
                pretrain_actor_losses logs'
                = pretrain_actor_losses logs
                  ++ [tmean (map (fun lp => - lp * 1)
                               (evaluate_actions (actor_params s)
                                  (observations
                                     (replay_buffer_draw (actor_params s)
                                        (replay_buffer_ent_coef s) (rng s) batch_size))
                                  (actions
                                     (replay_buffer_draw (actor_params s)
                                        (replay_buffer_ent_coef s) (rng s) batch_size))))] ->
                P (Ok (logs', s'))) ->
            P (pretrain_update hp batch_size n_samples target_update_interval' "bc" reduce
                 exp_temperature logs i s)).
  { intros P HP. unfold pretrain_update.
    rewrite bind_ok
      with (a := replay_buffer_draw (actor_params s) (replay_buffer_ent_coef s) (rng s)
                   batch_size)
           (s' := set_rng (S (rng s)) s) by reflexivity.
    cbv beta.
    run_reset. run_simple. run_noise xi. run_simple. run_noise xi'. run_simple.
    rewrite (bind_lift_ok _ _ _ _ (pretrain_q_backup_rows _ _ _ _ _ Hn)).
    run_simple.
    rewrite (bind_ok _ _ _ _ _ (crr_weight_bc _ _ _ _ _)). cbv beta. run_simple.
    rewrite (bind_lift_ok _ _ _ _ (mod_is_zero_ok _ _ Htui)).
    destruct (Z.eqb (i mod target_update_interval') 0); run_simple;
      apply HP; cbn [pretrain_actor_losses]; now rewrite pretrain_actor_loss_scalar. }
  apply Hwp. intros logs' s' Hlogs. now exists logs', s'.
Qed.

(** C8: under the "bc" strategy the regression weight is 1 whatever the
    batch, the critics, the number of samples and the reduction are, and it is
    obtained without evaluating a critic or sampling the actor (the trainer
    state is untouched); the actor loss is then the mean over the batch of
    -log_prob(batch action) * 1, and when the ensemble is non-empty and the
    copy interval non-zero a "bc" iteration of [pretrain] completes and logs
    that value. *)
Theorem pretrain_bc_weight (batch_size n_samples : nat) (target_update_interval' : Z)
  (reduce : string) (exp_temperature : R) (logs : PretrainLogs) (i : Z) (s : Trainer) :
  (forall replay_data s0,
      crr_weight hp n_samples "bc" reduce exp_temperature replay_data s0
      = Ok (Scalar 1, s0))
  /\ (forall replay_data theta,
        pretrain_actor_loss_fwd replay_data (Scalar 1) theta
        = tmean (map (fun lp => - lp * 1)
                   (evaluate_actions theta (observations replay_data)
                      (actions replay_data))))
  /\ ((1 <= n_critics)%nat ->
      target_update_interval' <> 0%Z ->
      let rd := replay_buffer_draw (actor_params s) (replay_buffer_ent_coef s) (rng s)
                  batch_size in
      exists logs' s',
        pretrain_update hp batch_size n_samples target_update_interval' "bc" reduce
          exp_temperature logs i s = Ok (logs', s')
        /\ pretrain_actor_losses logs'
           = pretrain_actor_losses logs
             ++ [tmean (map (fun lp => - lp * 1)
                          (evaluate_actions (actor_params s) (observations rd)
                             (actions rd)))]).
Proof.
  split; [intros; apply crr_weight_bc | split; [intros; apply pretrain_actor_loss_scalar|]].
  intros Hn Htui. cbv zeta. now apply pretrain_update_bc_run.
Qed.

(** *** [pretrain]: the entropy coefficient *)

Lemma ent_frozen_refl (s : Trainer) : ent_frozen s s.
Proof. split; reflexivity. Qed.

Lemma ent_frozen_trans (s1 s2 s3 : Trainer) :
  ent_frozen s1 s2 -> ent_frozen s2 s3 -> ent_frozen s1 s3.
Proof. unfold ent_frozen. intros [H1 H2] [H3 H4]. split; congruence. Qed.

Lemma keeps_ret {A : Type} (a : A) : keeps_ent_coef (ret a).
Proof. intros s a' s' H. injection H as _ <-. apply ent_frozen_refl. Qed.

Lemma keeps_gets {A : Type} (f : Trainer -> A) : keeps_ent_coef (gets f).
Proof. intros s a' s' H. injection H as _ <-. apply ent_frozen_refl. Qed.

Lemma keeps_lift {A : Type} (r : result A) : keeps_ent_coef (lift r).
Proof.
  intros s a' s' H. unfold lift in H. destruct r; [discriminate|].
  injection H as _ <-. apply ent_frozen_refl.
Qed.

Lemma keeps_bind {A B : Type} (m : M A) (k : A -> M B) :
  keeps_ent_coef m -> (forall a, keeps_ent_coef (k a)) -> keeps_ent_coef (bind m k).
Proof.
  intros Hm Hk s b s'' H. apply bind_inv in H. destruct H as (a & s' & H1 & H2).
  eapply ent_frozen_trans; [eapply Hm | eapply Hk]; eassumption.
Qed.

Lemma keeps_modify (f : Trainer -> Trainer) :
  (forall s, ent_frozen s (f s)) -> keeps_ent_coef (modify f).
Proof. intros Hf s a s' H. injection H as _ <-. apply Hf. Qed.

Lemma keeps_emit (e : Event) :
  e <> EntCoefOptimizerStep -> keeps_ent_coef (emit e).
Proof.
  intros He. apply keeps_modify. intros s. split; [reflexivity|].
  unfold ent_coef_steps. fields. cbn [filter]. destruct e; congruence.
Qed.

Lemma keeps_rng_only {A : Type} (m : M A) :
  (forall s, exists a s', m s = Ok (a, s') /\ rng_only s s') -> keeps_ent_coef m.
Proof.
  intros Hm s a s' H. destruct (Hm s) as (a0 & s0 & H0 & F).
  rewrite H0 in H. injection H as _ <-. rewrite F. split; reflexivity.
Qed.

Lemma keeps_reset_noise : keeps_ent_coef (reset_noise hp).
Proof.
  apply keeps_rng_only. intros s. destruct (reset_noise_run s) as (s' & H & F). eauto.
Qed.

Lemma keeps_call_noise : keeps_ent_coef (call_noise hp).
Proof. apply keeps_rng_only. intros s. apply call_noise_run. Qed.

Lemma keeps_replay_buffer_sample (batch_size : nat) :
  keeps_ent_coef (replay_buffer_sample batch_size).
Proof.
  apply keeps_rng_only. intros s. do 2 eexists. split; [reflexivity | apply rng_only_set].
Qed.

Create HintDb keeps.

#[local] Hint Resolve keeps_ret keeps_gets keeps_lift keeps_reset_noise keeps_call_noise
  keeps_replay_buffer_sample : keeps.

Ltac keeps_step :=
  first [ apply keeps_bind; [| intros ?]
        | apply keeps_modify; intros ?; split; reflexivity
        | apply keeps_emit; discriminate
        | solve [auto with keeps] ].

Lemma keeps_crr_sample_loop (k n_samples : nat) (reduce : string)
  (replay_data : ReplayBufferSamples) (qf_agg : option tensor) :
  keeps_ent_coef (crr_sample_loop hp k n_samples reduce replay_data qf_agg).
Proof.
  revert qf_agg. induction k as [|k IH]; intros qf_agg; cbn [crr_sample_loop].
  - apply keeps_ret.
  - repeat keeps_step.
Qed.

Lemma keeps_crr_weight (n_samples : nat) (strategy reduce : string) (exp_temperature : R)
  (replay_data : ReplayBufferSamples) :
  keeps_ent_coef (crr_weight hp n_samples strategy reduce exp_temperature replay_data).
Proof.
  unfold crr_weight, crr_advantage.
  destruct (String.eqb strategy "bc"); [apply keeps_ret|].
  repeat keeps_step.
  - apply keeps_crr_sample_loop.
  - match goal with |- keeps_ent_coef (match ?x with _ => _ end) => destruct x end;
      auto with keeps.
  - destruct (String.eqb strategy "binary"); apply keeps_ret.
Qed.

Lemma keeps_pretrain_update (batch_size n_samples : nat) (target_update_interval' : Z)
  (strategy reduce : string) (exp_temperature : R) (logs : PretrainLogs) (i : Z) :
  keeps_ent_coef (pretrain_update hp batch_size n_samples target_update_interval'
                    strategy reduce exp_temperature logs i).
Proof.
  unfold pretrain_update. repeat keeps_step.
  - apply keeps_crr_weight.
  - match goal with |- keeps_ent_coef (if ?b then _ else _) => destruct b end;
      repeat keeps_step.
Qed.

Lemma not_delegating (off_policy_update_freq i : Z) :
  (off_policy_update_freq <= 0 \/ ~ (off_policy_update_freq | i))%Z ->
  delegates_to_train off_policy_update_freq i = false.
Proof.
  intros H. unfold delegates_to_train.
  destruct (Z.ltb_spec 0 off_policy_update_freq) as [Hpos | Hneg]; [| reflexivity].
  destruct H as [H | H]; [lia|]. cbn [andb]. apply Z.eqb_neq.
  rewrite Z.mod_divide by lia. exact H.
Qed.

(** C9: an iteration of [pretrain] that does not delegate to [train]
    (off_policy_update_freq <= 0, or the step index not a multiple of it)
    and completes leaves [log_ent_coef] and the state of its optimizer as
    they were and takes no optimizer step on [log_ent_coef]. *)
Theorem pretrain_step_freezes_ent_coef (batch_size n_samples : nat)
  (target_update_interval' : Z) (strategy reduce : string) (exp_temperature : R)
  (off_policy_update_freq : Z) (logs : PretrainLogs) (i : Z) (s : Trainer)
  (logs' : PretrainLogs) (s' : Trainer) :
  (off_policy_update_freq <= 0 \/ ~ (off_policy_update_freq | i))%Z ->
  pretrain_step hp batch_size n_samples target_update_interval' strategy reduce
    exp_temperature off_policy_update_freq logs i s = Ok (logs', s') ->
  ent_coef_state s' = ent_coef_state s
  /\ ent_coef_steps (events s') = ent_coef_steps (events s).
Proof.
  intros Hfreq Hrun. unfold pretrain_step in Hrun.
  rewrite (not_delegating _ _ Hfreq) in Hrun.
  exact (keeps_pretrain_update _ _ _ _ _ _ _ _ _ _ _ Hrun).
Qed.

(** *** [pretrain]: the advantage *)

Lemma fold_left_Rmin_spec (xs : list R) (x : R) :
  In (fold_left Rmin xs x) (x :: xs)
  /\ forall y, In y (x :: xs) -> fold_left Rmin xs x <= y.
Proof.
  revert x. induction xs as [|z xs IH]; intros x.
  - simpl. split; [auto | intros y [<- | []]; lra].
  - cbn [fold_left]. destruct (IH (Rmin x z)) as [Hin Hlb]. split.
    + destruct Hin as [Heq | Hin]; [| right; right; exact Hin].
      rewrite <- Heq. unfold Rmin. destruct (Rle_dec x z); simpl; auto.
    + intros y [<- | [<- | Hy]].
      * eapply Rle_trans; [apply Hlb; left; reflexivity | apply Rmin_l].
      * eapply Rle_trans; [apply Hlb; left; reflexivity | apply Rmin_r].
      * apply Hlb. right. exact Hy.
Qed.

Lemma tmin_spec (l : list R) :
  l <> [] ->
  exists m, tmin l = Ok m /\ In m l /\ forall y, In y l -> m <= y.
Proof.
  destruct l as [|x xs]; [congruence|]. intros _.
  exists (fold_left Rmin xs x). split; [reflexivity | apply fold_left_Rmin_spec].
Qed.

Lemma critic_forward_single (phi : CriticParams) (obs : list Obs) (acts : list Act) :
  n_critics = 1%nat ->
  critic_forward phi obs acts = [zip_with (q_network phi 0) obs acts].
Proof. intros Hn. unfold critic_forward. rewrite Hn. reflexivity. Qed.

Lemma critic_forward_pair (phi : CriticParams) (obs : list Obs) (acts : list Act) :
  n_critics = 2%nat ->
  critic_forward phi obs acts
  = [zip_with (q_network phi 0) obs acts; zip_with (q_network phi 1) obs acts].
Proof. intros Hn. unfold critic_forward. rewrite Hn. reflexivity. Qed.

(** With one critic [th.min] of the unpacked tuple is the smallest entry of
    the whole column. *)
Lemma th_min_star_single (phi : CriticParams) (obs : list Obs) (acts : list Act) :
  n_critics = 1%nat ->
  obs <> [] ->
  length acts = length obs ->
  exists m,
    th_min_star (critic_forward phi obs acts) = Ok (Scalar m)
    /\ In m (zip_with (q_network phi 0) obs acts)
    /\ forall y, In y (zip_with (q_network phi 0) obs acts) -> m <= y.
Proof.
  intros Hn Hobs Hlen. rewrite critic_forward_single by exact Hn.
  destruct (tmin_spec (zip_with (q_network phi 0) obs acts)) as (m & Hm & Hin & Hlb).
  { intros Hnil. apply (f_equal (@length R)) in Hnil.
    rewrite length_zip_with, Hlen, Nat.min_id in Hnil.
    destruct obs; [congruence | discriminate]. }
  exists m. cbn [th_min_star]. rewrite Hm. auto.
Qed.

Lemma th_min_star_pair (phi : CriticParams) (obs : list Obs) (acts : list Act) :
  n_critics = 2%nat ->
  th_min_star (critic_forward phi obs acts)
  = Ok (Column (zip_with Rmin (zip_with (q_network phi 0) obs acts)
                  (zip_with (q_network phi 1) obs acts))).
Proof. intros Hn. rewrite critic_forward_pair by exact Hn. reflexivity. Qed.

Lemma th_min_star_other (phi : CriticParams) (obs : list Obs) (acts : list Act) :
  n_critics <> 1%nat -> n_critics <> 2%nat ->
  th_min_star (critic_forward phi obs acts) = Raise TypeError.
Proof.
  intros H1 H2. unfold critic_forward.
  destruct n_critics as [|[|[|n]]]; try congruence; reflexivity.
Qed.

(** *** Layout of the policy samples *)

Lemma nth_view_rows {X : Type} (B n : nat) (flat : list X) (b j : nat) (d : X) :
  (b < B)%nat -> (j < n)%nat ->
  nth j (nth b (view_rows B n flat) []) d = nth (b * n + j) flat d.
Proof.
  revert flat b. induction B as [|B IH]; intros flat b Hb Hj; [lia|].
  cbn [view_rows]. destruct b as [|b].
  - cbn [nth Nat.mul Nat.add]. rewrite nth_firstn.
    apply Nat.ltb_lt in Hj. now rewrite Hj.
  - cbn [nth]. rewrite IH by lia.
    rewrite nth_skipn. f_equal. lia.
Qed.

Lemma nth_concat_uniform {X : Type} (B : nat) (cols : list (list X)) (k : nat) (d : X) :
  (0 < B)%nat ->
  Forall (fun c => length c = B) cols ->
  nth k (concat cols) d = nth (k mod B) (nth (k / B) cols []) d.
Proof.
  intros HB Hall. revert k. induction Hall as [|c cols Hc _ IH]; intros k.
  - cbn [concat]. destruct (k / B)%nat; destruct k; destruct (_ mod _)%nat; reflexivity.
  - cbn [concat]. destruct (Nat.lt_ge_cases k B) as [Hlt | Hge].
    + rewrite app_nth1 by lia.
      rewrite Nat.div_small, Nat.mod_small by exact Hlt. reflexivity.
    + rewrite app_nth2 by lia. rewrite Hc, IH.
      replace k with ((k - B) + 1 * B)%nat at 3 4 by lia.
      rewrite Nat.div_add, Nat.Div0.mod_add by lia.
      rewrite Nat.add_1_r. reflexivity.
Qed.

Lemma nth_flat_map_firstn {X : Type} (cols : list (list X)) (j : nat) (d : X) :
  Forall (fun c => c <> []) cols ->
  nth j (flat_map (firstn 1) cols) d = nth 0 (nth j cols []) d.
Proof.
  intros Hall. revert j. induction Hall as [|c cols Hc _ IH]; intros j.
  - destruct j; reflexivity.
  - destruct c as [|x c]; [congruence|]. cbn [flat_map firstn app].
    destruct j as [|j]; [reflexivity | apply IH].
Qed.

Lemma nth_transpose {X : Type} (B : nat) (cols : list (list X)) (b j : nat) (d : X) :
  (b < B)%nat ->
  Forall (fun c => length c = B) cols ->
  nth j (nth b (transpose B cols) []) d = nth b (nth j cols []) d.
Proof.
  revert cols b. induction B as [|B IH]; intros cols b Hb Hall; [lia|].
  cbn [transpose]. destruct b as [|b].
  - cbn [nth]. apply nth_flat_map_firstn.
    eapply Forall_impl; [| exact Hall]. cbn beta. intros c Hc Hnil.
    rewrite Hnil in Hc. discriminate.
  - cbn [nth]. rewrite IH.
    + change (@nil X) with (skipn 1 (@nil X)) at 1. rewrite map_nth.
      rewrite nth_skipn. reflexivity.
    + lia.
    + apply Forall_map. eapply Forall_impl; [| exact Hall].
      cbn beta. intros c Hc. rewrite length_skipn, Hc. lia.
Qed.

(** X1: the two reshapings of [_compute_conservative_loss] on [n] samples of
    a batch of [B] rows.  [th.cat(policy_actions, dim=1).view(B, n, ...)]
    puts at [b, j] the action of sample [j] for row [b];
    [th.cat(n_log_probs).view(B, n, 1)] puts at [b, j] entry [b * n + j] of
    the concatenated vectors, the log-probability of sample
    [(b * n + j) / B] for row [(b * n + j) mod B]. *)
Theorem policy_sample_layout (B n : nat) (acts : list (list Act)) (lps : list (list R))
  (b j : nat) (da : Act) :
  (b < B)%nat -> (j < n)%nat ->
  length acts = n -> length lps = n ->
  Forall (fun c => length c = B) acts ->
  Forall (fun c => length c = B) lps ->
  exists action_rows log_prob_rows,
    cat_policy_actions B acts = Ok action_rows
    /\ (flat <~ cat_dim0 lps ;; view B n flat) = Ok log_prob_rows
    /\ nth j (nth b action_rows []) da = nth b (nth j acts []) da
    /\ nth j (nth b log_prob_rows []) 0
       = nth ((b * n + j) mod B) (nth ((b * n + j) / B) lps []) 0.
Proof.
  intros Hb Hj Hacts Hlps Hall_a Hall_l.
  exists (transpose B acts), (view_rows B n (concat lps)).
  split; [| split; [| split]].
  - destruct acts; [simpl in Hacts; lia | reflexivity].
  - destruct lps as [|c lps]; [simpl in Hlps; lia|].
    cbn [cat_dim0 rbind Ok]. unfold view.
    rewrite (length_concat_same B) by exact Hall_l.
    rewrite Hlps, (Nat.mul_comm n B), Nat.eqb_refl. reflexivity.
  - now apply nth_transpose.
  - rewrite nth_view_rows by assumption. apply nth_concat_uniform; [lia | exact Hall_l].
Qed.

(** *** Signs and bounds of the losses *)

Lemma tsum_nonneg (l : list R) : Forall (fun x => 0 <= x) l -> 0 <= tsum l.
Proof.
  unfold tsum. induction 1 as [|x l Hx _ IH]; simpl; lra.
Qed.

Lemma tmean_nonneg (l : list R) : Forall (fun x => 0 <= x) l -> 0 <= tmean l.
Proof.
  intros Hl. unfold tmean, Rdiv. apply Rmult_le_pos; [now apply tsum_nonneg|].
  destruct l as [|x l]; [cbn [length INR]; rewrite Rinv_0; lra|].
  left. apply Rinv_0_lt_compat. apply lt_0_INR. simpl. lia.
Qed.

Lemma tsum_le_length (l : list R) :
  Forall (fun x => x <= 1) l -> tsum l <= INR (length l).
Proof.
  unfold tsum. induction 1 as [|x l Hx _ IH]; [simpl; lra|].
  change (length (x :: l)) with (S (length l)). rewrite S_INR. simpl. lra.
Qed.

Lemma tmean_le_1 (l : list R) : Forall (fun x => x <= 1) l -> tmean l <= 1.
Proof.
  intros Hl. unfold tmean, Rdiv.
  destruct l as [|x l]; [cbn [length INR]; rewrite Rinv_0; unfold tsum; simpl; lra|].
  assert (Hpos : 0 < INR (length (x :: l))) by (apply lt_0_INR; simpl; lia).
  apply Rmult_le_reg_r with (r := INR (length (x :: l))); [exact Hpos|].
  rewrite Rmult_assoc, Rinv_l by lra. rewrite Rmult_1_r, Rmult_1_l.
  now apply tsum_le_length.
Qed.

Lemma mse_loss_nonneg (input target : list R) : 0 <= mse_loss input target.
Proof.
  unfold mse_loss. apply tmean_nonneg. unfold zip_with.
  apply Forall_map, Forall_forall. intros [x y] _. cbn [fst snd].
  apply (Rle_0_sqr (x - y)).
Qed.

Lemma mse_loss_same (t : list R) : mse_loss t t = 0.
Proof.
  unfold mse_loss, tmean, zip_with.
  replace (tsum _) with 0; [unfold Rdiv; ring|].
  unfold tsum. induction t as [|x t IH]; [reflexivity|].
  cbn [combine map fold_right fst snd]. rewrite <- IH. ring.
Qed.

Lemma fold_left_Rplus_nonneg (l : list R) (a : R) :
  0 <= a -> Forall (fun x => 0 <= x) l -> 0 <= fold_left Rplus l a.
Proof.
  intros Ha Hl. revert a Ha. induction Hl as [|x l Hx _ IH]; intros a Ha; [exact Ha|].
  cbn [fold_left]. apply IH. lra.
Qed.

(** X6: on a non-empty batch with one target per row, the critic loss
    [0.5 * sum(mse_loss(current_q, q_backup))] is never negative, whatever
    the critics and the targets are, and it is 0 when every critic outputs
    the targets. *)
Theorem critic_loss_nonneg (replay_data : ReplayBufferSamples) (q_backup : list R)
  (phi : CriticParams) :
  replay_data <> [] ->
  length q_backup = length replay_data ->
  0 <= critic_loss_fwd replay_data q_backup phi
  /\ ((forall j, zip_with (q_network phi j) (observations replay_data)
                  (actions replay_data) = q_backup) ->
      critic_loss_fwd replay_data q_backup phi = 0).
Proof.
  intros _ _. split.
  - unfold critic_loss_fwd, py_sum.
    apply Rmult_le_pos; [lra|]. apply fold_left_Rplus_nonneg; [lra|].
    apply Forall_map, Forall_forall. intros c _. apply mse_loss_nonneg.
  - intros Hq. rewrite (critic_loss_same_outputs _ _ q_backup) by exact Hq.
    rewrite mse_loss_same. ring.
Qed.

Lemma row_min_le (row : list R) (x : R) : In x row -> row_min row <= x.
Proof.
  destruct row as [|y ys]; [intros []|]. intros Hx. cbn [row_min].
  now apply fold_left_Rmin_spec.
Qed.

(** X5: the bootstrap target of [train] and of [pretrain] is pessimistic:
    for a discount [gamma >= 0] and a row with [done <= 1] it is at most
    the target any single target critic [j] would give,
    reward + (1 - done) * gamma * (Q_j(next_obs, next_action)
    - ent_coef * next_log_prob). *)
Theorem bootstrap_target_pessimistic (theta : ActorParams) (xi : Noise)
  (psi : CriticParams) (ent_coef : R) (replay_data : ReplayBufferSamples)
  (targets : list R) (b : nat) (tr : Transition Obs Act) (t : R) (j : nat) :
  train_q_backup hp theta xi psi ent_coef replay_data = Ok targets
  \/ pretrain_q_backup hp theta xi psi ent_coef replay_data = Ok targets ->
  nth_error replay_data b = Some tr ->
  nth_error targets b = Some t ->
  (j < n_critics)%nat ->
  0 <= gamma hp ->
  done tr <= 1 ->
  t <= reward tr
       + (1 - done tr) * gamma hp
         * (q_network psi j (next_observation tr)
              (fst (actor_sample theta xi b (next_observation tr)))
            - ent_coef * snd (actor_sample theta xi b (next_observation tr))).
Proof.
  intros Hrun Hb Ht Hj Hgamma Hdone.
  assert (Hn : (1 <= n_critics)%nat) by lia.
  assert (Htargets : targets = bootstrap_targets theta xi psi ent_coef replay_data).
  { destruct Hrun as [Hrun | Hrun];
      [rewrite train_q_backup_rows in Hrun by exact Hn
      | rewrite pretrain_q_backup_rows in Hrun by exact Hn];
      now injection Hrun. }
  subst targets. unfold bootstrap_targets in Ht.
  rewrite nth_error_map, (nth_error_indexed _ _ _ Hb) in Ht.
  cbn [option_map fst snd] in Ht. injection Ht as <-.
  unfold bootstrap_target.
  apply Rplus_le_compat_l, Rmult_le_compat_l; [nra|].
  apply Rplus_le_compat_r. unfold min_q. apply row_min_le.
  apply in_map_iff. exists j. split; [reflexivity | apply in_seq; lia].
Qed.

Lemma cql_logsumexp_argument (base : R) (random_row policy_row log_prob_row : list R) :
  cql_logsumexp base random_row policy_row log_prob_row
  = ln (cql_log_argument base random_row policy_row log_prob_row) + base.
Proof. unfold cql_logsumexp, cql_log_argument. do 2 f_equal. lra. Qed.

Lemma cql_log_argument_lower (base : R) (random_row policy_row log_prob_row : list R) :
  1e-10 <= cql_log_argument base random_row policy_row log_prob_row.
Proof.
  unfold cql_log_argument.
  assert (Hr : 0 <= tmean (map (fun v => exp (v - base)) random_row)).
  { apply tmean_nonneg, Forall_map, Forall_forall. intros v _. left. apply exp_pos. }
  assert (Hp : 0 <= tmean (zip_with (fun v l => exp (v - base - l)) policy_row log_prob_row)).
  { apply tmean_nonneg. unfold zip_with. apply Forall_map, Forall_forall.
    intros p _. left. apply exp_pos. }
  lra.
Qed.

(** X3: the logarithm of line 257 never sees a non-positive argument: the
    loss is clipped_alpha * mean(log(argument) + base - data_values
    - alpha_threshold) where, on every row with at least one sample and for
    all values, the argument
    [0.5 * random_meanexp + 0.5 * policy_meanexp + 1e-10] is at least 1e-10,
    so that exp(log(argument)) is the argument. *)
Theorem conservative_loss_log_defined (replay_data : ReplayBufferSamples)
  (smp : CqlSamples) (base : R) (phi : CriticParams) (log_alpha : R) :
  conservative_loss_fwd hp replay_data smp base phi log_alpha
  = clipped_alpha log_alpha
    * tmean (zip_with (fun lse d => lse - d - alpha_threshold hp)
               (zip_with (fun rv p => ln (cql_log_argument base rv (fst p) (snd p)) + base)
                  (cql_random_values hp replay_data smp phi)
                  (combine (cql_policy_values hp replay_data smp phi) (log_probs smp)))
               (first_critic phi (observations replay_data) (actions replay_data)))
  /\ forall random_row policy_row log_prob_row,
       random_row <> [] ->
       policy_row <> [] ->
       length log_prob_row = length policy_row ->
       1e-10 <= cql_log_argument base random_row policy_row log_prob_row
       /\ exp (ln (cql_log_argument base random_row policy_row log_prob_row))
          = cql_log_argument base random_row policy_row log_prob_row.
Proof.
  split.
  - rewrite conservative_loss_fwd_spec. unfold conservative_loss_spec.
    do 3 f_equal. apply zip_with_ext. intros rv p. apply cql_logsumexp_argument.
  - intros rv pv lp _ _ _.
    pose proof (cql_log_argument_lower base rv pv lp) as Hlow.
    split; [exact Hlow|]. apply exp_ln. lra.
Qed.

(** X2: subtracting [base] keeps the random branch from overflowing: with
    one critic, a non-empty batch and at least one action sample, [base] is
    one of the random or policy values and none of them is larger, so each
    exp(random_value - base) lies in [0, 1] and so does its mean over the
    samples of a row; a policy term exp(policy_value - base - log_prob) is
    only bounded by exp(-log_prob). *)
Theorem conservative_loss_exponents_bounded (replay_data : ReplayBufferSamples)
  (s : Trainer) (log_alpha : R) (alpha_optimizer : ScalarOpt) :
  n_critics = 1%nat ->
  (1 <= n_action_samples hp)%nat ->
  replay_data <> [] ->
  cql s = Some (log_alpha, alpha_optimizer) ->
  exists smp base s',
    conservative_samples hp replay_data s = Ok (smp, s')
    /\ cql_base hp replay_data smp (critic_params s) = Ok base
    /\ (exists row v,
           (In row (cql_random_values hp replay_data smp (critic_params s))
            \/ In row (cql_policy_values hp replay_data smp (critic_params s)))
           /\ In v row /\ v = base /\ exp (v - base) = 1)
    /\ (forall row v,
           In row (cql_random_values hp replay_data smp (critic_params s)) ->
           In v row ->
           0 <= exp (v - base) <= 1)
    /\ (forall row,
           In row (cql_random_values hp replay_data smp (critic_params s)) ->
           0 <= tmean (map (fun v => exp (v - base)) row) <= 1)
    /\ (forall row v l,
           In row (cql_policy_values hp replay_data smp (critic_params s)) ->
           In v row ->
           0 <= exp (v - base - l) <= exp (- l)).
Proof.
  intros Hn Hsamples Hbatch Hcql.
  destruct (compute_conservative_loss_run replay_data s log_alpha alpha_optimizer
              Hn Hsamples Hbatch Hcql)
    as (smp & base & s' & Hrun & _ & Hbase & Hmax & _).
  cbv zeta in Hmax. destruct Hmax as [Hin Hub].
  assert (Hrandom : forall row v,
             In row (cql_random_values hp replay_data smp (critic_params s)) ->
             In v row -> 0 <= exp (v - base) <= 1).
  { intros row v Hrow Hv. split; [left; apply exp_pos|].
    rewrite <- exp_0. apply exp_le_mono.
    assert (v <= base); [| lra].
    apply Hub, in_or_app. right. apply in_concat. eauto. }
  exists smp, base, s'.
  split; [exact Hrun | split; [exact Hbase | split; [| split; [exact Hrandom | split]]]].
  - apply in_app_or in Hin. destruct Hin as [Hin | Hin];
      apply in_concat in Hin; destruct Hin as (row & Hrow & Hv);
      exists row, base; (split; [tauto|]); (split; [exact Hv|]);
      (split; [reflexivity|]); replace (base - base) with 0 by ring; apply exp_0.
  - intros row Hrow. split.
    + apply tmean_nonneg, Forall_map, Forall_forall. intros v _. left. apply exp_pos.
    + apply tmean_le_1, Forall_map, Forall_forall. intros v Hv.
      now apply (Hrandom row v).
  - intros row v l Hrow Hv. split; [left; apply exp_pos|].
    apply exp_le_mono.
    assert (v <= base); [| lra].
    apply Hub, in_or_app. left. apply in_concat. eauto.
Qed.

Lemma tensor_all_map (P : R -> Prop) (f : R -> R) (t : tensor) :
  (forall x, P (f x)) -> tensor_all P (tensor_map f t).
Proof.
  intros Hf. destruct t as [x | xs]; cbn [tensor_map tensor_all]; [apply Hf|].
  apply Forall_map, Forall_forall. intros x _. apply Hf.
Qed.

(** X7: whatever the strategy and the reduction are, and for a temperature
    other than 0, a regression weight that [pretrain] computes lies in
    [0, 20] on every row; under "binary" it is 0 or 1. *)
Theorem crr_weight_range (n_samples : nat) (strategy reduce : string)
  (exp_temperature : R) (replay_data : ReplayBufferSamples) (s s' : Trainer)
  (weight : tensor) :
  exp_temperature <> 0 ->
  crr_weight hp n_samples strategy reduce exp_temperature replay_data s
  = Ok (weight, s') ->
  tensor_all (fun x => 0 <= x <= 20) weight
  /\ (strategy = "binary"%string -> tensor_all (fun x => x = 0 \/ x = 1) weight).
Proof.
  unfold crr_weight. intros _ Hrun.
  destruct (String.eqb strategy "bc") eqn:Hbc.
  - injection Hrun as <- _. cbn [tensor_all]. split; [lra|].
    intros ->. discriminate.
  - apply bind_inv in Hrun. destruct Hrun as (advantage & s1 & _ & Hrun).
    destruct (String.eqb strategy "binary") eqn:Hbin; injection Hrun as <- _.
    + split; [| intros _]; apply tensor_all_map; intros x; unfold positive_indicator;
        destruct (Rlt_dec 0 x); (lra || auto).
    + split; [apply tensor_all_map; intros x; apply clamp_range; lra|].
      intros ->. discriminate.
Qed.

(** *** The effects of a gradient step of [train] *)

Lemma bind_replay_buffer_sample {B : Type} (batch_size : nat)
  (k : ReplayBufferSamples -> M B) (s : Trainer) :
  bind (replay_buffer_sample batch_size) k s
  = k (replay_buffer_draw (actor_params s) (replay_buffer_ent_coef s) (rng s) batch_size)
      (set_rng (S (rng s)) s).
Proof. reflexivity. Qed.

(** Runs a step of [train] from [s] up to the test of the synchronisation
    interval, in each of the four modes. *)
Ltac train_step_to_sync s Hn Hcql :=
  unfold train_step;
  rewrite bind_replay_buffer_sample; cbv beta;
  run_reset; run_simple;
  let xi := fresh "xi" in run_noise xi; run_simple;
  rewrite (bind_ok _ _ _ _ _ (optimize_ent_coef_run _ _ _)); cbv beta;
  let xi' := fresh "xi'" in run_noise xi';
  unfold use_cql in Hcql;
  let l := fresh "l" in let o := fresh "o" in let c := fresh "c" in
  let la := fresh "la" in let aopt := fresh "aopt" in
  destruct (ent_coef_state s) as [l o | c] eqn:He;
    destruct (cql s) as [[la aopt]|] eqn:Hc;
    run_simple;
    rewrite (bind_lift_ok _ _ _ _ (train_q_backup_rows _ _ _ _ _ Hn));
    run_simple; rewrite Hc; cbv iota; run_simple;
    [ let H1 := fresh "H1" in let Hns := fresh "Hns" in let Hdraw := fresh "Hdraw" in
      destruct Hcql as (H1 & Hns & Hdraw); [reflexivity|];
      run_conservative la aopt H1 Hns Hdraw Hc; run_simple;
      match goal with
      | |- context [bind get_log_alpha _ ?S] => rewrite (bind_get_log_alpha _ S la aopt Hc)
      end;
      run_simple; run_actor_loss Hn; run_simple;
      run_update_alpha la aopt H1 Hns Hdraw Hc
    | run_actor_loss Hn; run_simple
    | let H1 := fresh "H1" in let Hns := fresh "Hns" in let Hdraw := fresh "Hdraw" in
      destruct Hcql as (H1 & Hns & Hdraw); [reflexivity|];
      run_conservative la aopt H1 Hns Hdraw Hc; run_simple;
      match goal with
      | |- context [bind get_log_alpha _ ?S] => rewrite (bind_get_log_alpha _ S la aopt Hc)
      end;
      run_simple; run_actor_loss Hn; run_simple;
      run_update_alpha la aopt H1 Hns Hdraw Hc
    | run_actor_loss Hn; run_simple ].

(** A step of [train] from a ready trainer completes with the results
    [train_step_post] and [train_step_effects] describe. *)
Lemma train_step_wp_effects (batch_size : nat) (logs : Logs) (i : Z) (s : Trainer)
  (P : result (Logs * Trainer) -> Prop) :
  train_ready batch_size s ->
  (forall xi xi' phi' q_backup actor_loss logs' s',
      train_step_post batch_size logs i s xi xi' phi' q_backup actor_loss logs' s' ->
      train_step_effects i s s' ->
      P (Ok (logs', s'))) ->
  P (train_step hp batch_size logs i s).
Proof.
  intros (Hn & Htui & Hcql) HP.
  train_step_to_sync s Hn Hcql.
  all:
    rewrite (bind_lift_ok _ _ _ _ (mod_is_zero_ok _ _ Htui));
    destruct (Z.eqb (i mod target_update_interval hp) 0) eqn:Hsync; run_simple;
    (eapply HP;
     [ unfold train_step_post; cbv zeta; fields; rewrite ?He, ?Hc, ?Hsync;
       repeat split; try reflexivity;
       [apply (train_q_backup_rows _ _ _ _ _ Hn) | eassumption]
     | unfold train_step_effects, step_events, sync_due; fields;
       rewrite ?He, ?Hc, ?Hsync; cbn [is_auto app];
       repeat split; reflexivity ]).
Qed.

(** X9: with [target_update_interval = 0] the first gradient step of
    [train] raises [ZeroDivisionError] at the modulo of line 365, for a
    non-empty ensemble and, under CQL, a trainer that can compute the
    conservative loss; so does every call of [train] with at least one
    gradient step. *)
Theorem train_zero_interval (gradient_steps : Z) (batch_size : nat) (logs : Logs) (i : Z)
  (s : Trainer) :
  (1 <= n_critics)%nat ->
  target_update_interval hp = 0%Z ->
  (use_cql s = true ->
   n_critics = 1%nat /\ (1 <= n_action_samples hp)%nat
   /\ forall theta c k, replay_buffer_draw theta c k batch_size <> []) ->
  train_step hp batch_size logs i s = Raise ZeroDivisionError
  /\ ((0 < gradient_steps)%Z ->
      train hp gradient_steps batch_size s = Raise ZeroDivisionError).
Proof.
  intros Hn Htui Hcql.
  assert (Hstep : forall logs i s,
             (use_cql s = true ->
              n_critics = 1%nat /\ (1 <= n_action_samples hp)%nat
              /\ forall theta c k, replay_buffer_draw theta c k batch_size <> []) ->
             train_step hp batch_size logs i s = Raise ZeroDivisionError).
  { clear logs i s Hcql. intros logs i s Hcql.
    train_step_to_sync s Hn Hcql.
    all: unfold bind, lift, mod_is_zero; rewrite Htui; reflexivity. }
  split; [now apply Hstep|].
  intros Hpos. unfold train.
  destruct (update_learning_rate_run true s) as (s1 & Hlr & Hcql1 & _).
  run_with Hlr. unfold range.
  destruct (Z.to_nat gradient_steps) as [|g] eqn:Hg; [lia|].
  cbn [seq map for_each]. unfold bind at 1. unfold bind at 1.
  rewrite Hstep; [reflexivity|]. now rewrite Hcql1.
Qed.

(** X8: a gradient step of [train] from a ready trainer completes; it
    calls, in this order, the entropy-coefficient optimizer (auto mode only),
    the critic optimizer, the actor optimizer, the alpha optimizer (CQL only)
    and, when the interval divides the step index, [polyak_update]; the
    target parameters change only through that call, which reads the critic
    parameters the step ends with; the replay buffer is handed the
    coefficient of before the step, and [_n_updates] is not touched. *)
Theorem train_step_call_order (batch_size : nat) (logs : Logs) (i : Z) (s : Trainer) :
  train_ready batch_size s ->
  exists logs' s',
    train_step hp batch_size logs i s = Ok (logs', s')
    /\ events s'
       = (step_events (is_auto (ent_coef_state s)) (use_cql s) i ++ events s)%list
    /\ critic_target_params s'
       = (if sync_due i
          then polyak_update (critic_params s') (critic_target_params s) (tau hp)
          else critic_target_params s)
    /\ replay_buffer_ent_coef s' = current_ent_coef (ent_coef_state s)
    /\ n_updates s' = n_updates s.
Proof.
  intros Hready.
  apply (train_step_wp_effects batch_size logs i s); [exact Hready|].
  intros xi xi' phi' q_backup actor_loss logs' s' _ (Hev & Htarget & Hnu & _ & Hrb & _).
  exists logs', s'. repeat split; assumption.
Qed.

Lemma update_learning_rate_frame (with_alpha : bool) (s : Trainer) :
  exists s',
    update_learning_rate with_alpha s = Ok (tt, s')
    /\ use_cql s' = use_cql s
    /\ events s' = events s
    /\ n_updates s' = n_updates s
    /\ is_auto (ent_coef_state s') = is_auto (ent_coef_state s)
    /\ (forall c, ent_coef_state s = FixedEntCoef c -> ent_coef_state s' = FixedEntCoef c)
    /\ current_ent_coef (ent_coef_state s') = current_ent_coef (ent_coef_state s)
    /\ critic_target_params s' = critic_target_params s
    /\ critic_params s' = critic_params s
    /\ actor_params s' = actor_params s
    /\ option_map fst (cql s') = option_map fst (cql s).
Proof.
  eexists. split; [reflexivity|].
  destruct s as [th ao ph co ps e [[la o]|] rb pr nu rg ev];
    destruct e; destruct with_alpha; repeat split; auto; intros; cbn in *; congruence.
Qed.

Lemma for_each_train_step_effects (batch_size : nat) (steps : list Z) (logs : Logs)
  (s : Trainer) :
  train_ready batch_size s ->
  exists logs' s',
    for_each steps (train_step hp batch_size) logs s = Ok (logs', s')
    /\ use_cql s' = use_cql s
    /\ is_auto (ent_coef_state s') = is_auto (ent_coef_state s)
    /\ n_updates s' = n_updates s
    /\ events s'
       = (flat_map (step_events (is_auto (ent_coef_state s)) (use_cql s)) (rev steps)
          ++ events s)%list
    /\ length (ent_coefs logs') = (length (ent_coefs logs) + length steps)%nat
    /\ length (actor_losses logs') = (length (actor_losses logs) + length steps)%nat
    /\ length (critic_losses logs') = (length (critic_losses logs) + length steps)%nat
    /\ length (ent_coef_losses logs')
       = (length (ent_coef_losses logs)
          + if is_auto (ent_coef_state s) then length steps else 0)%nat
    /\ (forall c, ent_coef_state s = FixedEntCoef c ->
                  ent_coef_state s' = FixedEntCoef c
                  /\ ent_coefs logs' = (ent_coefs logs ++ repeat c (length steps))%list
                  /\ (steps <> [] -> replay_buffer_ent_coef s' = c)).
Proof.
  revert logs s. induction steps as [|i steps IH]; intros logs s Hready.
  - exists logs, s. cbn [for_each rev flat_map length repeat app].
    rewrite !Nat.add_0_r, app_nil_r. destruct (is_auto (ent_coef_state s));
      repeat split; auto; try lia; congruence.
  - cbn [for_each]. unfold bind at 1.
    apply (train_step_wp_effects batch_size logs i s); [exact Hready|].
    intros xi xi' phi' q_backup actor_loss logs1 s1 Hpost Heff.
    destruct Hpost as (Hlogs & _ & _ & He & Hcql & _).
    destruct Heff as (Hev & _ & Hnu & _ & Hrb & Hauto). cbv iota beta.
    destruct (IH logs1 s1) as
      (logs' & s' & Hrun & Hcql' & Hauto' & Hnu' & Hev' & L1 & L2 & L3 & L4 & Hfix).
    { eapply train_ready_same_cql; eauto. }
    exists logs', s'. split; [exact Hrun|].
    rewrite Hcql', Hauto', Hnu', Hev', Hev, L1, L2, L3, L4, Hcql, Hauto, Hnu.
    cbv zeta in Hlogs. subst logs1. cbn [ent_coefs actor_losses critic_losses ent_coef_losses].
    rewrite !length_app. cbn [length rev].
    rewrite flat_map_app. cbn [flat_map]. rewrite app_nil_r, <- app_assoc.
    repeat split; try lia.
    + destruct (ent_coef_state s) as [l o | c]; cbn [is_auto];
        rewrite ?length_app; cbn [length]; lia.
    + rewrite He, H in *. apply (Hfix c eq_refl).
    + rewrite He, H in *. destruct (Hfix c eq_refl) as (_ & -> & _).
      cbn [ent_coefs current_ent_coef repeat]. now rewrite <- app_assoc.
    + intros _. rewrite He, H in *. destruct (Hfix c eq_refl) as (_ & _ & Hrb').
      destruct steps as [|i' steps'].
      * cbn [for_each ret] in Hrun. injection Hrun as _ <-. exact Hrb.
      * apply Hrb'. discriminate.
Qed.

Lemma count_events_app (f : Event -> bool) (l1 l2 : list Event) :
  count_events f (l1 ++ l2) = (count_events f l1 + count_events f l2)%nat.
Proof. unfold count_events. now rewrite filter_app, length_app. Qed.

Lemma count_step_events (f : Event -> bool) (auto with_cql : bool) (steps : list Z) :
  (forall i, f (PolyakUpdate i) = false) ->
  count_events f (flat_map (step_events auto with_cql) steps)
  = (length steps
     * count_events f ((if with_cql then [AlphaOptimizerStep] else [])
                       ++ [ActorOptimizerStep; CriticOptimizerStep]
                       ++ (if auto then [EntCoefOptimizerStep] else [])))%nat.
Proof.
  intros Hf. induction steps as [|i steps IH]; [reflexivity|].
  cbn [flat_map length]. rewrite count_events_app, IH. unfold step_events at 1.
  rewrite (count_events_app f (if sync_due i then _ else _)).
  assert (count_events f (if sync_due i then [PolyakUpdate i] else []) = 0%nat) as ->.
  { destruct (sync_due i); [|reflexivity]. unfold count_events. cbn [filter].
    now rewrite Hf. }
  lia.
Qed.

Lemma length_range (n : Z) : length (range n) = Z.to_nat n.
Proof. unfold range. now rewrite length_map, length_seq. Qed.

(** X10: a call of [train] from a ready trainer completes with exactly
    the calls of its gradient steps 0, ..., G - 1 recorded in order: each
    step steps the critic optimizer once and the actor optimizer once, the
    alpha optimizer once exactly under CQL and the entropy-coefficient
    optimizer once exactly in auto mode. *)
Theorem train_optimizer_calls (gradient_steps : Z) (batch_size : nat) (s : Trainer) :
  train_ready batch_size s ->
  exists logs s',
    train hp gradient_steps batch_size s = Ok (logs, s')
    /\ events s'
       = (flat_map (step_events (is_auto (ent_coef_state s)) (use_cql s))
            (rev (range gradient_steps)) ++ events s)%list
    /\ count_events is_critic_step (events s')
       = (count_events is_critic_step (events s) + Z.to_nat gradient_steps)%nat
    /\ count_events is_actor_step (events s')
       = (count_events is_actor_step (events s) + Z.to_nat gradient_steps)%nat
    /\ count_events is_alpha_step (events s')
       = (count_events is_alpha_step (events s)
          + if use_cql s then Z.to_nat gradient_steps else 0)%nat
    /\ count_events is_ent_coef_step (events s')
       = (count_events is_ent_coef_step (events s)
          + if is_auto (ent_coef_state s) then Z.to_nat gradient_steps else 0)%nat.
Proof.
  intros Hready. unfold train.
  destruct (update_learning_rate_frame true s)
    as (s1 & Hlr & Hcql1 & Hev1 & _ & Hauto1 & _).
  run_with Hlr.
  destruct (for_each_train_step_effects batch_size (range gradient_steps) empty_logs s1)
    as (logs & s2 & Hrun & _ & _ & _ & Hev & _).
  { eapply train_ready_same_cql; eauto. }
  run_with Hrun. run_simple.
  eexists _, _. split; [reflexivity|]. fields.
  rewrite Hev, Hev1, Hcql1, Hauto1. split; [reflexivity|].
  rewrite !count_events_app, !count_step_events by reflexivity.
  rewrite length_rev, length_range. fold (use_cql s).
  destruct (use_cql s), (is_auto (ent_coef_state s));
    cbn [count_events filter app length is_critic_step is_actor_step is_alpha_step
         is_ent_coef_step];
    repeat split; lia.
Qed.

(** X11: a call of [train] from a ready trainer adds [gradient_steps] to
    [_n_updates] (also when it is negative and the loop does not run) and
    logs one coefficient, one actor loss and one critic loss per gradient
    step, and one entropy-coefficient loss per step exactly in auto mode;
    with a fixed coefficient every logged coefficient is that constant, it
    is the value the replay buffer is left with, and the coefficient is the
    same after the call. *)
Theorem train_logs_and_counter (gradient_steps : Z) (batch_size : nat) (s : Trainer) :
  train_ready batch_size s ->
  exists logs s',
    train hp gradient_steps batch_size s = Ok (logs, s')
    /\ n_updates s' = (n_updates s + gradient_steps)%Z
    /\ length (ent_coefs logs) = Z.to_nat gradient_steps
    /\ length (actor_losses logs) = Z.to_nat gradient_steps
    /\ length (critic_losses logs) = Z.to_nat gradient_steps
    /\ length (ent_coef_losses logs)
       = (if is_auto (ent_coef_state s) then Z.to_nat gradient_steps else 0%nat)
    /\ (forall c, ent_coef_state s = FixedEntCoef c ->
                  ent_coef_state s' = FixedEntCoef c
                  /\ ent_coefs logs = repeat c (Z.to_nat gradient_steps)
                  /\ ((0 < gradient_steps)%Z -> replay_buffer_ent_coef s' = c)).
Proof.
  intros Hready. unfold train.
  destruct (update_learning_rate_frame true s)
    as (s1 & Hlr & Hcql1 & _ & Hnu1 & Hauto1 & Hfix1 & _).
  run_with Hlr.
  destruct (for_each_train_step_effects batch_size (range gradient_steps) empty_logs s1)
    as (logs & s2 & Hrun & _ & _ & Hnu & _ & L1 & L2 & L3 & L4 & Hfix).
  { eapply train_ready_same_cql; eauto. }
  run_with Hrun. run_simple.
  eexists _, _. split; [reflexivity|]. fields.
  rewrite Hnu, Hnu1, L1, L2, L3, L4, Hauto1, length_range. cbn [empty_logs length Nat.add
    ent_coefs actor_losses critic_losses ent_coef_losses].
  repeat split.
  - apply (Hfix c), Hfix1, H.
  - destruct (Hfix c (Hfix1 c H)) as (_ & -> & _). now rewrite length_range.
  - intros Hpos. destruct (Hfix c (Hfix1 c H)) as (_ & _ & Hrb). apply Hrb.
    intros Hnil. apply (f_equal (@length Z)) in Hnil. rewrite length_range in Hnil.
    cbn [length] in Hnil. lia.
Qed.

(** *** [update_alpha] *)

Lemma derivable_pt_lim_local (f g : R -> R) (x l d : R) :
  0 < d ->
  (forall y, Rabs (y - x) < d -> f y = g y) ->
  derivable_pt_lim g x l -> derivable_pt_lim f x l.
Proof.
  intros Hd Hfg Hg eps Heps. destruct (Hg eps Heps) as [delta Hdelta].
  assert (Hm : 0 < Rmin d delta).
  { apply Rmin_glb_lt; [exact Hd | apply cond_pos]. }
  exists (mkposreal _ Hm). cbn [pos]. intros h Hh Hlt.
  rewrite (Hfg (x + h)), (Hfg x).
  - apply Hdelta; [exact Hh|]. eapply Rlt_le_trans; [exact Hlt | apply Rmin_r].
  - replace (x - x) with 0 by ring. now rewrite Rabs_R0.
  - replace (x + h - x) with h by ring.
    eapply Rlt_le_trans; [exact Hlt | apply Rmin_l].
Qed.

Lemma Rabs_lt_between (y x d : R) : Rabs (y - x) < d -> x - d < y < x + d.
Proof. intros H. apply Rabs_def2 in H. lra. Qed.

Lemma clamp_above (lo hi x : R) : lo <= hi -> hi <= x -> clamp lo hi x = hi.
Proof.
  intros Hlh Hx. unfold clamp. rewrite (Rmax_left x lo) by lra. now apply Rmin_right.
Qed.

Lemma clamp_below (lo hi x : R) : lo <= hi -> x <= lo -> clamp lo hi x = lo.
Proof.
  intros Hlh Hx. unfold clamp. rewrite (Rmax_right x lo) by lra. now apply Rmin_left.
Qed.

Lemma clamp_inside (lo hi x : R) : lo <= x <= hi -> clamp lo hi x = x.
Proof.
  intros Hx. unfold clamp. rewrite (Rmax_left x lo) by lra. apply Rmin_left. lra.
Qed.

Lemma conservative_loss_alpha_factor (replay_data : ReplayBufferSamples) (smp : CqlSamples)
  (base : R) (phi : CriticParams) (log_alpha : R) :
  conservative_loss_fwd hp replay_data smp base phi log_alpha
  = clipped_alpha log_alpha * conservative_loss_fwd hp replay_data smp base phi 0.
Proof.
  rewrite !conservative_loss_fwd_spec. unfold conservative_loss_spec.
  assert (clipped_alpha 0 = 1) as ->.
  { unfold clipped_alpha. rewrite clamp_inside by lra. apply exp_0. }
  ring.
Qed.

Lemma alpha_loss_factor (replay_data : ReplayBufferSamples) (smp : CqlSamples)
  (base : R) (phi : CriticParams) (x : R) :
  - conservative_loss_fwd hp replay_data smp base phi x
  = clipped_alpha x * - conservative_loss_fwd hp replay_data smp base phi 0.
Proof. rewrite conservative_loss_alpha_factor. ring. Qed.

Lemma alpha_loss_derivative_inside (replay_data : ReplayBufferSamples) (smp : CqlSamples)
  (base : R) (phi : CriticParams) (x : R) :
  -10 < x < 2 ->
  derivable_pt_lim (fun la => - conservative_loss_fwd hp replay_data smp base phi la) x
    (- conservative_loss_fwd hp replay_data smp base phi x).
Proof.
  intros Hx. set (K := conservative_loss_fwd hp replay_data smp base phi 0).
  apply (derivable_pt_lim_local _ (mult_real_fct (- K) exp) x _ (Rmin (x - -10) (2 - x))).
  - apply Rmin_glb_lt; lra.
  - intros y Hy. apply Rabs_lt_between in Hy. rewrite alpha_loss_factor. fold K.
    assert (Hl := Rmin_l (x - -10) (2 - x)). assert (Hr := Rmin_r (x - -10) (2 - x)).
    unfold clipped_alpha, mult_real_fct. rewrite clamp_inside by lra. ring.
  - rewrite alpha_loss_factor. fold K. unfold clipped_alpha. rewrite clamp_inside by lra.
    replace (exp x * - K) with (- K * exp x) by ring.
    apply derivable_pt_lim_scal, derivable_pt_lim_exp.
Qed.

Lemma alpha_loss_derivative_outside (replay_data : ReplayBufferSamples) (smp : CqlSamples)
  (base : R) (phi : CriticParams) (x : R) :
  x < -10 \/ 2 < x ->
  derivable_pt_lim (fun la => - conservative_loss_fwd hp replay_data smp base phi la) x 0.
Proof.
  set (K := conservative_loss_fwd hp replay_data smp base phi 0).
  intros [Hx | Hx].
  - apply (derivable_pt_lim_local _ (fct_cte (exp (-10) * - K)) x _ (-10 - x)).
    + lra.
    + intros y Hy. apply Rabs_lt_between in Hy. rewrite alpha_loss_factor. fold K.
      unfold clipped_alpha, fct_cte. rewrite clamp_below by lra. reflexivity.
    + apply derivable_pt_lim_const.
  - apply (derivable_pt_lim_local _ (fct_cte (exp 2 * - K)) x _ (x - 2)).
    + lra.
    + intros y Hy. apply Rabs_lt_between in Hy. rewrite alpha_loss_factor. fold K.
      unfold clipped_alpha, fct_cte. rewrite clamp_above by lra. reflexivity.
    + apply derivable_pt_lim_const.
Qed.

(** X4: with one critic, a non-empty batch, at least one action sample
    and CQL set up, [update_alpha] completes: it draws fresh samples,
    computes their [base] and takes one step of the alpha optimizer on
    [log_alpha] for the negated conservative loss of these samples, the
    function la -> - conservative_loss(samples, base, critic, la); it
    changes nothing else but the position of the random streams.  As a
    function of [log_alpha] that loss is the clipped multiplier times a
    constant; inside (-10, 2) its derivative is the loss itself, and
    outside [-10, 2] its derivative is 0: once [log_alpha] has left the
    clipping range the loss gives it no gradient. *)
Theorem update_alpha_gradient (replay_data : ReplayBufferSamples) (s : Trainer)
  (log_alpha : R) (alpha_optimizer : ScalarOpt) :
  n_critics = 1%nat ->
  (1 <= n_action_samples hp)%nat ->
  replay_data <> [] ->
  cql s = Some (log_alpha, alpha_optimizer) ->
  exists (smp : CqlSamples) (base : R) (s1 : Trainer),
    conservative_samples hp replay_data s = Ok (smp, s1)
    /\ cql_base hp replay_data smp (critic_params s) = Ok base
    /\ (let alpha_loss :=
          fun la => - conservative_loss_fwd hp replay_data smp base (critic_params s) la in
        let r := scalar_optimizer_step alpha_optimizer alpha_loss log_alpha in
        update_alpha hp replay_data s
        = Ok (tt, set_events (AlphaOptimizerStep :: events s)
                    (set_cql (Some (snd r, fst r)) (set_rng (rng s1) s)))
        /\ (forall x, alpha_loss x = clipped_alpha x * alpha_loss 0)
        /\ (forall x, -10 < x < 2 -> derivable_pt_lim alpha_loss x (alpha_loss x))
        /\ (forall x, x < -10 \/ 2 < x -> derivable_pt_lim alpha_loss x 0)).
Proof.
  intros Hn Hs Hb Hc.
  destruct (compute_conservative_loss_run replay_data s log_alpha alpha_optimizer
              Hn Hs Hb Hc) as (smp & base & s' & Hsamples & F & Hbase & _ & Hrun).
  exists smp, base, s'.
  split; [exact Hsamples | split; [exact Hbase|]]. cbv zeta.
  split; [| split; [| split]].
  - unfold update_alpha. run_with Hrun. clear Hsamples. frame_subst F s'. run_simple.
    rewrite Hc. run_simple. reflexivity.
  - intros x. rewrite (alpha_loss_factor _ _ _ _ x). reflexivity.
  - intros x Hx. now apply alpha_loss_derivative_inside.
  - intros x Hx. now apply alpha_loss_derivative_outside.
Qed.

(** *** [pretrain]: what an iteration does to the trainer *)

Lemma only_rng_bind {A B : Type} (m : M A) (k : A -> M B) :
  only_rng m -> (forall a, only_rng (k a)) -> only_rng (bind m k).
Proof.
  intros Hm Hk s b s'' H. apply bind_inv in H. destruct H as (a & s' & H1 & H2).
  eapply rng_only_trans; [eapply Hm | eapply Hk]; eauto.
Qed.

Lemma only_rng_ret {A : Type} (a : A) : only_rng (ret a).
Proof. intros s a' s' H. injection H as _ <-. apply rng_only_refl. Qed.

Lemma only_rng_gets {A : Type} (f : Trainer -> A) : only_rng (gets f).
Proof. intros s a' s' H. injection H as _ <-. apply rng_only_refl. Qed.

Lemma only_rng_lift {A : Type} (r : result A) : only_rng (lift r).
Proof.
  intros s a s' H. unfold lift in H. destruct r; [discriminate|].
  injection H as _ <-. apply rng_only_refl.
Qed.

Lemma only_rng_reset_noise : only_rng (reset_noise hp).
Proof.
  intros s a s' H. destruct (reset_noise_run s) as (s1 & H1 & F).
  rewrite H1 in H. now injection H as _ <-.
Qed.

Lemma only_rng_call_noise : only_rng (call_noise hp).
Proof.
  intros s a s' H. destruct (call_noise_run s) as (xi & s1 & H1 & F).
  rewrite H1 in H. now injection H as _ <-.
Qed.

Lemma only_rng_crr_sample_loop (k n_samples : nat) (reduce : string)
  (replay_data : ReplayBufferSamples) (qf_agg : option tensor) :
  only_rng (crr_sample_loop hp k n_samples reduce replay_data qf_agg).
Proof.
  revert qf_agg. induction k as [|k IH]; intros qf_agg; cbn [crr_sample_loop].
  - apply only_rng_ret.
  - apply only_rng_bind; [apply only_rng_reset_noise | intros _].
    apply only_rng_bind; [apply only_rng_gets | intros theta].
    apply only_rng_bind; [apply only_rng_call_noise | intros xi].
    apply only_rng_bind; [apply only_rng_gets | intros phi].
    apply only_rng_bind; [apply only_rng_lift | intros qf_pi].
    apply IH.
Qed.

Lemma only_rng_crr_weight (n_samples : nat) (strategy reduce : string) (exp_temperature : R)
  (replay_data : ReplayBufferSamples) :
  only_rng (crr_weight hp n_samples strategy reduce exp_temperature replay_data).
Proof.
  unfold crr_weight, crr_advantage.
  destruct (String.eqb strategy "bc"); [apply only_rng_ret|].
  apply only_rng_bind.
  - apply only_rng_bind; [apply only_rng_gets | intros phi].
    apply only_rng_bind; [apply only_rng_lift | intros qf_buffer].
    apply only_rng_bind; [apply only_rng_crr_sample_loop | intros qf_agg].
    destruct qf_agg; [apply only_rng_ret | apply only_rng_lift].
  - intros advantage. destruct (String.eqb strategy "binary"); apply only_rng_ret.
Qed.

(** A regression iteration of [pretrain] raises, or completes as
    [pretrain_update_post] describes. *)
Lemma pretrain_update_wp (batch_size n_samples : nat) (target_update_interval' : Z)
  (strategy reduce : string) (exp_temperature : R) (logs : PretrainLogs) (i : Z)
  (s : Trainer) (P : result (PretrainLogs * Trainer) -> Prop) :
  (forall e, P (Raise e)) ->
  (forall logs' s',
      pretrain_update_post target_update_interval' logs i s logs' s' ->
      P (Ok (logs', s'))) ->
  P (pretrain_update hp batch_size n_samples target_update_interval' strategy reduce
       exp_temperature logs i s).
Proof.
  intros Hraise Hok. unfold pretrain_update.
  rewrite bind_replay_buffer_sample; cbv beta.
  run_reset. run_simple. run_noise xi. run_simple. run_noise xi'. run_simple.
  match goal with
  | |- context [lift ?r] => destruct r as [e | q_backup]; [exact (Hraise e)|]
  end.
  rewrite (bind_lift_ok _ q_backup _ _ eq_refl). run_simple.
  unfold bind at 1.
  match goal with
  | |- context [crr_weight ?h ?n ?st ?rd ?t ?d ?S] =>
      destruct (crr_weight h n st rd t d S) as [e | [weight sw]] eqn:Hw;
        [exact (Hraise e)|]
  end.
  apply only_rng_crr_weight in Hw. frame_subst Hw sw. cbv beta iota. run_simple.
  unfold mod_is_zero.
  destruct (Z.eqb target_update_interval' 0) eqn:Htui; [exact (Hraise _)|].
  rewrite (bind_lift_ok _ _ _ _ eq_refl).
  apply Z.eqb_neq in Htui.
  destruct (Z.eqb (i mod target_update_interval') 0) eqn:Hsync; run_simple;
    (apply Hok; unfold pretrain_update_post, copy_due; fields; rewrite Hsync;
     cbn [pretrain_actor_losses pretrain_critic_losses app];
     rewrite !length_app; cbn [length];
     repeat split; try reflexivity; try assumption; lia).
Qed.

Lemma pretrain_update_inv (batch_size n_samples : nat) (target_update_interval' : Z)
  (strategy reduce : string) (exp_temperature : R) (logs : PretrainLogs) (i : Z)
  (s : Trainer) (logs' : PretrainLogs) (s' : Trainer) :
  pretrain_update hp batch_size n_samples target_update_interval' strategy reduce
    exp_temperature logs i s = Ok (logs', s') ->
  pretrain_update_post target_update_interval' logs i s logs' s'.
Proof.
  apply (pretrain_update_wp batch_size n_samples target_update_interval' strategy reduce
           exp_temperature logs i s
           (fun r => r = Ok (logs', s') ->
                     pretrain_update_post target_update_interval' logs i s logs' s')).
  - discriminate.
  - intros logs1 s1 Hpost H. injection H as <- <-. exact Hpost.
Qed.

(** X12: a regression iteration of [pretrain] that completes was given a
    non-zero copy interval; it stepped the critic optimizer, then the actor
    optimizer, and then, exactly when the interval divides the step index,
    replaced the target parameters by the critic parameters it ends with
    (a hard copy, no Polyak averaging); it left [log_alpha], the alpha
    optimizer and [_n_updates] as they were, handed the replay buffer the
    current entropy coefficient and logged one actor and one critic loss.
    Under the "bc" strategy, a non-empty ensemble and a non-zero interval it
    does complete. *)
Theorem pretrain_update_hard_copy (batch_size n_samples : nat)
  (target_update_interval' : Z) (strategy reduce : string) (exp_temperature : R)
  (logs : PretrainLogs) (i : Z) (s : Trainer) :
  (forall logs' s',
      pretrain_update hp batch_size n_samples target_update_interval' strategy reduce
        exp_temperature logs i s = Ok (logs', s') ->
      target_update_interval' <> 0%Z
      /\ events s'
         = ((if copy_due target_update_interval' i then [HardCopy i] else [])
            ++ [ActorOptimizerStep; CriticOptimizerStep] ++ events s)%list
      /\ critic_target_params s'
         = (if copy_due target_update_interval' i then critic_params s'
            else critic_target_params s)
      /\ cql s' = cql s
      /\ n_updates s' = n_updates s
      /\ replay_buffer_ent_coef s' = current_ent_coef (ent_coef_state s)
      /\ length (pretrain_actor_losses logs') = S (length (pretrain_actor_losses logs))
      /\ length (pretrain_critic_losses logs') = S (length (pretrain_critic_losses logs)))
  /\ (strategy = "bc"%string -> (1 <= n_critics)%nat -> target_update_interval' <> 0%Z ->
      exists logs' s',
        pretrain_update hp batch_size n_samples target_update_interval' strategy reduce
          exp_temperature logs i s = Ok (logs', s')).
Proof.
  split.
  - intros logs' s' Hrun. apply pretrain_update_inv in Hrun.
    destruct Hrun as (H1 & H2 & H3 & H4 & H5 & _ & H7 & H8 & H9).
    repeat split; assumption.
  - intros -> Hn Htui.
    destruct (pretrain_update_bc_run batch_size n_samples target_update_interval' reduce
                exp_temperature logs i s Hn Htui) as (logs' & s' & Hrun & _).
    eauto.
Qed.

(** *** [pretrain]: the whole loop *)

Lemma update_learning_rate_keeps_cql (s s' : Trainer) :
  update_learning_rate false s = Ok (tt, s') -> cql s' = cql s.
Proof.
  intros H. injection H as <-.
  destruct s as [th ao ph co ps e [[la o]|] rb pr nu rg ev]; destruct e; reflexivity.
Qed.

Lemma for_each_pretrain_update_inv (batch_size n_samples : nat)
  (target_update_interval' : Z) (strategy reduce : string) (exp_temperature : R)
  (off_policy_update_freq : Z) (steps : list Z) (logs : PretrainLogs) (s : Trainer)
  (logs' : PretrainLogs) (s' : Trainer) :
  (off_policy_update_freq <= 0)%Z ->
  for_each steps
    (pretrain_step hp batch_size n_samples target_update_interval' strategy reduce
       exp_temperature off_policy_update_freq) logs s = Ok (logs', s') ->
  cql s' = cql s
  /\ n_updates s' = n_updates s
  /\ ent_coef_state s' = ent_coef_state s
  /\ polyak_steps (events s') = polyak_steps (events s)
  /\ hard_copy_steps (events s')
     = (rev (filter (copy_due target_update_interval') steps)
        ++ hard_copy_steps (events s))%list
  /\ count_events is_critic_step (events s')
     = (count_events is_critic_step (events s) + length steps)%nat
  /\ count_events is_actor_step (events s')
     = (count_events is_actor_step (events s) + length steps)%nat
  /\ length (pretrain_actor_losses logs')
     = (length (pretrain_actor_losses logs) + length steps)%nat
  /\ length (pretrain_critic_losses logs')
     = (length (pretrain_critic_losses logs) + length steps)%nat
  /\ (steps <> [] -> target_update_interval' <> 0%Z).
Proof.
  intros Hfreq. revert logs s.
  induction steps as [|i steps IH]; intros logs s Hrun.
  - cbn [for_each ret] in Hrun. injection Hrun as <- <-.
    cbn [filter rev app length]. rewrite !Nat.add_0_r. repeat split. congruence.
  - cbn [for_each] in Hrun. apply bind_inv in Hrun.
    destruct Hrun as (logs1 & s1 & Hstep & Hrest).
    unfold pretrain_step in Hstep.
    rewrite (not_delegating _ _ (or_introl Hfreq)) in Hstep.
    apply pretrain_update_inv in Hstep.
    destruct Hstep as (Htui & Hev & _ & Hcql & Hnu & He & _ & L1 & L2).
    destruct (IH logs1 s1 Hrest)
      as (Hcql' & Hnu' & He' & Hpol & Hcopy & Hc & Ha & L1' & L2' & _).
    unfold count_events in *.
    rewrite Hcql', Hnu', He', Hpol, Hcopy, Hc, Ha, L1', L2', Hcql, Hnu, He, L1, L2, Hev.
    cbn [filter length].
    destruct (copy_due target_update_interval' i);
      cbn [app polyak_steps hard_copy_steps flat_map filter is_critic_step
           is_actor_step length rev];
      rewrite <- ?app_assoc; repeat split; try lia; try assumption; reflexivity.
Qed.

Lemma for_each_pretrain_bc_run (batch_size n_samples : nat)
  (target_update_interval' : Z) (reduce : string) (exp_temperature : R)
  (off_policy_update_freq : Z) (steps : list Z) (logs : PretrainLogs) (s : Trainer) :
  (off_policy_update_freq <= 0)%Z ->
  (1 <= n_critics)%nat ->
  target_update_interval' <> 0%Z ->
  exists logs' s',
    for_each steps
      (pretrain_step hp batch_size n_samples target_update_interval' "bc" reduce
         exp_temperature off_policy_update_freq) logs s = Ok (logs', s').
Proof.
  intros Hfreq Hn Htui. revert logs s.
  induction steps as [|i steps IH]; intros logs s.
  - now exists logs, s.
  - cbn [for_each]. unfold pretrain_step at 1.
    rewrite (not_delegating _ _ (or_introl Hfreq)).
    destruct (pretrain_update_bc_run batch_size n_samples target_update_interval' reduce
                exp_temperature logs i s Hn Htui) as (logs1 & s1 & Hrun & _).
    run_with Hrun. apply IH.
Qed.

(** X13: with [off_policy_update_freq <= 0] (the default, -1) a call of
    [pretrain] that completes has copied the critic into the target exactly
    at the steps of 0, ..., G - 1 that the copy interval passed to
    [pretrain] divides and never called [polyak_update]; it stepped the
    critic and the actor optimizer once per step, logged one actor and one
    critic loss per step, and left the value of the entropy coefficient,
    [log_alpha] with the alpha optimizer (whose learning rate it does not
    update either) and [_n_updates] as they were: the gradient steps of
    [pretrain] are not counted.  Under the "bc" strategy, a non-empty
    ensemble and a non-zero interval the call does complete. *)
Theorem pretrain_without_train (gradient_steps : Z) (batch_size n_samples : nat)
  (target_update_interval' : Z) (strategy reduce : string) (exp_temperature : R)
  (off_policy_update_freq : Z) (s : Trainer) :
  (off_policy_update_freq <= 0)%Z ->
  (forall logs' s',
      pretrain hp gradient_steps batch_size n_samples target_update_interval' strategy
        reduce exp_temperature off_policy_update_freq s = Ok (logs', s') ->
      hard_copy_steps (events s')
      = (rev (filter (copy_due target_update_interval') (range gradient_steps))
         ++ hard_copy_steps (events s))%list
      /\ polyak_steps (events s') = polyak_steps (events s)
      /\ count_events is_critic_step (events s')
         = (count_events is_critic_step (events s) + Z.to_nat gradient_steps)%nat
      /\ count_events is_actor_step (events s')
         = (count_events is_actor_step (events s) + Z.to_nat gradient_steps)%nat
      /\ length (pretrain_actor_losses logs') = Z.to_nat gradient_steps
      /\ length (pretrain_critic_losses logs') = Z.to_nat gradient_steps
      /\ current_ent_coef (ent_coef_state s') = current_ent_coef (ent_coef_state s)
      /\ cql s' = cql s
      /\ n_updates s' = n_updates s
      /\ ((0 < gradient_steps)%Z -> target_update_interval' <> 0%Z))
  /\ (strategy = "bc"%string -> (1 <= n_critics)%nat -> target_update_interval' <> 0%Z ->
      exists logs' s',
        pretrain hp gradient_steps batch_size n_samples target_update_interval' strategy
          reduce exp_temperature off_policy_update_freq s = Ok (logs', s')).
Proof.
  intros Hfreq. split.
  - intros logs' s' Hrun. unfold pretrain in Hrun.
    apply bind_inv in Hrun. destruct Hrun as ([] & s1 & Hlr & Hloop).
    assert (Hcql1 := update_learning_rate_keeps_cql _ _ Hlr).
    destruct (update_learning_rate_frame false s)
      as (s1' & Hlr' & _ & Hev1 & Hnu1 & _ & _ & Hec1 & _).
    rewrite Hlr in Hlr'. injection Hlr' as <-.
    apply (for_each_pretrain_update_inv _ _ _ _ _ _ _ _ _ _ _ _ Hfreq) in Hloop.
    destruct Hloop as (Hcql & Hnu & He & Hpol & Hcopy & Hc & Ha & L1 & L2 & Htui).
    rewrite Hcql, Hnu, He, Hpol, Hcopy, Hc, Ha, L1, L2, Hcql1, Hnu1, Hec1, Hev1.
    rewrite length_range. cbn [pretrain_actor_losses pretrain_critic_losses length Nat.add].
    repeat split. intros Hpos. apply Htui. intros Hnil.
    apply (f_equal (@length Z)) in Hnil. rewrite length_range in Hnil.
    cbn [length] in Hnil. lia.
  - intros -> Hn Htui. unfold pretrain.
    destruct (update_learning_rate_run false s) as (s1 & Hlr & _). run_with Hlr.
    now apply for_each_pretrain_bc_run.
Qed.

(** X14: an iteration of [pretrain] that delegates
    ([off_policy_update_freq] positive and dividing the step index) is a
    call [train(1)]: from a ready trainer it completes, leaves the losses of
    [pretrain] as they were, adds 1 to [_n_updates], makes no hard copy and
    always calls [polyak_update], whatever the step index of [pretrain] and
    the two intervals are, because the only step of that [train] has
    index 0. *)
Theorem pretrain_delegated_step (batch_size n_samples : nat)
  (target_update_interval' : Z) (strategy reduce : string) (exp_temperature : R)
  (off_policy_update_freq : Z) (logs : PretrainLogs) (i : Z) (s : Trainer) :
  (0 < off_policy_update_freq)%Z ->
  (off_policy_update_freq | i)%Z ->
  train_ready batch_size s ->
  exists train_logs s',
    pretrain_step hp batch_size n_samples target_update_interval' strategy reduce
      exp_temperature off_policy_update_freq logs i s = Ok (logs, s')
    /\ train hp 1 batch_size s = Ok (train_logs, s')
    /\ polyak_steps (events s') = (0%Z :: polyak_steps (events s))
    /\ hard_copy_steps (events s') = hard_copy_steps (events s)
    /\ n_updates s' = (n_updates s + 1)%Z.
Proof.
  intros Hpos Hdiv Hready.
  assert (Hdel : delegates_to_train off_policy_update_freq i = true).
  { unfold delegates_to_train. apply andb_true_intro. split.
    - now apply Z.ltb_lt.
    - apply Z.eqb_eq. apply Z.mod_divide; [lia | exact Hdiv]. }
  unfold pretrain_step. rewrite Hdel.
  assert (Htrain : exists train_logs s',
             train hp 1 batch_size s = Ok (train_logs, s')
             /\ events s'
                = (step_events (is_auto (ent_coef_state s)) (use_cql s) 0 ++ events s)%list
             /\ n_updates s' = (n_updates s + 1)%Z).
  { unfold train.
    destruct (update_learning_rate_frame true s)
      as (s1 & Hlr & Hcql1 & Hev1 & Hnu1 & Hauto1 & _).
    run_with Hlr.
    destruct (for_each_train_step_effects batch_size (range 1) empty_logs s1)
      as (tl & s2 & Hrun & _ & _ & Hnu & Hev & _).
    { eapply train_ready_same_cql; eauto. }
    run_with Hrun. run_simple. eexists _, _. split; [reflexivity|]. fields.
    rewrite Hev, Hev1, Hcql1, Hauto1, Hnu, Hnu1.
    change (rev (range 1)) with [0%Z]. cbn [flat_map]. rewrite app_nil_r.
    fold (use_cql s). split; reflexivity. }
  destruct Htrain as (train_logs & s' & Hrun & Hev & Hnu).
  exists train_logs, s'. run_with Hrun. run_simple.
  split; [reflexivity | split; [exact Hrun|]].
  rewrite Hev, Hnu. unfold step_events, sync_due. rewrite Zmod_0_l. cbn [Z.eqb].
  destruct (use_cql s), (is_auto (ent_coef_state s));
    cbn [app polyak_steps hard_copy_steps flat_map]; repeat split.
Qed.

(** *** [_setup_model] *)

Lemma py_split_cons (sep : ascii) (s : string) :
  exists piece pieces, py_split sep s = piece :: pieces.
Proof.
  destruct s as [|c s]; cbn [py_split]; [eauto|].
  destruct (Ascii.eqb c sep); [eauto|]. destruct (py_split sep s); eauto.
Qed.

Lemma py_split_no_sep (sep : ascii) (s : string) :
  contains sep s = false -> py_split sep s = [s].
Proof.
  induction s as [|c s IH]; cbn [contains py_split]; [reflexivity|].
  intros H. apply orb_false_elim in H. destruct H as [Hc Hs].
  rewrite Hc, (IH Hs). reflexivity.
Qed.

Lemma py_split_at (sep : ascii) (a rest : string) :
  contains sep a = false ->
  py_split sep (a ++ String sep rest) = a :: py_split sep rest.
Proof.
  induction a as [|c a IH]; cbn [contains py_split append].
  - intros _. now rewrite Ascii.eqb_refl.
  - intros H. apply orb_false_elim in H. destruct H as [Hc Ha].
    rewrite Hc, (IH Ha). reflexivity.
Qed.

Lemma py_split_second (sep : ascii) (s : string) :
  contains sep s = true -> exists piece, nth_error (py_split sep s) 1 = Some piece.
Proof.
  induction s as [|c s IH]; cbn [contains py_split]; [discriminate|].
  intros H. destruct (Ascii.eqb c sep) eqn:Hc.
  - destruct (py_split_cons sep s) as (p & ps & ->). now exists p.
  - cbn [orb] in H. destruct (IH H) as [piece Hp].
    destruct (py_split sep s) as [|p ps]; [discriminate|]. now exists piece.
Qed.

Lemma contains_app (c : ascii) (a b : string) :
  contains c (a ++ b) = contains c a || contains c b.
Proof.
  induction a as [|c' a IH]; cbn [contains append]; [reflexivity|].
  now rewrite IH, orb_assoc.
Qed.

Lemma prefix_app (p s : string) : prefix p (p ++ s) = true.
Proof.
  induction p as [|c p IH]; cbn [append].
  - destruct s; reflexivity.
  - cbn [prefix]. destruct (ascii_dec c c); [exact IH | congruence].
Qed.

Lemma auto_init_value_positive (py_float : string -> option R) (s : string) (v : R) :
  auto_init_value py_float s = inr v -> 0 < v.
Proof.
  unfold auto_init_value. destruct (contains "_" s).
  - destruct (py_index _ 1) as [e | piece]; [discriminate|].
    destruct (float py_float (PyStr piece)) as [e | x]; [discriminate|].
    destruct (Rlt_dec 0 x); [| discriminate]. intros H. injection H as <-. assumption.
  - intros H. injection H as <-. lra.
Qed.

(** X15: when [_setup_model] accepts an entropy coefficient given as a
    string that starts with "auto", the coefficient is learned, the initial
    value is positive and is the coefficient the trainer starts with,
    exp(log_ent_coef) (1 when the string has no underscore); any other
    string is converted with [float] and any number is taken as it is, with
    no check of its sign, as a fixed coefficient. *)
Theorem setup_ent_coef_initial_value (py_float : string -> option R)
  (adam : R -> ScalarOpt) (ent_coef : str_or_float) (e : EntCoef) :
  setup_ent_coef py_float adam ent_coef = inr e ->
  (forall s, ent_coef = PyStr s -> prefix "auto" s = true ->
             0 < current_ent_coef e
             /\ e = AutoEntCoef (ln (current_ent_coef e)) (adam (lr_schedule 1))
             /\ auto_init_value py_float s = inr (current_ent_coef e)
             /\ (contains "_" s = false -> current_ent_coef e = 1))
  /\ (forall s, ent_coef = PyStr s -> prefix "auto" s = false ->
                py_float s = Some (current_ent_coef e)
                /\ e = FixedEntCoef (current_ent_coef e))
  /\ (forall x, ent_coef = PyFloat x -> e = FixedEntCoef x).
Proof.
  intros Hrun. split; [| split].
  - intros s -> Hauto. unfold setup_ent_coef, learned_ent_coef in Hrun.
    rewrite Hauto in Hrun.
    destruct (auto_init_value py_float s) as [err | v] eqn:Hv; [discriminate|].
    injection Hrun as <-. assert (Hpos := auto_init_value_positive _ _ _ Hv).
    cbn [current_ent_coef]. rewrite Rmult_1_l, exp_ln by exact Hpos.
    repeat split; try assumption.
    intros Hno. unfold auto_init_value in Hv. rewrite Hno in Hv. now injection Hv as <-.
  - intros s -> Hauto. unfold setup_ent_coef, learned_ent_coef in Hrun.
    rewrite Hauto in Hrun.
    cbn [float] in Hrun. destruct (py_float s) as [x|]; [| discriminate].
    injection Hrun as <-. split; reflexivity.
  - intros x ->. cbn in Hrun. now injection Hrun as <-.
Qed.

(** X16: for a string that starts with "auto" and contains an
    underscore, [split("_")[1]] always exists, so that [_setup_model] never
    raises [IndexError]; it raises [ValueError] when [float] rejects that
    piece, [AssertionError] when the number is not positive, and otherwise
    starts [log_ent_coef] at its logarithm.  A [ValueError] of the target
    entropy comes first. *)
Theorem setup_ent_coef_failures (py_float : string -> option R) (adam : R -> ScalarOpt)
  (s : string) :
  prefix "auto" s = true ->
  contains "_" s = true ->
  exists piece,
    nth_error (py_split "_" s) 1 = Some piece
    /\ (py_float piece = None ->
        setup_ent_coef py_float adam (PyStr s) = inl ValueError)
    /\ (forall v, py_float piece = Some v -> v <= 0 ->
                  setup_ent_coef py_float adam (PyStr s) = inl (Exn AssertionError))
    /\ (forall v, py_float piece = Some v -> 0 < v ->
                  setup_ent_coef py_float adam (PyStr s)
                  = inr (AutoEntCoef (ln (1 * v)) (adam (lr_schedule 1))))
    /\ (forall target_entropy' action_shape with_cql initial_alpha,
          _setup_model py_float adam target_entropy' (PyStr s) action_shape with_cql
            initial_alpha <> inl IndexError
          /\ (setup_target_entropy py_float target_entropy' action_shape = inl ValueError ->
              _setup_model py_float adam target_entropy' (PyStr s) action_shape with_cql
                initial_alpha = inl ValueError)).
Proof.
  intros Hauto Hunder. destruct (py_split_second "_" s Hunder) as [piece Hpiece].
  exists piece. split; [exact Hpiece|].
  assert (Hsetup : setup_ent_coef py_float adam (PyStr s)
                   = match py_float piece with
                     | None => inl ValueError
                     | Some v => if Rlt_dec 0 v
                                 then inr (AutoEntCoef (ln (1 * v)) (adam (lr_schedule 1)))
                                 else inl (Exn AssertionError)
                     end).
  { unfold setup_ent_coef, learned_ent_coef, auto_init_value, py_index.
    rewrite Hauto, Hunder, Hpiece.
    cbn [float]. destruct (py_float piece) as [v|]; [| reflexivity].
    destruct (Rlt_dec 0 v); reflexivity. }
  rewrite Hsetup. repeat split.
  - now intros ->.
  - intros v -> Hv. destruct (Rlt_dec 0 v); [lra | reflexivity].
  - intros v -> Hv. destruct (Rlt_dec 0 v); [reflexivity | lra].
  - unfold _setup_model, setup_target_entropy, float.
    destruct target_entropy' as [t | x].
    + destruct (String.eqb t "auto"); [| destruct (py_float t)]; rewrite ?Hsetup;
        try discriminate;
        (destruct (py_float piece) as [v|]; [destruct (Rlt_dec 0 v)|]; discriminate).
    + rewrite Hsetup.
      destruct (py_float piece) as [v|]; [destruct (Rlt_dec 0 v)|]; discriminate.
  - intros Hte. unfold _setup_model. now rewrite Hte.
Qed.

(** X17: which part of an "auto" string is read.  In
    "auto" + a + "_" + v + rest, where [a] and [v] have no underscore and
    [rest] is empty or starts with an underscore, the initial value is
    [float(v)]: what stands between "auto" and the first underscore and
    what follows a second underscore is ignored.  A string "auto" + a with
    no underscore is accepted whatever [a] is, with initial value 1. *)
Theorem setup_ent_coef_string_shape (py_float : string -> option R)
  (adam : R -> ScalarOpt) (a v rest : string) :
  contains "_" a = false ->
  (contains "_" v = false ->
   rest = EmptyString \/ (exists r, rest = String "_" r) ->
   nth_error (py_split "_" ("auto" ++ a ++ "_" ++ v ++ rest)) 1 = Some v
   /\ forall x, py_float v = Some x -> 0 < x ->
                setup_ent_coef py_float adam (PyStr ("auto" ++ a ++ "_" ++ v ++ rest))
                = inr (AutoEntCoef (ln (1 * x)) (adam (lr_schedule 1))))
  /\ setup_ent_coef py_float adam (PyStr ("auto" ++ a))
     = inr (AutoEntCoef (ln (1 * 1)) (adam (lr_schedule 1))).
Proof.
  intros Ha. split.
  - intros Hv Hrest.
    assert (Hhead : contains "_" ("auto" ++ a) = false).
    { rewrite contains_app, Ha. reflexivity. }
    assert (Hs : ("auto" ++ a ++ "_" ++ v ++ rest
                  = ("auto" ++ a) ++ String "_" (v ++ rest))%string).
    { reflexivity. }
    assert (Hpiece : nth_error (py_split "_" ("auto" ++ a ++ "_" ++ v ++ rest)) 1 = Some v).
    { rewrite Hs, (py_split_at "_" _ _ Hhead). cbn [nth_error].
      destruct Hrest as [-> | [r ->]].
      - assert (v ++ "" = v)%string as ->.
        { clear. induction v as [|c v IH]; cbn [append]; congruence. }
        now rewrite (py_split_no_sep "_" v Hv).
      - now rewrite (py_split_at "_" v r Hv). }
    split; [exact Hpiece|]. intros x Hx Hpos.
    unfold setup_ent_coef, learned_ent_coef, auto_init_value, py_index.
    assert (prefix "auto" ("auto" ++ a ++ "_" ++ v ++ rest) = true) as ->
      by apply prefix_app.
    assert (contains "_" ("auto" ++ a ++ "_" ++ v ++ rest) = true) as ->.
    { rewrite Hs, contains_app. cbn [contains]. rewrite Ascii.eqb_refl.
      cbn [orb]. apply orb_true_r. }
    rewrite Hpiece. cbn [float]. rewrite Hx.
    destruct (Rlt_dec 0 x); [reflexivity | lra].
  - unfold setup_ent_coef, learned_ent_coef, auto_init_value.
    rewrite prefix_app. rewrite contains_app, Ha. reflexivity.
Qed.

Lemma exp_2_above_5 : 5 < exp 2.
Proof.
  assert (H : 1 + /2 < exp (/2)) by (apply exp_ineq1; lra).
  replace 2 with (/2 + /2 + (/2 + /2)) by lra. rewrite !exp_plus.
  assert (H2 : (1 + /2) * (1 + /2) < exp (/2) * exp (/2)) by nra.
  nra.
Qed.

(** X18: under CQL and for a positive [initial_alpha], [_setup_model]
    starts [log_alpha] at log(initial_alpha), so that the multiplier of the
    first conservative loss is [initial_alpha] clipped to [exp(-10), exp(2)]:
    it is [initial_alpha] itself in that range, which holds the default
    5.0; above exp(2), about 7.39, it is exp(2), [log_alpha] starts outside
    the clipping range and the loss of [update_alpha] has derivative 0
    there. *)
Theorem setup_cql_initial_multiplier (adam : R -> ScalarOpt) (initial_alpha : R) :
  0 < initial_alpha ->
  exists log_alpha,
    setup_cql adam true initial_alpha = Some (log_alpha, adam (lr_schedule 1))
    /\ clipped_alpha log_alpha = Rmin (Rmax initial_alpha (exp (-10))) (exp 2)
    /\ (exp (-10) <= initial_alpha <= exp 2 -> clipped_alpha log_alpha = initial_alpha)
    /\ (initial_alpha = 5 -> clipped_alpha log_alpha = 5)
    /\ (exp 2 < initial_alpha ->
        clipped_alpha log_alpha = exp 2
        /\ forall replay_data smp base phi,
             derivable_pt_lim
               (fun la => - conservative_loss_fwd hp replay_data smp base phi la)
               log_alpha 0).
Proof.
  intros Hpos. exists (ln (1 * initial_alpha)). split; [reflexivity|].
  rewrite Rmult_1_l.
  assert (Hclip : clipped_alpha (ln initial_alpha)
                  = Rmin (Rmax initial_alpha (exp (-10))) (exp 2)).
  { unfold clipped_alpha, clamp. now rewrite exp_Rmin, exp_Rmax, exp_ln. }
  assert (Hrange : exp (-10) <= initial_alpha <= exp 2 ->
                   clipped_alpha (ln initial_alpha) = initial_alpha).
  { intros [Hlo Hhi]. rewrite Hclip, Rmax_left by exact Hlo. now apply Rmin_left. }
  split; [exact Hclip | split; [exact Hrange | split]].
  - intros ->. apply Hrange. split.
    + assert (exp (-10) < exp 0) by (apply exp_increasing; lra).
      rewrite exp_0 in *. lra.
    + left. apply exp_2_above_5.
  - intros Habove. assert (Hexp : 0 < exp (-10) < exp 2).
    { split; [apply exp_pos | apply exp_increasing; lra]. }
    split.
    + rewrite Hclip, Rmax_left by lra. apply Rmin_right. lra.
    + intros replay_data smp base phi. apply alpha_loss_derivative_outside. right.
      rewrite <- (ln_exp 2). apply ln_increasing; [apply exp_pos | exact Habove].
Qed.

(** X19: the state dictionaries [get_torch_variables] names, "policy"
    apart, are exactly the optimizers a gradient step of [train] steps in
    the mode of the trainer: none is stepped without being saved and none is
    saved without being stepped.  "log_alpha" is a saved tensor exactly
    under CQL and "ent_coef_tensor" exactly with a fixed coefficient, while
    "log_ent_coef" is named in both modes, also with a fixed coefficient,
    where the attribute is [None]; none of the aliases that
    [excluded_save_params] adds is named. *)
Theorem saved_optimizers_are_those_stepped (s : Trainer) (i : Z) (name : string) :
  ((exists e, In e (step_events (is_auto (ent_coef_state s)) (use_cql s) i)
              /\ optimizer_name e = Some name)
   <-> In name (fst (get_torch_variables s)) /\ name <> "policy"%string)
  /\ (In "log_alpha"%string (snd (get_torch_variables s)) <-> use_cql s = true)
  /\ (In "ent_coef_tensor"%string (snd (get_torch_variables s))
      <-> is_auto (ent_coef_state s) = false)
  /\ In "log_ent_coef"%string (snd (get_torch_variables s))
  /\ (forall base, In name (excluded_save_params base) -> ~ In name base ->
                   ~ In name (fst (get_torch_variables s))
                   /\ ~ In name (snd (get_torch_variables s))).
Proof.
  assert (Hstep : forall e,
             In e (step_events (is_auto (ent_coef_state s)) (use_cql s) i)
             <-> (e = PolyakUpdate i /\ sync_due i = true)
                 \/ (e = AlphaOptimizerStep /\ use_cql s = true)
                 \/ e = ActorOptimizerStep \/ e = CriticOptimizerStep
                 \/ (e = EntCoefOptimizerStep /\ is_auto (ent_coef_state s) = true)).
  { intros e. unfold step_events.
    destruct (sync_due i), (use_cql s), (is_auto (ent_coef_state s)); cbn [app In];
      intuition (try congruence; try discriminate). }
  assert (Hdicts : forall n,
             In n (fst (get_torch_variables s))
             <-> n = "policy"%string \/ n = "actor.optimizer"%string
                 \/ n = "critic.optimizer"%string
                 \/ (n = "ent_coef_optimizer"%string /\ is_auto (ent_coef_state s) = true)
                 \/ (n = "alpha_optimizer"%string /\ use_cql s = true)).
  { intros n. unfold get_torch_variables.
    destruct (ent_coef_state s), (use_cql s); cbn [is_auto app fst In];
      intuition (try congruence; try discriminate). }
  assert (Htensors : forall n,
             In n (snd (get_torch_variables s))
             <-> n = "log_ent_coef"%string
                 \/ (n = "ent_coef_tensor"%string /\ is_auto (ent_coef_state s) = false)
                 \/ (n = "log_alpha"%string /\ use_cql s = true)).
  { intros n. unfold get_torch_variables.
    destruct (ent_coef_state s), (use_cql s); cbn [is_auto app snd In];
      intuition (try congruence; try discriminate). }
  split; [split | split; [| split; [| split]]].
  - intros (e & Hin & Hname). apply Hstep in Hin. rewrite Hdicts.
    destruct Hin as [[-> _] | [[-> Hc] | [-> | [-> | [-> Ha]]]]];
      cbn [optimizer_name] in Hname; try discriminate;
      injection Hname as <-; (split; [tauto | discriminate]).
  - intros [Hin Hne]. apply Hdicts in Hin.
    destruct Hin as [-> | [-> | [-> | [[-> Ha] | [-> Hc]]]]]; [congruence | | | |].
    + exists ActorOptimizerStep. rewrite Hstep. split; [tauto | reflexivity].
    + exists CriticOptimizerStep. rewrite Hstep. split; [tauto | reflexivity].
    + exists EntCoefOptimizerStep. rewrite Hstep. split; [tauto | reflexivity].
    + exists AlphaOptimizerStep. rewrite Hstep. split; [tauto | reflexivity].
  - rewrite Htensors. intuition discriminate.
  - rewrite Htensors. intuition discriminate.
  - rewrite Htensors. tauto.
  - intros base Hin Hbase. unfold excluded_save_params in Hin.
    apply in_app_or in Hin. destruct Hin as [Hin | Hin]; [contradiction|].
    rewrite Hdicts, Htensors. cbn [In] in Hin.
    destruct Hin as [<- | [<- | [<- | []]]]; intuition discriminate.
Qed.

(** *** [pretrain]: the advantage of two critics *)

Lemma policy_q_column (theta : ActorParams) (phi : CriticParams) (xi : Noise)
  (replay_data : ReplayBufferSamples) :
  n_critics = 2%nat ->
  th_min_star (critic_forward phi (observations replay_data)
                 (fst (action_log_prob theta xi (observations replay_data))))
  = Ok (Column (map (crr_policy_q theta phi xi) (indexed replay_data))).
Proof.
  intros Hn. rewrite (th_min_star_pair _ _ _ Hn). unfold observations.
  rewrite action_log_prob_rows. cbn [fst].
  rewrite (map_via_indexed observation replay_data).
  rewrite !zip_with_map_same. reflexivity.
Qed.

Lemma buffer_q_column (phi : CriticParams) (replay_data : ReplayBufferSamples) :
  n_critics = 2%nat ->
  th_min_star (critic_forward phi (observations replay_data) (actions replay_data))
  = Ok (Column (map (fun p => min_q_pair phi (observation (snd p)) (action (snd p)))
                  (indexed replay_data))).
Proof.
  intros Hn. rewrite (th_min_star_pair _ _ _ Hn). unfold observations, actions.
  rewrite (map_via_indexed observation replay_data), (map_via_indexed action replay_data).
  rewrite !zip_with_map_same. reflexivity.
Qed.

Lemma crr_aggregate_columns {X : Type} (reduce : string) (n_samples : nat)
  (F Q : X -> R) (l : list X) :
  crr_aggregate reduce n_samples (Some (Column (map F l))) (Column (map Q l))
  = Column (map (fun p => crr_aggregate_step reduce n_samples (F p) (Q p)) l).
Proof.
  unfold crr_aggregate, crr_aggregate_step.
  destruct (String.eqb reduce "max"); cbn [tensor_map tensor_map2].
  - now rewrite zip_with_map_same.
  - now rewrite map_map, zip_with_map_same.
Qed.

Lemma crr_sample_loop_columns (k n_samples : nat) (reduce : string)
  (replay_data : ReplayBufferSamples) (F : nat * Transition Obs Act -> R) (s : Trainer) :
  n_critics = 2%nat ->
  exists noises s',
    length noises = k
    /\ rng_only s s'
    /\ crr_sample_loop hp k n_samples reduce replay_data
         (Some (Column (map F (indexed replay_data)))) s
       = Ok (Some (Column
                     (map (fun p =>
                             fold_left (crr_aggregate_step reduce n_samples)
                               (map (fun xi => crr_policy_q (actor_params s)
                                                 (critic_params s) xi p) noises)
                               (F p))
                        (indexed replay_data))), s').
Proof.
  intros Hn. revert F s. induction k as [|k IH]; intros F s.
  - exists [], s. repeat split. apply rng_only_refl.
  - cbn [crr_sample_loop]. run_reset. run_simple. run_noise xi. run_simple.
    rewrite (bind_lift_ok _ _ _ _ (policy_q_column _ _ _ _ Hn)).
    rewrite crr_aggregate_columns.
    match goal with
    | |- context [crr_sample_loop hp k n_samples reduce replay_data
                    (Some (Column (map ?F' _))) ?S1] =>
        destruct (IH F' S1) as (noises & s' & Hlen & Fr & Hrun)
    end.
    cbn [actor_params critic_params set_rng] in Hrun.
    exists (xi :: noises), s'. split; [cbn [length]; now rewrite Hlen|].
    split.
    + eapply rng_only_trans; [| exact Fr].
      eapply rng_only_trans; apply rng_only_set.
    + exact Hrun.
Qed.

Lemma crr_aggregate_row_mean (reduce : string) (n_samples : nat) (qs : list R) :
  String.eqb reduce "max" = false ->
  (1 <= n_samples)%nat ->
  length qs = n_samples ->
  crr_aggregate_row reduce n_samples qs = tmean qs.
Proof.
  intros Hmax Hn Hlen. unfold crr_aggregate_row, tmean. rewrite Hlen.
  destruct qs as [|q qs]; [cbn [length] in Hlen; lia|].
  assert (H : forall l a, fold_left (crr_aggregate_step reduce n_samples) l a
                          = a + tsum l / INR n_samples).
  { induction l as [|x l IHl]; intros a; cbn [fold_left tsum fold_right].
    - unfold Rdiv. ring.
    - rewrite IHl. unfold crr_aggregate_step. rewrite Hmax.
      fold (tsum l). unfold Rdiv. ring. }
  rewrite Hmax, H. cbn [tsum fold_right]. fold (tsum qs). unfold Rdiv. ring.
Qed.

Lemma crr_aggregate_row_max (n_samples : nat) (qs : list R) :
  qs <> [] ->
  In (crr_aggregate_row "max" n_samples qs) qs
  /\ forall q, In q qs -> q <= crr_aggregate_row "max" n_samples qs.
Proof.
  intros Hqs. destruct qs as [|q0 qs]; [congruence|].
  unfold crr_aggregate_row. cbn [String.eqb Ascii.eqb Bool.eqb andb].
  assert (Hstep : forall a q, crr_aggregate_step "max" n_samples a q = Rmax a q).
  { intros a q. unfold crr_aggregate_step. cbn [String.eqb Ascii.eqb Bool.eqb andb].
    apply Rmax_comm. }
  assert (Hfold : forall l a, fold_left (crr_aggregate_step "max" n_samples) l a
                              = fold_left Rmax l a).
  { induction l as [|x l IHl]; intros a; cbn [fold_left]; [reflexivity|].
    now rewrite Hstep, IHl. }
  rewrite Hfold. apply fold_left_Rmax_spec.
Qed.

(** X20: with two critics and at least one action sample the advantage
    of [pretrain] is computed row by row: on row [b] it is
    min(Q1, Q2)(obs_b, action_b) minus the aggregate over the samples
    a_1, ..., a_n of the actor at obs_b of min(Q1, Q2)(obs_b, a_k), all for
    the current actor and critic parameters.  The aggregate is the mean for
    every [reduce] other than "max", and the largest value for "max". *)
Theorem crr_advantage_two_critics (n_samples : nat) (reduce : string)
  (replay_data : ReplayBufferSamples) (s : Trainer) :
  n_critics = 2%nat ->
  (1 <= n_samples)%nat ->
  exists noises s',
    length noises = n_samples
    /\ crr_advantage hp n_samples reduce replay_data s
       = Ok (Column
               (map (fun p =>
                       min_q_pair (critic_params s) (observation (snd p)) (action (snd p))
                       - crr_aggregate_row reduce n_samples
                           (map (fun xi => crr_policy_q (actor_params s) (critic_params s)
                                             xi p) noises))
                  (indexed replay_data)), s')
    /\ (String.eqb reduce "max" = false ->
        forall qs, length qs = n_samples -> crr_aggregate_row reduce n_samples qs = tmean qs)
    /\ (forall qs, qs <> [] ->
                   In (crr_aggregate_row "max" n_samples qs) qs
                   /\ forall q, In q qs -> q <= crr_aggregate_row "max" n_samples qs).
Proof.
  intros Hn Hsamples.
  assert (Hloop : forall k n, exists noises s',
             length noises = S k
             /\ crr_sample_loop hp (S k) n reduce replay_data None s
                = Ok (Some (Column
                              (map (fun p =>
                                      crr_aggregate_row reduce n
                                        (map (fun xi => crr_policy_q (actor_params s)
                                                          (critic_params s) xi p) noises))
                                 (indexed replay_data))), s')
             /\ rng_only s s').
  { intros k n. cbn [crr_sample_loop].
    run_reset. run_simple. run_noise xi. run_simple.
    rewrite (bind_lift_ok _ _ _ _ (policy_q_column _ _ _ _ Hn)).
    assert (Hfirst : crr_aggregate reduce n None
                       (Column (map (crr_policy_q (actor_params s) (critic_params s) xi)
                                  (indexed replay_data)))
                     = Column (map (fun p =>
                                      if String.eqb reduce "max"
                                      then crr_policy_q (actor_params s) (critic_params s) xi p
                                      else crr_policy_q (actor_params s) (critic_params s) xi p
                                           / INR n)
                                 (indexed replay_data))).
    { unfold crr_aggregate. destruct (String.eqb reduce "max"); cbn [tensor_map].
      - reflexivity.
      - now rewrite map_map. }
    rewrite Hfirst.
    match goal with
    | |- context [crr_sample_loop hp k n reduce replay_data
                    (Some (Column (map ?F' _))) ?S1] =>
        destruct (crr_sample_loop_columns k n reduce replay_data F' S1 Hn)
          as (noises & s' & Hlen & Fr & Hrun)
    end.
    cbn [actor_params critic_params set_rng] in Hrun.
    exists (xi :: noises), s'. split; [cbn [length]; lia|]. split.
    - exact Hrun.
    - eapply rng_only_trans; [| exact Fr].
      eapply rng_only_trans; apply rng_only_set. }
  assert (Hloop' : exists noises s',
             length noises = n_samples
             /\ crr_sample_loop hp n_samples n_samples reduce replay_data None s
                = Ok (Some (Column
                              (map (fun p =>
                                      crr_aggregate_row reduce n_samples
                                        (map (fun xi => crr_policy_q (actor_params s)
                                                          (critic_params s) xi p) noises))
                                 (indexed replay_data))), s')
             /\ rng_only s s').
  { destruct n_samples as [|k]; [lia|]. apply Hloop. }
  clear Hloop. rename Hloop' into Hloop.
  destruct Hloop as (noises & s' & Hlen & Hrun & Fr).
  exists noises, s'. split; [exact Hlen|]. split; [| split].
  - unfold crr_advantage. run_simple.
    rewrite (bind_lift_ok _ _ _ _ (buffer_q_column _ _ Hn)).
    run_with Hrun. cbn [tensor_map2]. rewrite zip_with_map_same. reflexivity.
  - intros Hmax qs Hqs. now apply crr_aggregate_row_mean.
  - intros qs Hqs. now apply crr_aggregate_row_max.
Qed.

(** *** [pretrain]: the advantage, by ensemble size *)

Lemma column_min_spec (t : list R) :
  t <> [] -> In (column_min t) t /\ forall y, In y t -> column_min t <= y.
Proof.
  destruct t as [|x xs]; [congruence|]. intros _. apply fold_left_Rmin_spec.
Qed.

Lemma th_min_star_single_value (phi : CriticParams) (obs : list Obs) (acts : list Act) :
  n_critics = 1%nat ->
  obs <> [] ->
  length acts = length obs ->
  th_min_star (critic_forward phi obs acts)
  = Ok (Scalar (column_min (zip_with (q_network phi 0) obs acts))).
Proof.
  intros Hn Hobs Hlen. rewrite critic_forward_single by exact Hn.
  destruct (zip_with (q_network phi 0) obs acts) as [|x xs] eqn:Hz; [| reflexivity].
  apply (f_equal (@length R)) in Hz.
  rewrite length_zip_with, Hlen, Nat.min_id in Hz.
  destruct obs; [congruence | discriminate].
Qed.

(** One [reset_noise(); action_log_prob(...)]: the noise read and the
    position of the streams afterwards. *)
Lemma sample_draw_run {B : Type} (K : ActorParams -> Noise -> M B) (s : Trainer) :
  bind (reset_noise hp)
    (fun _ => bind (gets actor_params)
                (fun theta => bind (call_noise hp) (fun xi => K theta xi))) s
  = K (actor_params s) (noise_stream (if use_sde hp then S (rng s) else rng s))
      (set_rng (S (rng s)) s).
Proof.
  unfold reset_noise, call_noise, bind, gets, modify, ret.
  destruct (use_sde hp); reflexivity.
Qed.

Lemma set_rng_same (s : Trainer) : set_rng (rng s) s = s.
Proof. now destruct s. Qed.

Lemma sample_noises_succ (s : Trainer) (k : nat) :
  sample_noises s (S k)
  = noise_stream (if use_sde hp then S (rng s) else rng s)
    :: sample_noises (set_rng (S (rng s)) s) k.
Proof.
  unfold sample_noises. cbn [rng set_rng]. destruct (use_sde hp); reflexivity.
Qed.

Lemma length_sample_noises (s : Trainer) (n : nat) : length (sample_noises s n) = n.
Proof. unfold sample_noises. now rewrite length_map, length_seq. Qed.

Lemma crr_aggregate_scalars (reduce : string) (n_samples : nat) (a q : R) :
  crr_aggregate reduce n_samples (Some (Scalar a)) (Scalar q)
  = Scalar (crr_aggregate_step reduce n_samples a q).
Proof.
  unfold crr_aggregate, crr_aggregate_step.
  destruct (String.eqb reduce "max"); reflexivity.
Qed.

Lemma crr_sample_loop_scalars (k n_samples : nat) (reduce : string)
  (replay_data : ReplayBufferSamples) (a : R) (s : Trainer) :
  n_critics = 1%nat ->
  replay_data <> [] ->
  crr_sample_loop hp k n_samples reduce replay_data (Some (Scalar a)) s
  = Ok (Some (Scalar
                (fold_left (crr_aggregate_step reduce n_samples)
                   (map (fun xi => batch_min_policy_q (actor_params s) (critic_params s)
                                     xi replay_data) (sample_noises s k))
                   a)),
        set_rng (rng s + k) s).
Proof.
  intros Hn Hbatch.
  assert (Hobs : observations replay_data <> []).
  { unfold observations. destruct replay_data; [congruence | discriminate]. }
  revert a s. induction k as [|k IH]; intros a s.
  - cbn [crr_sample_loop sample_noises seq map fold_left].
    now rewrite Nat.add_0_r, set_rng_same.
  - cbn [crr_sample_loop]. rewrite sample_draw_run. rewrite bind_gets. fields.
    rewrite (bind_lift_ok _ _ _ _
               (th_min_star_single_value (critic_params s) _ _ Hn Hobs
                  (proj1 (action_log_prob_length _ _ _)))).
    rewrite crr_aggregate_scalars, IH, sample_noises_succ. cbn [map fold_left]. fields.
    now rewrite Nat.add_succ_r.
Qed.

Lemma crr_sample_loop_columns_exact (k n_samples : nat) (reduce : string)
  (replay_data : ReplayBufferSamples) (F : nat * Transition Obs Act -> R) (s : Trainer) :
  n_critics = 2%nat ->
  crr_sample_loop hp k n_samples reduce replay_data
    (Some (Column (map F (indexed replay_data)))) s
  = Ok (Some (Column
                (map (fun p =>
                        fold_left (crr_aggregate_step reduce n_samples)
                          (map (fun xi => crr_policy_q (actor_params s) (critic_params s)
                                            xi p) (sample_noises s k))
                          (F p))
                   (indexed replay_data))),
        set_rng (rng s + k) s).
Proof.
  intros Hn. revert F s. induction k as [|k IH]; intros F s.
  - cbn [crr_sample_loop sample_noises seq map fold_left].
    now rewrite Nat.add_0_r, set_rng_same.
  - cbn [crr_sample_loop]. rewrite sample_draw_run. rewrite bind_gets. fields.
    rewrite (bind_lift_ok _ _ _ _ (policy_q_column _ _ _ _ Hn)).
    rewrite crr_aggregate_columns, IH, sample_noises_succ. cbn [map fold_left]. fields.
    now rewrite Nat.add_succ_r.
Qed.

Lemma crr_sample_loop_none_scalars (k n_samples : nat) (reduce : string)
  (replay_data : ReplayBufferSamples) (s : Trainer) :
  n_critics = 1%nat ->
  replay_data <> [] ->
  crr_sample_loop hp (S k) n_samples reduce replay_data None s
  = Ok (Some (Scalar
                (crr_aggregate_row reduce n_samples
                   (map (fun xi => batch_min_policy_q (actor_params s) (critic_params s)
                                     xi replay_data) (sample_noises s (S k))))),
        set_rng (rng s + S k) s).
Proof.
  intros Hn Hbatch.
  assert (Hobs : observations replay_data <> []).
  { unfold observations. destruct replay_data; [congruence | discriminate]. }
  cbn [crr_sample_loop]. rewrite sample_draw_run, bind_gets. fields.
  rewrite (bind_lift_ok _ _ _ _
             (th_min_star_single_value (critic_params s) _ _ Hn Hobs
                (proj1 (action_log_prob_length _ _ _)))).
  match goal with
  | |- context [crr_aggregate reduce n_samples None (Scalar ?q)] =>
      assert (crr_aggregate reduce n_samples None (Scalar q)
              = Scalar (if String.eqb reduce "max" then q else q / INR n_samples)) as ->
        by (unfold crr_aggregate; destruct (String.eqb reduce "max"); reflexivity)
  end.
  rewrite (crr_sample_loop_scalars _ _ _ _ _ _ Hn Hbatch), sample_noises_succ.
  cbn [map crr_aggregate_row]. fields. now rewrite Nat.add_succ_r.
Qed.

Lemma crr_sample_loop_none_columns (k n_samples : nat) (reduce : string)
  (replay_data : ReplayBufferSamples) (s : Trainer) :
  n_critics = 2%nat ->
  crr_sample_loop hp (S k) n_samples reduce replay_data None s
  = Ok (Some (Column
                (map (fun p =>
                        crr_aggregate_row reduce n_samples
                          (map (fun xi => crr_policy_q (actor_params s) (critic_params s)
                                            xi p) (sample_noises s (S k))))
                   (indexed replay_data))),
        set_rng (rng s + S k) s).
Proof.
  intros Hn. cbn [crr_sample_loop]. rewrite sample_draw_run, bind_gets. fields.
  rewrite (bind_lift_ok _ _ _ _ (policy_q_column _ _ _ _ Hn)).
  match goal with
  | |- context [crr_aggregate reduce n_samples None (Column (map ?Q ?l))] =>
      assert (crr_aggregate reduce n_samples None (Column (map Q l))
              = Column (map (fun p => if String.eqb reduce "max" then Q p
                                      else Q p / INR n_samples) l)) as ->
        by (unfold crr_aggregate; destruct (String.eqb reduce "max"); cbn [tensor_map];
            [reflexivity | now rewrite map_map])
  end.
  rewrite (crr_sample_loop_columns_exact _ _ _ _ _ _ Hn), sample_noises_succ.
  cbn [map crr_aggregate_row]. fields. now rewrite Nat.add_succ_r.
Qed.

(** C10: in [pretrain] with a strategy other than "bc", a non-empty batch
    and at least one action sample, an ensemble of one critic makes
    [qf_buffer] the smallest value of the critic over the whole batch at the
    batch actions and every [qf_pi] the smallest value over the whole batch
    at the actions of one sample, 0-dim tensors, and the advantage is the
    one number qf_buffer minus the aggregate of the [qf_pi] of the
    [n_action_samples] samples (their mean, or their maximum for "max"), so
    every row of the actor loss is weighted by the same weight; with two
    critics the minimum is taken entry by entry and the advantage has on
    each row the smaller of the two critics at the batch action of the row
    minus the aggregate over the samples of the smaller of the two at the
    sampled action of the row; no other ensemble size is accepted by
    [th.min]. *)
Theorem crr_single_critic_scalar_advantage (n_samples : nat) (reduce : string)
  (replay_data : ReplayBufferSamples) (s : Trainer) :
  replay_data <> [] ->
  (1 <= n_samples)%nat ->
  (n_critics = 1%nat ->
   (forall phi acts,
       length acts = length replay_data ->
       exists m,
         th_min_star (critic_forward phi (observations replay_data) acts) = Ok (Scalar m)
         /\ In m (zip_with (q_network phi 0) (observations replay_data) acts)
         /\ forall y, In y (zip_with (q_network phi 0) (observations replay_data) acts) ->
                      m <= y)
   /\ (let qf_buffer := batch_min_q (critic_params s) replay_data in
       let qf_pi := fun xi => batch_min_policy_q (actor_params s) (critic_params s) xi
                                replay_data in
       let a := qf_buffer
                - crr_aggregate_row reduce n_samples
                    (map qf_pi (sample_noises s n_samples)) in
       let s' := set_rng (rng s + n_samples) s in
       crr_advantage hp n_samples reduce replay_data s = Ok (Scalar a, s')
       /\ (In qf_buffer (zip_with (q_network (critic_params s) 0)
                           (observations replay_data) (actions replay_data))
           /\ forall y, In y (zip_with (q_network (critic_params s) 0)
                                (observations replay_data) (actions replay_data)) ->
                        qf_buffer <= y)
       /\ (forall xi,
              let column :=
                zip_with (q_network (critic_params s) 0) (observations replay_data)
                  (fst (action_log_prob (actor_params s) xi (observations replay_data))) in
              In (qf_pi xi) column /\ forall y, In y column -> qf_pi xi <= y)
       /\ crr_weight hp n_samples "binary" reduce 1 replay_data s
          = Ok (Scalar (positive_indicator a), s')
       /\ forall theta,
            pretrain_actor_loss_fwd replay_data (Scalar (positive_indicator a)) theta
            = tmean (map (fun lp => - lp * positive_indicator a)
                       (evaluate_actions theta (observations replay_data)
                          (actions replay_data)))))
  /\ (n_critics = 2%nat ->
      (forall phi acts,
          th_min_star (critic_forward phi (observations replay_data) acts)
          = Ok (Column (zip_with Rmin
                          (zip_with (q_network phi 0) (observations replay_data) acts)
                          (zip_with (q_network phi 1) (observations replay_data) acts))))
      /\ (let adv :=
            map (fun p =>
                   min_q_pair (critic_params s) (observation (snd p)) (action (snd p))
                   - crr_aggregate_row reduce n_samples
                       (map (fun xi => crr_policy_q (actor_params s) (critic_params s)
                                         xi p) (sample_noises s n_samples)))
              (indexed replay_data) in
          crr_advantage hp n_samples reduce replay_data s
          = Ok (Column adv, set_rng (rng s + n_samples) s)
          /\ length adv = length replay_data))
  /\ (n_critics <> 1%nat -> n_critics <> 2%nat ->
      crr_advantage hp n_samples reduce replay_data s = Raise TypeError)
  /\ (String.eqb reduce "max" = false ->
      forall qs, length qs = n_samples -> crr_aggregate_row reduce n_samples qs = tmean qs)
  /\ (forall qs, qs <> [] ->
                 In (crr_aggregate_row "max" n_samples qs) qs
                 /\ forall q, In q qs -> q <= crr_aggregate_row "max" n_samples qs).
Proof.
  intros Hbatch Hsamples.
  assert (Hobs : observations replay_data <> []).
  { unfold observations. destruct replay_data; [congruence | discriminate]. }
  assert (HB : length (observations replay_data) = length replay_data)
    by (unfold observations; apply length_map).
  assert (HA : length (actions replay_data) = length (observations replay_data))
    by (unfold actions, observations; now rewrite !length_map).
  assert (Hnonempty : forall (f : Obs -> Act -> R) acts,
             length acts = length (observations replay_data) ->
             zip_with f (observations replay_data) acts <> []).
  { intros f acts Hlen Hnil. apply (f_equal (@length R)) in Hnil.
    rewrite length_zip_with, Hlen, Nat.min_id in Hnil.
    destruct (observations replay_data); [congruence | discriminate]. }
  split; [| split; [| split; [| split]]].
  - intros Hn. split.
    + intros phi acts Hlen. apply th_min_star_single; congruence.
    + cbv zeta.
      assert (Hadv : crr_advantage hp n_samples reduce replay_data s
                     = Ok (Scalar (batch_min_q (critic_params s) replay_data
                                   - crr_aggregate_row reduce n_samples
                                       (map (fun xi => batch_min_policy_q (actor_params s)
                                                         (critic_params s) xi replay_data)
                                          (sample_noises s n_samples))),
                           set_rng (rng s + n_samples) s)).
      { unfold crr_advantage. run_simple.
        rewrite (bind_lift_ok _ _ _ _
                   (th_min_star_single_value (critic_params s) _ _ Hn Hobs HA)).
        destruct n_samples as [|k]; [lia|].
        rewrite (bind_ok _ _ _ _ _ (crr_sample_loop_none_scalars k _ _ _ _ Hn Hbatch)).
        reflexivity. }
      split; [exact Hadv | split; [| split; [| split]]].
      * apply column_min_spec, Hnonempty, HA.
      * intros xi. cbv zeta. apply column_min_spec, Hnonempty.
        apply (proj1 (action_log_prob_length _ _ _)).
      * unfold crr_weight. cbn [String.eqb Ascii.eqb Bool.eqb]. run_with Hadv. reflexivity.
      * intros theta. apply pretrain_actor_loss_scalar.
  - intros Hn. split.
    + intros phi acts. now apply th_min_star_pair.
    + cbv zeta. split; [| now rewrite length_map, indexed_length].
      unfold crr_advantage. run_simple.
      rewrite (bind_lift_ok _ _ _ _ (buffer_q_column _ _ Hn)).
      destruct n_samples as [|k]; [lia|].
      rewrite (bind_ok _ _ _ _ _ (crr_sample_loop_none_columns k _ _ _ _ Hn)).
      cbv beta. cbn [tensor_map2]. now rewrite zip_with_map_same.
  - intros H1 H2. unfold crr_advantage. run_simple. unfold bind, lift.
    now rewrite th_min_star_other.
  - intros Hmax qs Hqs. now apply crr_aggregate_row_mean.
  - intros qs Hqs. now apply crr_aggregate_row_max.
Qed.

(** *** [train]: the loss of the critic *)

(** Runs the conservative loss and keeps the equation of its base. *)
Ltac run_conservative_base la aopt H1 Hns Hdraw Hc :=
  match goal with
  | |- context [bind (_compute_conservative_loss ?h ?rd) _ ?S] =>
      let smp := fresh "smp" in let base := fresh "base" in
      let s' := fresh "s" in let F := fresh "F" in let Hrun := fresh "Hrun" in
      let Hbase := fresh "Hbase" in
      destruct (compute_conservative_loss_run rd S la aopt H1 Hns (Hdraw _ _ _) Hc)
        as (smp & base & s' & _ & F & Hbase & _ & Hrun);
      cbn [critic_params set_rng set_events set_ent_coef_state set_replay_buffer_ent_coef]
        in Hbase;
      rewrite (bind_ok _ _ _ _ _ Hrun); cbv beta; clear Hrun; frame_subst F s'; fields
  end.

(** Runs a step of [train] from [s] up to the test of the synchronisation
    interval, keeping the equation of the base of the conservative loss. *)
Ltac train_step_to_sync_base s Hn Hcql :=
  unfold train_step;
  rewrite bind_replay_buffer_sample; cbv beta;
  run_reset; run_simple;
  let xi := fresh "xi" in run_noise xi; run_simple;
  rewrite (bind_ok _ _ _ _ _ (optimize_ent_coef_run _ _ _)); cbv beta;
  let xi' := fresh "xi'" in run_noise xi';
  unfold use_cql in Hcql;
  let l := fresh "l" in let o := fresh "o" in let c := fresh "c" in
  let la := fresh "la" in let aopt := fresh "aopt" in
  destruct (ent_coef_state s) as [l o | c] eqn:He;
    destruct (cql s) as [[la aopt]|] eqn:Hc;
    run_simple;
    rewrite (bind_lift_ok _ _ _ _ (train_q_backup_rows _ _ _ _ _ Hn));
    run_simple; rewrite Hc; cbv iota; run_simple;
    [ let H1 := fresh "H1" in let Hns := fresh "Hns" in let Hdraw := fresh "Hdraw" in
      destruct Hcql as (H1 & Hns & Hdraw); [reflexivity|];
      run_conservative_base la aopt H1 Hns Hdraw Hc; run_simple;
      match goal with
      | |- context [bind get_log_alpha _ ?S] => rewrite (bind_get_log_alpha _ S la aopt Hc)
      end;
      run_simple; run_actor_loss Hn; run_simple;
      run_update_alpha la aopt H1 Hns Hdraw Hc
    | run_actor_loss Hn; run_simple
    | let H1 := fresh "H1" in let Hns := fresh "Hns" in let Hdraw := fresh "Hdraw" in
      destruct Hcql as (H1 & Hns & Hdraw); [reflexivity|];
      run_conservative_base la aopt H1 Hns Hdraw Hc; run_simple;
      match goal with
      | |- context [bind get_log_alpha _ ?S] => rewrite (bind_get_log_alpha _ S la aopt Hc)
      end;
      run_simple; run_actor_loss Hn; run_simple;
      run_update_alpha la aopt H1 Hns Hdraw Hc
    | run_actor_loss Hn; run_simple ].

(** X21: in a step of [train] from a ready trainer the loss appended to
    [critic_losses] is the temporal-difference part
    0.5 * sum(mse_loss(current_q, q_backup)) alone, computed before the
    step, also under CQL, where the critic optimizer steps on that part plus
    the conservative loss, taken as a function of the critic parameters for
    the samples drawn, the [base] computed before the step and the current
    [log_alpha]; without CQL the optimizer steps on the logged loss. *)
Theorem train_step_critic_loss (batch_size : nat) (logs : Logs) (i : Z) (s : Trainer) :
  train_ready batch_size s ->
  exists logs' s' q_backup graph,
    train_step hp batch_size logs i s = Ok (logs', s')
    /\ train_step_critic_post batch_size logs s q_backup graph logs' s'.
Proof.
  intros (Hn & Htui & Hcql).
  train_step_to_sync_base s Hn Hcql.
  all: rewrite (bind_lift_ok _ _ _ _ (mod_is_zero_ok _ _ Htui));
    destruct (Z.eqb (i mod target_update_interval hp) 0) eqn:Hsync; run_simple;
    eexists _, _, _, _; (split; [reflexivity|]);
    unfold train_step_critic_post; cbv zeta; fields; rewrite ?He, ?Hc;
    (split; [eexists; apply (train_q_backup_rows _ _ _ _ _ Hn)|]);
    (split; [reflexivity|]); (split; [reflexivity|]);
    first [reflexivity | eexists _, _; split; [eassumption | reflexivity]].
Qed.

(** *** The conservative loss and the layout of the log-probabilities *)

Lemma ln_midpoint_strict (p q : R) :
  0 < p -> 0 < q -> p <> q -> (ln p + ln q) / 2 < ln ((p + q) / 2).
Proof.
  intros Hp Hq Hne.
  assert (Hm : 0 < (p + q) / 2) by lra.
  assert (H : ln (p * q) < ln ((p + q) / 2 * ((p + q) / 2))).
  { apply ln_increasing; [nra|]. assert (0 < (p - q) * (p - q)) by nra. nra. }
  rewrite !ln_mult in H by assumption. lra.
Qed.

Lemma tmean_pair (a b : R) : tmean [a; b] = (a + b) / 2.
Proof. unfold tmean, tsum. cbn [fold_right length INR]. lra. Qed.

End Properties.

(** ** The theorems at work in the concrete world *)

(** The toy trainer with one critic is ready for [train]. *)
Ltac toy_ready :=
  split;
  [ simpl; lia
  | split;
    [ discriminate
    | intros _; split; [reflexivity | split; [simpl; lia | intros; discriminate]] ] ].

(** The conservative loss of the toy batch with one critic. *)
Lemma conservative_loss_formula_witness :
  @n_critics (toy_world 1 5) = 1%nat
  /\ (1 <= n_action_samples toy_hp)%nat
  /\ exists loss s',
       @_compute_conservative_loss (toy_world 1 5) toy_hp toy_batch (toy_trainer 1 5)
       = Ok (loss, s').
Proof.
  split; [reflexivity | split; [simpl; lia|]].
  destruct (@conservative_loss_formula (toy_world 1 5) toy_hp toy_batch (toy_trainer 1 5)
              0 0%nat)
    as (smp & base & loss & s' & _ & _ & _ & Hrun & _);
    [reflexivity | simpl; lia | discriminate | reflexivity |].
  exists loss, s'. exact Hrun.
Defined.

(** The bootstrap targets of the toy batch with two target critics. *)
Lemma q_backup_is_bootstrap_target_witness :
  (1 <= @n_critics (toy_world 2 5))%nat
  /\ @train_q_backup (toy_world 2 5) toy_hp 0 0%nat 0 0 toy_batch
     = Ok (@bootstrap_targets (toy_world 2 5) toy_hp 0 0%nat 0 0 toy_batch).
Proof.
  split; [simpl; lia|].
  apply (@q_backup_is_bootstrap_target (toy_world 2 5) toy_hp 0 0%nat 0 0 toy_batch).
  simpl; lia.
Defined.

(** With two critics the conservative loss raises the assertion error. *)
Lemma conservative_loss_single_critic_assertion_witness :
  @_compute_conservative_loss (toy_world 2 5) toy_hp toy_batch (toy_trainer 2 5)
  = Raise AssertionError.
Proof.
  apply (@conservative_loss_single_critic_assertion (toy_world 2 5) toy_hp toy_batch
           (toy_trainer 2 5)).
  reflexivity.
Defined.

(** A step of [train] from [log_ent_coef = 0] logs the coefficient exp 0. *)
Lemma train_step_ent_coef_lag_witness :
  @train_ready (toy_world 1 5) toy_hp 2 (toy_trainer 1 5)
  /\ exists logs' s',
       @train_step (toy_world 1 5) toy_hp 2 empty_logs 0 (toy_trainer 1 5) = Ok (logs', s')
       /\ ent_coefs logs' = [exp 0].
Proof.
  split; [toy_ready|].
  destruct (@train_step_ent_coef_lag (toy_world 1 5) toy_hp 2 empty_logs 0
              (toy_trainer 1 5) 0 0%nat)
    as (xi & xi' & phi' & q_backup & actor_loss & logs' & s' & Hrun & Hcoef & _);
    [toy_ready | reflexivity |].
  exists logs', s'. split; [exact Hrun | exact Hcoef].
Defined.

(** The scenario with two critics: the loss is the mean squared error. *)
Lemma constant_critic_scenario_witness :
  @train_q_backup (toy_world 2 5) toy_hp 0 0%nat 0 0 toy_batch = Ok [5.95; 0]
  /\ @critic_loss_fwd (toy_world 2 5) toy_batch [5.95; 0] 0 = mse_loss [5; 5] [5.95; 0].
Proof.
  destruct (@constant_critic_scenario (toy_world 2 5) toy_hp 0 0%nat 0 0 toy_batch)
    as (Htargets & _ & _ & Hloss);
    [reflexivity | simpl; lia | reflexivity | reflexivity | reflexivity |].
  split; [exact Htargets | apply (proj1 Hloss); reflexivity].
Defined.

(** The scenario with one critic: the targets are [5.95, 0] and the critic
    loss is 6.475625, half of the mean squared error 12.95125 between the
    constant output 5 and the targets. *)
Lemma constant_critic_scenario_one_critic :
  @train_q_backup (toy_world 1 5) toy_hp 0 0%nat 0 0 toy_batch = Ok [5.95; 0]
  /\ @critic_loss_fwd (toy_world 1 5) toy_batch [5.95; 0] 0 = 6.475625
  /\ mse_loss [5; 5] [5.95; 0] = 12.95125
  /\ @critic_loss_fwd (toy_world 1 5) toy_batch [5.95; 0] 0 <> mse_loss [5; 5] [5.95; 0].
Proof.
  assert (Hmse : mse_loss [5; 5] [5.95; 0] = 12.95125).
  { unfold mse_loss, tmean, tsum, zip_with. cbn [combine map fold_right List.length fst snd INR].
    lra. }
  assert (Hloss : @critic_loss_fwd (toy_world 1 5) toy_batch [5.95; 0] 0 = 6.475625).
  { rewrite (@critic_loss_same_outputs (toy_world 1 5) toy_batch [5.95; 0] [5; 5] 0)
      by reflexivity.
    rewrite Hmse. cbn [n_critics toy_world INR]. lra. }
  split; [| split; [exact Hloss | split; [exact Hmse|]]].
  - rewrite (@train_q_backup_rows (toy_world 1 5)) by (simpl; lia).
    unfold bootstrap_targets, indexed, bootstrap_target, min_q, toy_batch.
    cbn. unfold Ok. do 2 f_equal; [lra | f_equal; lra].
  - rewrite Hloss, Hmse. lra.
Qed.

(** Five steps with an interval of 2: [polyak_update] at steps 0, 2, 4. *)
Lemma train_polyak_schedule_witness :
  @train_ready (toy_world 1 5) toy_hp 2 (toy_trainer 1 5)
  /\ exists logs s',
       @train (toy_world 1 5) toy_hp 5 2 (toy_trainer 1 5) = Ok (logs, s')
       /\ polyak_steps (events s') = [4; 2; 0]%Z.
Proof.
  split; [toy_ready|].
  destruct (@train_polyak_schedule (toy_world 1 5) toy_hp 5 2 (toy_trainer 1 5))
    as (logs & s' & synced & Hrun & Hpolyak & _ & _ & Hconcrete);
    [toy_ready|].
  exists logs, s'. split; [exact Hrun|].
  destruct Hconcrete as [Hsynced _]; [reflexivity | reflexivity|].
  rewrite Hpolyak, Hsynced. reflexivity.
Defined.

(** A "bc" iteration of [pretrain] in the toy world. *)
Lemma pretrain_bc_weight_witness :
  (1 <= @n_critics (toy_world 2 5))%nat
  /\ @crr_weight (toy_world 2 5) toy_hp 4 "bc" "mean" 1 toy_batch (toy_trainer 2 5)
     = Ok (Scalar 1, toy_trainer 2 5)
  /\ exists logs' s',
       @pretrain_update (toy_world 2 5) toy_hp 2 4 100 "bc" "mean" 1 toy_pretrain_logs 0
         (toy_trainer 2 5) = Ok (logs', s').
Proof.
  split; [simpl; lia|].
  destruct (@pretrain_bc_weight (toy_world 2 5) toy_hp 2 4 100%Z "mean"%string 1
              toy_pretrain_logs 0%Z (toy_trainer 2 5))
    as (Hweight & _ & Hrun).
  split; [apply Hweight|].
  destruct Hrun as (logs' & s' & Hrun & _); [simpl; lia | discriminate |].
  exists logs', s'. exact Hrun.
Defined.

(** A "bc" iteration of [pretrain] with off_policy_update_freq = -1 leaves
    the entropy coefficient of the toy trainer as it was. *)
Lemma pretrain_step_freezes_ent_coef_witness :
  exists logs' s',
    @pretrain_step (toy_world 2 5) toy_hp 2 4 100 "bc" "mean" 1 (-1) toy_pretrain_logs 0
      (toy_trainer 2 5) = Ok (logs', s')
    /\ ent_coef_state s' = @AutoEntCoef (toy_world 2 5) 0 0%nat
    /\ ent_coef_steps (events s') = 0%nat.
Proof.
  destruct (@pretrain_update_bc_run (toy_world 2 5) toy_hp 2 4 100%Z "mean"%string 1
              toy_pretrain_logs 0%Z (toy_trainer 2 5))
    as (logs' & s' & Hrun & _); [simpl; lia | discriminate |].
  exists logs', s'. split; [exact Hrun|].
  apply (@pretrain_step_freezes_ent_coef (toy_world 2 5) toy_hp 2 4 100%Z "bc"%string
           "mean"%string 1 (-1)%Z toy_pretrain_logs 0%Z (toy_trainer 2 5) logs' s').
  - left. lia.
  - exact Hrun.
Defined.

(** With one critic the advantage of the toy batch is a 0-dim tensor. *)
Lemma crr_single_critic_scalar_advantage_witness :
  @n_critics (toy_world 1 5) = 1%nat
  /\ exists a s',
       @crr_advantage (toy_world 1 5) toy_hp 4 "mean" toy_batch (toy_trainer 1 5)
       = Ok (Scalar a, s').
Proof.
  split; [reflexivity|].
  destruct (@crr_single_critic_scalar_advantage (toy_world 1 5) toy_hp 4 "mean"%string
              toy_batch (toy_trainer 1 5))
    as (Hone & _); [discriminate | lia |].
  destruct Hone as (_ & Hadv & _); [reflexivity|].
  eexists _, _. exact Hadv.
Defined.

(** The layout of the policy samples in [_compute_conservative_loss], on a
    batch of three observations with two action samples drawn under the
    noises 1 and 2: entry [b, j] of the policy actions is sample [j] at
    observation [b], as [th.cat(policy_actions, dim=1)] arranges them, while
    [th.cat(n_log_probs).view(batch, n, 1)] fills its rows from the
    concatenation of the two log-probability vectors, so entry [b, j] of
    [log_probs] is the log-probability of sample [(2 b + j) / 3] at
    observation [(2 b + j) mod 3]. *)
Example conservative_samples_layout :
  exists smp s',
    @conservative_samples labelled_world toy_hp labelled_batch labelled_trainer = Ok (smp, s')
    /\ view_rows 3 2 (flat_policy_acts smp)
       = [ [(1, 0); (2, 0)]; [(1, 1); (2, 1)]; [(1, 2); (2, 2)] ]%nat
    /\ log_probs smp = [ [10; 11]; [12; 20]; [21; 22] ].
Proof.
  eexists _, _. split; [vm_compute; reflexivity|]. split; vm_compute; reflexivity.
Qed.


(** Two samples on a batch of two rows: entry [1, 0] of the actions is
    sample 0 at row 1, entry [1, 0] of the log-probabilities is entry 2 of
    the concatenation, sample 1 at row 0. *)
Lemma policy_sample_layout_witness :
  exists action_rows log_prob_rows,
    @cat_policy_actions (toy_world 1 5) 2 [[1; 2]; [3; 4]] = Ok action_rows
    /\ (flat <~ cat_dim0 [[10; 20]; [30; 40]] ;; view 2 2 flat) = Ok log_prob_rows
    /\ nth 0 (nth 1 action_rows []) 0 = nth 1 (nth 0 [[1; 2]; [3; 4]] []) 0
    /\ nth 0 (nth 1 log_prob_rows []) 0
       = nth ((1 * 2 + 0) mod 2) (nth ((1 * 2 + 0) / 2) [[10; 20]; [30; 40]] []) 0.
Proof.
  apply (@policy_sample_layout (toy_world 1 5) 2 2 [[1; 2]; [3; 4]] [[10; 20]; [30; 40]]
           1 0 0);
    [lia | lia | reflexivity | reflexivity | repeat constructor | repeat constructor].
Defined.

(** The first target of the toy batch with two target critics is at most
    what critic 0 alone gives. *)
Lemma bootstrap_target_pessimistic_witness :
  exists targets t,
    @train_q_backup (toy_world 2 5) toy_hp 0 0%nat 0 0 toy_batch = Ok targets
    /\ nth_error targets 0 = Some t
    /\ t <= 1 + (1 - 0) * 0.99 * (5 - 0 * 0).
Proof.
  eexists _, _.
  split; [apply (@train_q_backup_rows (toy_world 2 5)); simpl; lia|].
  split; [reflexivity|].
  apply (@bootstrap_target_pessimistic (toy_world 2 5) toy_hp 0 0%nat 0 0 toy_batch
           (@bootstrap_targets (toy_world 2 5) toy_hp 0 0%nat 0 0 toy_batch) 0%nat
           {| observation := 0; action := 0; next_observation := 0; done := 0;
              reward := 1 |} _ 0%nat).
  - left. apply (@train_q_backup_rows (toy_world 2 5)). simpl; lia.
  - reflexivity.
  - reflexivity.
  - simpl; lia.
  - simpl; lra.
  - simpl; lra.
Defined.

(** The samples and the base of the toy batch with one critic. *)
Lemma conservative_loss_exponents_bounded_witness :
  @n_critics (toy_world 1 5) = 1%nat
  /\ exists smp base s',
       @conservative_samples (toy_world 1 5) toy_hp toy_batch (toy_trainer 1 5)
       = Ok (smp, s')
       /\ @cql_base (toy_world 1 5) toy_hp toy_batch smp 0 = Ok base.
Proof.
  split; [reflexivity|].
  destruct (@conservative_loss_exponents_bounded (toy_world 1 5) toy_hp toy_batch
              (toy_trainer 1 5) 0 0%nat)
    as (smp & base & s' & Hrun & Hbase & _);
    [reflexivity | simpl; lia | discriminate | reflexivity |].
  exists smp, base, s'. split; [exact Hrun | exact Hbase].
Defined.

(** The alpha step of the toy trainer with one critic. *)
Lemma update_alpha_gradient_witness :
  @n_critics (toy_world 1 5) = 1%nat
  /\ exists s', @update_alpha (toy_world 1 5) toy_hp toy_batch (toy_trainer 1 5)
                = Ok (tt, s').
Proof.
  split; [reflexivity|].
  destruct (@update_alpha_gradient (toy_world 1 5) toy_hp toy_batch (toy_trainer 1 5)
              0 0%nat)
    as (smp & base & s1 & _ & _ & Hrun & _);
    [reflexivity | simpl; lia | discriminate | reflexivity |].
  eexists. exact Hrun.
Defined.

(** The critic loss of the toy batch for the targets [5.95, 0]. *)
Lemma critic_loss_nonneg_witness :
  length [5.95; 0] = length toy_batch
  /\ 0 <= @critic_loss_fwd (toy_world 1 5) toy_batch [5.95; 0] 0.
Proof.
  split; [reflexivity|].
  apply (@critic_loss_nonneg (toy_world 1 5) toy_batch [5.95; 0] 0);
    [discriminate | reflexivity].
Defined.

(** The "binary" weight of the toy batch with one critic. *)
Lemma crr_weight_range_witness :
  exists weight s',
    @crr_weight (toy_world 1 5) toy_hp 2 "binary" "mean" 1 toy_batch (toy_trainer 1 5)
    = Ok (weight, s')
    /\ tensor_all (fun x => x = 0 \/ x = 1) weight.
Proof.
  eexists _, _. split; [vm_compute; reflexivity|].
  refine (proj2 (@crr_weight_range (toy_world 1 5) toy_hp 2 "binary" "mean" 1 toy_batch
                   (toy_trainer 1 5) _ _ _ _) eq_refl);
    [lra | vm_compute; reflexivity].
Defined.

(** The first step of the toy trainer: every optimizer steps, then
    [polyak_update]. *)
Lemma train_step_call_order_witness :
  @train_ready (toy_world 1 5) toy_hp 2 (toy_trainer 1 5)
  /\ exists logs' s',
       @train_step (toy_world 1 5) toy_hp 2 empty_logs 0 (toy_trainer 1 5) = Ok (logs', s')
       /\ events s' = [PolyakUpdate 0; AlphaOptimizerStep; ActorOptimizerStep;
                       CriticOptimizerStep; EntCoefOptimizerStep].
Proof.
  split; [toy_ready|].
  destruct (@train_step_call_order (toy_world 1 5) toy_hp 2 empty_logs 0 (toy_trainer 1 5))
    as (logs' & s' & Hrun & Hev & _); [toy_ready|].
  exists logs', s'. split; [exact Hrun|]. rewrite Hev. reflexivity.
Defined.

(** Three steps with an interval of 0. *)
Lemma train_zero_interval_witness :
  target_update_interval zero_interval_hp = 0%Z
  /\ @train (toy_world 1 5) zero_interval_hp 3 2 (toy_trainer 1 5)
     = Raise ZeroDivisionError.
Proof.
  split; [reflexivity|].
  destruct (@train_zero_interval (toy_world 1 5) zero_interval_hp 3 2 empty_logs 0
              (toy_trainer 1 5)) as [_ Htrain];
    [ simpl; lia | reflexivity
    | intros _; split; [reflexivity | split; [simpl; lia | intros; discriminate]] |].
  apply Htrain. lia.
Defined.

(** Three steps of the toy trainer: three critic steps. *)
Lemma train_optimizer_calls_witness :
  @train_ready (toy_world 1 5) toy_hp 2 (toy_trainer 1 5)
  /\ exists logs s',
       @train (toy_world 1 5) toy_hp 3 2 (toy_trainer 1 5) = Ok (logs, s')
       /\ count_events is_critic_step (events s') = 3%nat.
Proof.
  split; [toy_ready|].
  destruct (@train_optimizer_calls (toy_world 1 5) toy_hp 3 2 (toy_trainer 1 5))
    as (logs & s' & Hrun & _ & Hcritic & _); [toy_ready|].
  exists logs, s'. split; [exact Hrun|]. rewrite Hcritic. reflexivity.
Defined.

(** Three steps of the toy trainer: the counter is 3, three coefficients
    are logged. *)
Lemma train_logs_and_counter_witness :
  @train_ready (toy_world 1 5) toy_hp 2 (toy_trainer 1 5)
  /\ exists logs s',
       @train (toy_world 1 5) toy_hp 3 2 (toy_trainer 1 5) = Ok (logs, s')
       /\ n_updates s' = 3%Z
       /\ length (ent_coefs logs) = 3%nat.
Proof.
  split; [toy_ready|].
  destruct (@train_logs_and_counter (toy_world 1 5) toy_hp 3 2 (toy_trainer 1 5))
    as (logs & s' & Hrun & Hnu & Hcoefs & _); [toy_ready|].
  exists logs, s'. split; [exact Hrun|]. split; [rewrite Hnu; reflexivity | exact Hcoefs].
Defined.

(** Five "bc" iterations with a copy interval of 2: hard copies at the
    steps 0, 2 and 4. *)
Lemma pretrain_without_train_witness :
  (-1 <= 0)%Z
  /\ exists logs' s',
       @pretrain (toy_world 2 5) toy_hp 5 2 4 2 "bc" "mean" 1 (-1) (toy_trainer 2 5)
       = Ok (logs', s')
       /\ hard_copy_steps (events s') = [4; 2; 0]%Z.
Proof.
  split; [lia|].
  destruct (@pretrain_without_train (toy_world 2 5) toy_hp 5 2 4 2%Z "bc"%string
              "mean"%string 1 (-1)%Z (toy_trainer 2 5)) as [Hsafe Hruns]; [lia|].
  destruct Hruns as (logs' & s' & Hrun); [reflexivity | simpl; lia | discriminate |].
  exists logs', s'. split; [exact Hrun|].
  destruct (Hsafe logs' s' Hrun) as (Hcopy & _). rewrite Hcopy. reflexivity.
Defined.

(** Step 4 of [pretrain] with off_policy_update_freq = 2: a Polyak update. *)
Lemma pretrain_delegated_step_witness :
  (0 < 2)%Z
  /\ @train_ready (toy_world 1 5) toy_hp 2 (toy_trainer 1 5)
  /\ exists s',
       @pretrain_step (toy_world 1 5) toy_hp 2 4 100 "binary" "mean" 1 2 toy_pretrain_logs 4
         (toy_trainer 1 5) = Ok (toy_pretrain_logs, s')
       /\ polyak_steps (events s') = [0%Z].
Proof.
  split; [lia|]. split; [toy_ready|].
  destruct (@pretrain_delegated_step (toy_world 1 5) toy_hp 2 4 100%Z "binary"%string
              "mean"%string 1 2%Z toy_pretrain_logs 4%Z (toy_trainer 1 5))
    as (train_logs & s' & Hrun & _ & Hpolyak & _);
    [lia | exists 2%Z; reflexivity | toy_ready |].
  exists s'. split; [exact Hrun | exact Hpolyak].
Defined.

(** "auto" starts the coefficient at 1. *)
Lemma setup_ent_coef_initial_value_witness :
  exists e,
    @setup_ent_coef (toy_world 1 5) toy_float toy_adam (PyStr "auto") = inr e
    /\ current_ent_coef e = 1.
Proof.
  eexists. split; [reflexivity|].
  destruct (@setup_ent_coef_initial_value (toy_world 1 5) toy_float toy_adam (PyStr "auto")
              _ eq_refl) as (Hauto & _).
  destruct (Hauto "auto"%string eq_refl eq_refl) as (_ & _ & _ & Hone).
  apply Hone. reflexivity.
Defined.

(** "auto_-1" is rejected by the assertion. *)
Lemma setup_ent_coef_failures_witness :
  @setup_ent_coef (toy_world 1 5) toy_float toy_adam (PyStr "auto_-1")
  = inl (Exn AssertionError).
Proof.
  destruct (@setup_ent_coef_failures (toy_world 1 5) toy_float toy_adam "auto_-1"
              eq_refl eq_refl) as (piece & Hpiece & _ & Hneg & _).
  cbn in Hpiece. injection Hpiece as <-.
  apply (Hneg (-1)); [reflexivity | lra].
Defined.

(** "automatic_0.5_x" starts the coefficient at 0.5. *)
Lemma setup_ent_coef_string_shape_witness :
  @setup_ent_coef (toy_world 1 5) toy_float toy_adam (PyStr "automatic_0.5_x")
  = inr (@AutoEntCoef (toy_world 1 5) (ln (1 * / 2)) 0%nat).
Proof.
  destruct (@setup_ent_coef_string_shape (toy_world 1 5) toy_float toy_adam
              "matic" "0.5" "_x" eq_refl) as [Hshape _].
  destruct Hshape as [_ Hvalue]; [reflexivity | right; eexists; reflexivity |].
  apply (Hvalue (/ 2)); [reflexivity | lra].
Defined.

(** The default [initial_alpha] of 5.0 is the first multiplier. *)
Lemma setup_cql_initial_multiplier_witness :
  exists log_alpha,
    @setup_cql (toy_world 1 5) toy_adam true 5 = Some (log_alpha, 0%nat)
    /\ clipped_alpha log_alpha = 5.
Proof.
  destruct (@setup_cql_initial_multiplier (toy_world 1 5) toy_hp toy_adam 5)
    as (log_alpha & Hcql & _ & _ & Hfive & _); [lra|].
  exists log_alpha. split; [exact Hcql | apply Hfive; reflexivity].
Defined.


(** The advantage of the toy batch with two critics and two samples. *)
Lemma crr_advantage_two_critics_witness :
  @n_critics (toy_world 2 5) = 2%nat
  /\ exists adv s',
       @crr_advantage (toy_world 2 5) toy_hp 2 "mean" toy_batch (toy_trainer 2 5)
       = Ok (Column adv, s')
       /\ length adv = 2%nat.
Proof.
  split; [reflexivity|].
  destruct (@crr_advantage_two_critics (toy_world 2 5) toy_hp 2 "mean" toy_batch
              (toy_trainer 2 5))
    as (noises & s' & _ & Hrun & _); [reflexivity | lia |].
  eexists _, s'. split; [exact Hrun | reflexivity].
Defined.


(** The first step of the toy trainer logs the temporal-difference loss. *)
Lemma train_step_critic_loss_witness :
  @train_ready (toy_world 1 5) toy_hp 2 (toy_trainer 1 5)
  /\ exists logs' s' q_backup,
       @train_step (toy_world 1 5) toy_hp 2 empty_logs 0 (toy_trainer 1 5) = Ok (logs', s')
       /\ critic_losses logs' = [@critic_loss_fwd (toy_world 1 5) toy_batch q_backup 0].
Proof.
  split; [toy_ready|].
  destruct (@train_step_critic_loss (toy_world 1 5) toy_hp 2 empty_logs 0 (toy_trainer 1 5))
    as (logs' & s' & q_backup & graph & Hrun & _ & Hlogged & _); [toy_ready|].
  exists logs', s', q_backup. split; [exact Hrun | exact Hlogged].
Defined.


(** The argument of the logarithm on a row of one sample. *)
Lemma conservative_loss_log_defined_witness :
  1e-10 <= cql_log_argument 0 [1] [1] [0]
  /\ exp (ln (cql_log_argument 0 [1] [1] [0])) = cql_log_argument 0 [1] [1] [0].
Proof.
  apply (proj2 (@conservative_loss_log_defined (toy_world 1 5) toy_hp toy_batch
                  {| flat_policy_acts := []; random_actions := []; log_probs := [] |}
                  0 0 0) [1] [1] [0]);
    [discriminate | discriminate | reflexivity].
Defined.

(** Step 0 of a "bc" pretraining of the toy trainer: critic step, actor
    step, hard copy. *)
Lemma pretrain_update_hard_copy_witness :
  exists logs' s',
    @pretrain_update (toy_world 2 5) toy_hp 2 4 100 "bc" "mean" 1 toy_pretrain_logs 0
      (toy_trainer 2 5) = Ok (logs', s')
    /\ events s' = [HardCopy 0; ActorOptimizerStep; CriticOptimizerStep]
    /\ critic_target_params s' = critic_params s'.
Proof.
  destruct (@pretrain_update_hard_copy (toy_world 2 5) toy_hp 2 4 100%Z "bc"%string
              "mean"%string 1 toy_pretrain_logs 0%Z (toy_trainer 2 5)) as [Hsafe Hruns].
  destruct Hruns as (logs' & s' & Hrun); [reflexivity | simpl; lia | discriminate |].
  exists logs', s'. split; [exact Hrun|].
  destruct (Hsafe logs' s' Hrun) as (_ & Hev & Htarget & _).
  split; [rewrite Hev; reflexivity | rewrite Htarget; reflexivity].
Defined.

(** The toy trainer, in auto mode with CQL, saves its four optimizers and
    not the alias "actor". *)
Lemma saved_optimizers_are_those_stepped_witness :
  In "alpha_optimizer"%string (fst (@get_torch_variables (toy_world 1 5) (toy_trainer 1 5)))
  /\ In "log_ent_coef"%string (snd (@get_torch_variables (toy_world 1 5) (toy_trainer 1 5))).
Proof.
  destruct (@saved_optimizers_are_those_stepped (toy_world 1 5) toy_hp (toy_trainer 1 5)
              0%Z "alpha_optimizer"%string) as (Hdicts & _ & _ & Hlog & _).
  split; [| exact Hlog].
  apply Hdicts. exists AlphaOptimizerStep. split; [simpl; tauto | reflexivity].
Defined.


(** C1: the conservative loss on a batch of two rows with two action
    samples, a critic that returns 0 and log-probabilities -1 on the first
    row and -2 on the second, for [log_alpha = 0] and a threshold of 10.
    The actor is sampled twice, [th.cat(n_log_probs)] puts the two vectors
    one after the other and the view reads them batch first, so both rows
    of [log_probs] are [-1, -2], and the estimator returns
    log(1 + 0.5 * (e + e^2) / 2 + 1e-10) - 10.  With the log-probability of
    the action each policy value was computed for, rows [-1, -1] and
    [-2, -2], the formula
    clipped_alpha * mean(logsumexp - data_values - alpha_threshold) is
    (log(1 + 0.5 * e + 1e-10) + log(1 + 0.5 * e^2 + 1e-10)) / 2 - 10, which
    is smaller. *)
Theorem conservative_loss_misaligned_log_probs :
  exists s1 s2 loss s',
    @sample_policy_actions row_world toy_hp 2 (observations row_batch) row_trainer
    = Ok (row_draws, s1)
    /\ @conservative_samples row_world toy_hp row_batch row_trainer = Ok (row_samples, s2)
    /\ log_probs row_samples = [[-1; -2]; [-1; -2]]
    /\ aligned_log_probs 2 (map snd row_draws) = [[-1; -1]; [-2; -2]]
    /\ @_compute_conservative_loss row_world toy_hp row_batch row_trainer = Ok (loss, s')
    /\ item loss = ln (1 + 0.5 * ((exp 1 + exp 2) / 2) + 1e-10) - 10
    /\ @conservative_loss_spec row_world toy_hp row_batch
         (with_log_probs (aligned_log_probs 2 (map snd row_draws)) row_samples) 0 0 0
       = (ln (1 + 0.5 * exp 1 + 1e-10) + ln (1 + 0.5 * exp 2 + 1e-10)) / 2 - 10
    /\ @conservative_loss_spec row_world toy_hp row_batch
         (with_log_probs (aligned_log_probs 2 (map snd row_draws)) row_samples) 0 0 0
       < item loss.
Proof.
  assert (Hdraws : exists s1,
             @sample_policy_actions row_world toy_hp 2 (observations row_batch) row_trainer
             = Ok (row_draws, s1)) by (eexists; vm_compute; reflexivity).
  assert (Hsamples : exists s2,
             @conservative_samples row_world toy_hp row_batch row_trainer
             = Ok (row_samples, s2)) by (eexists; vm_compute; reflexivity).
  destruct Hdraws as [s1 Hdraws]. destruct Hsamples as [s2 Hsamples].
  destruct (@compute_conservative_loss_run row_world toy_hp row_batch row_trainer 0 0%nat)
    as (smp & base & s' & Hrun & _ & _ & Hbase & Hloss);
    [reflexivity | simpl; lia | discriminate | reflexivity |].
  rewrite Hsamples in Hrun. injection Hrun as <- <-.
  assert (Hzero : base = 0).
  { cbv zeta in Hbase. destruct Hbase as [Hin _].
    unfold cql_policy_values, cql_random_values, first_critic, flat_obs_t, critic_forward
      in Hin.
    cbn - [exp ln Rplus Rmult Rminus Rdiv Rinv INR IZR] in Hin.
    repeat (destruct Hin as [Hin | Hin]; [now symmetry|]). contradiction. }
  subst base.
  assert (H1 : exp (0 - 0 - -1) = exp 1) by (f_equal; lra).
  assert (H2 : exp (0 - 0 - -2) = exp 2) by (f_equal; lra).
  assert (H0 : exp (0 - 0) = 1) by (replace (0 - 0) with 0 by lra; apply exp_0).
  assert (Halpha : clipped_alpha 0 = 1).
  { unfold clipped_alpha. rewrite clamp_inside by lra. apply exp_0. }
  assert (Hcode : conservative_loss_fwd toy_hp row_batch row_samples 0
                    (critic_params row_trainer) 0
                  = ln (1 + 0.5 * ((exp 1 + exp 2) / 2) + 1e-10) - 10).
  { rewrite conservative_loss_fwd_spec.
    unfold conservative_loss_spec, cql_logsumexp, cql_random_values, cql_policy_values,
      first_critic, flat_obs_t, critic_forward.
    cbn - [exp ln Rplus Rmult Rminus Rdiv Rinv INR IZR clipped_alpha tmean Z.pow_pos].
    rewrite Halpha, H0, H1, H2, !tmean_pair.
    replace (0.5 * ((1 + 1) / 2) / 0.5 + 0.5 * ((exp 1 + exp 2) / 2) + 1e-10)
      with (1 + 0.5 * ((exp 1 + exp 2) / 2) + 1e-10) by lra.
    lra. }
  assert (Haligned : @conservative_loss_spec row_world toy_hp row_batch
                       (with_log_probs (aligned_log_probs 2 (map snd row_draws))
                          row_samples) 0 0 0
                     = (ln (1 + 0.5 * exp 1 + 1e-10) + ln (1 + 0.5 * exp 2 + 1e-10)) / 2
                       - 10).
  { unfold conservative_loss_spec, cql_logsumexp, cql_random_values, cql_policy_values,
      first_critic, flat_obs_t, critic_forward, with_log_probs, aligned_log_probs.
    cbn - [exp ln Rplus Rmult Rminus Rdiv Rinv INR IZR clipped_alpha tmean Z.pow_pos].
    rewrite Halpha, H0, H1, H2, !tmean_pair.
    replace (0.5 * ((1 + 1) / 2) / 0.5 + 0.5 * ((exp 1 + exp 1) / 2) + 1e-10)
      with (1 + 0.5 * exp 1 + 1e-10) by lra.
    replace (0.5 * ((1 + 1) / 2) / 0.5 + 0.5 * ((exp 2 + exp 2) / 2) + 1e-10)
      with (1 + 0.5 * exp 2 + 1e-10) by lra.
    lra. }
  exists s1, s2. eexists _, s2.
  split; [exact Hdraws | split; [exact Hsamples | split; [reflexivity | split]]].
  { reflexivity. }
  split; [exact Hloss | cbn [item]; split; [exact Hcode | split; [exact Haligned|]]].
  rewrite Haligned, Hcode.
  assert (Hlt : exp 1 < exp 2) by (apply exp_increasing; lra).
  assert (Hpos : 0 < exp 1) by apply exp_pos.
  replace (1 + 0.5 * ((exp 1 + exp 2) / 2) + 1e-10)
    with (((1 + 0.5 * exp 1 + 1e-10) + (1 + 0.5 * exp 2 + 1e-10)) / 2) by lra.
  assert (H := ln_midpoint_strict (1 + 0.5 * exp 1 + 1e-10) (1 + 0.5 * exp 2 + 1e-10)).
  lapply H; [clear H; intros H | lra].
  lapply H; [clear H; intros H | lra].
  lapply H; [clear H; intros H | lra].
  lra.
Qed.
